(** * Seeds visitor register: check-in / check-out ledger

    A shallow embedding of the HTTP handlers of the visitor register
    (login, visitor creation, check-out, listing, update) as they are written
    in three iterations of the server:

    - [Server1]: the first iteration found in [src/server1.js] (lines 1-417);
    - [Server8]: [src/server8.js];
    - [Part000]: [src/unnamed/part_000], the iteration with transactions,
      audit log and a visitor update endpoint.

    Everything outside the repository (clocks, the SQL engine's failures,
    [Math.random], [bcrypt.compare], the QR renderer, the SMTP transport) is
    an oracle of the environment [Env]; the tables live in [World]. *)

From Stdlib Require Import ZArith List String Ascii Bool Lia Arith DecimalString.
From Stdlib Require QArith Qminmax.
Import ListNotations.
Local Open Scope string_scope.
Local Open Scope Z_scope.

(* ================================================================== *)
(** * JavaScript primitives the handlers rely on *)
(* ================================================================== *)

Module JS.

(** Characters that cannot be typed inside a literal without escapes. *)
Definition dquote : ascii := Eval cbv in ascii_of_nat 34.
Definition backslash : ascii := Eval cbv in ascii_of_nat 92.

(** A field of a JSON body or of a query string is either absent
    ([undefined]) or a string.  Truthiness: [undefined] and the empty
    string are falsy. *)
Definition truthy (v : option string) : bool :=
  match v with
  | Some EmptyString => false
  | Some _ => true
  | None => false
  end.

(** [v || d] with a string default [d]. *)
Definition or_else (v : option string) (d : string) : string :=
  match v with
  | Some EmptyString => d
  | Some s => s
  | None => d
  end.

(** [v || null]. *)
Definition or_null (v : option string) : option string :=
  if truthy v then v else None.

(** ** Regular expressions ([RegExp.prototype.test] on anchored patterns)

    Both patterns of the source are anchored with [^] and [$] and carry no
    flag, so [test] is a whole-string match.  Matching is by derivatives. *)

Inductive regex : Type :=
| Void
| Eps
| Class (p : ascii -> bool)
| Cat (r1 r2 : regex)
| Alt (r1 r2 : regex)
| Star (r : regex).

Fixpoint nullable (r : regex) : bool :=
  match r with
  | Void => false
  | Eps => true
  | Class _ => false
  | Cat r1 r2 => nullable r1 && nullable r2
  | Alt r1 r2 => nullable r1 || nullable r2
  | Star _ => true
  end.

Fixpoint deriv (c : ascii) (r : regex) : regex :=
  match r with
  | Void => Void
  | Eps => Void
  | Class p => if p c then Eps else Void
  | Cat r1 r2 =>
      if nullable r1
      then Alt (Cat (deriv c r1) r2) (deriv c r2)
      else Cat (deriv c r1) r2
  | Alt r1 r2 => Alt (deriv c r1) (deriv c r2)
  | Star r1 => Cat (deriv c r1) (Star r1)
  end.

Fixpoint test (r : regex) (s : string) : bool :=
  match s with
  | EmptyString => nullable r
  | String c s' => test (deriv c r) s'
  end.

(** [r+] and [r{n}]. *)
Definition Plus (r : regex) : regex := Cat r (Star r).

Fixpoint Times (n : nat) (r : regex) : regex :=
  match n with
  | O => Eps
  | S n' => Cat r (Times n' r)
  end.

(** Character classes.  [\s] restricted to the code units below 256:
    TAB, LF, VT, FF, CR, SPACE and NBSP. *)
Definition is_space (c : ascii) : bool :=
  let n := nat_of_ascii c in
  ((9 <=? n) && (n <=? 13) || (n =? 32) || (n =? 160))%nat.

Definition is_digit (c : ascii) : bool :=
  let n := nat_of_ascii c in ((48 <=? n) && (n <=? 57))%nat.

Definition is_char (a : ascii) (c : ascii) : bool := Ascii.eqb a c.

(** [[^\s@]] *)
Definition not_space_at (c : ascii) : bool :=
  negb (is_space c) && negb (is_char "@" c).

(** [/^[^\s@]+@[^\s@]+\.[^\s@]+$/] *)
Definition emailRegex : regex :=
  Cat (Plus (Class not_space_at))
      (Cat (Class (is_char "@"))
           (Cat (Plus (Class not_space_at))
                (Cat (Class (is_char "."))
                     (Plus (Class not_space_at))))).

(** [/^[0-9]{10}$/] *)
Definition mobileRegex : regex := Times 10 (Class is_digit).

(** ** Numbers and dates *)

(** Template-literal rendering of an integer ([`${Date.now()}`]). *)
Definition string_of_Z (z : Z) : string := NilZero.string_of_int (Z.to_int z).

Definition digit_char (d : Z) : ascii := ascii_of_nat (48 + Z.to_nat d).

(** The [width] low decimal digits of [n], most significant first. *)
Fixpoint pad_digits (width : nat) (n : Z) (acc : string) : string :=
  match width with
  | O => acc
  | S w => pad_digits w (n / 10) (String (digit_char (n mod 10)) acc)
  end.

Definition pad (width : nat) (n : Z) : string := pad_digits width n EmptyString.

(** Proleptic Gregorian date of a day number (days since 1970-01-01). *)
Definition civil_from_days (z : Z) : Z * Z * Z :=
  let z := z + 719468 in
  let era := z / 146097 in
  let doe := z - era * 146097 in
  let yoe := (doe - doe / 1460 + doe / 36524 - doe / 146096) / 365 in
  let y := yoe + era * 400 in
  let doy := doe - (365 * yoe + yoe / 4 - yoe / 100) in
  let mp := (5 * doy + 2) / 153 in
  let d := doy - (153 * mp + 2) / 5 + 1 in
  let m := if mp <? 10 then mp + 3 else mp - 9 in
  (if m <=? 2 then y + 1 else y, m, d).

(** [Date.prototype.toISOString] of a time value in milliseconds since the
    epoch (UTC). *)
Definition toISOString (t : Z) : string :=
  let day := t / 86400000 in
  let ms := t mod 86400000 in
  let '(y, m, d) := civil_from_days day in
  let year :=
    if (0 <=? y) && (y <=? 9999) then pad 4 y
    else (if y <? 0 then "-" else "+") ++ pad 6 (Z.abs y) in
  year ++ "-" ++ pad 2 m ++ "-" ++ pad 2 d ++ "T"
       ++ pad 2 (ms / 3600000) ++ ":" ++ pad 2 (ms / 60000 mod 60) ++ ":"
       ++ pad 2 (ms / 1000 mod 60) ++ "." ++ pad 3 (ms mod 1000) ++ "Z".

(** [parseInt(s)] without radix: leading white space, an optional sign, a
    [0x] prefix for hexadecimal, then the longest prefix of digits; [None]
    is [NaN]. *)
Fixpoint skip_space (s : string) : string :=
  match s with
  | String c s' => if is_space c then skip_space s' else s
  | EmptyString => s
  end.

Definition digit_value (radix : Z) (c : ascii) : option Z :=
  let n := Z.of_nat (nat_of_ascii c) in
  let v :=
    if (48 <=? n) && (n <=? 57) then n - 48
    else if (97 <=? n) && (n <=? 122) then n - 87
    else if (65 <=? n) && (n <=? 90) then n - 55
    else 36 in
  if v <? radix then Some v else None.

Fixpoint digits_prefix (radix : Z) (s : string) (acc : option Z) : option Z :=
  match s with
  | EmptyString => acc
  | String c s' =>
      match digit_value radix c with
      | Some d =>
          digits_prefix radix s'
            (Some (match acc with Some a => a * radix + d | None => d end))
      | None => acc
      end
  end.

Definition parseInt (s : string) : option Z :=
  let s0 := skip_space s in
  let '(neg, s1) :=
    match s0 with
    | String "-" r => (true, r)
    | String "+" r => (false, r)
    | _ => (false, s0)
    end in
  let mag :=
    match s1 with
    | String "0" (String "x" r) => digits_prefix 16 r None
    | String "0" (String "X" r) => digits_prefix 16 r None
    | _ => digits_prefix 10 s1 None
    end in
  option_map (fun m => if neg then - m else m) mag.

(** ** JSON text of flat objects with string members

    [JSON.stringify] of an object whose own properties are all strings, and
    [JSON.parse] restricted to such texts (any other value makes the
    restricted parser answer [None]).  Strings are sequences of code units
    below 256. *)

Definition hex_char (n : nat) : ascii :=
  nth n ["0"; "1"; "2"; "3"; "4"; "5"; "6"; "7"; "8"; "9";
         "a"; "b"; "c"; "d"; "e"; "f"]%char "0"%char.

(** QuoteJSONString, one code unit. *)
Definition escape_char (c : ascii) : string :=
  let n := nat_of_ascii c in
  if (n =? 34)%nat then String backslash (String dquote EmptyString)
  else if (n =? 92)%nat then String backslash (String backslash EmptyString)
  else if (n =? 8)%nat then String backslash "b"
  else if (n =? 12)%nat then String backslash "f"
  else if (n =? 10)%nat then String backslash "n"
  else if (n =? 13)%nat then String backslash "r"
  else if (n =? 9)%nat then String backslash "t"
  else if (n <? 32)%nat then
    String backslash
      (String "u" (String "0" (String "0"
         (String (hex_char (n / 16)) (String (hex_char (n mod 16)) EmptyString)))))
  else String c EmptyString.

Fixpoint escape (s : string) : string :=
  match s with
  | EmptyString => EmptyString
  | String c s' => escape_char c ++ escape s'
  end.

Definition quote (s : string) : string :=
  String dquote (escape s ++ String dquote EmptyString).

Definition stringify_member (kv : string * string) : string :=
  quote (fst kv) ++ ":" ++ quote (snd kv).

Fixpoint stringify_members (l : list (string * string)) : string :=
  match l with
  | [] => EmptyString
  | [kv] => stringify_member kv
  | kv :: l' => stringify_member kv ++ "," ++ stringify_members l'
  end.

(** [JSON.stringify(o)], the members of [o] in property order. *)
Definition stringify (o : list (string * string)) : string :=
  "{" ++ stringify_members o ++ "}".

Definition hex_value (c : ascii) : option nat :=
  match digit_value 16 c with
  | Some v => Some (Z.to_nat v)
  | None => None
  end.

(** JSON white space: TAB, LF, CR, SPACE. *)
Definition is_json_ws (c : ascii) : bool :=
  let n := nat_of_ascii c in
  ((n =? 9) || (n =? 10) || (n =? 13) || (n =? 32))%nat.

Fixpoint skip_ws (s : string) : string :=
  match s with
  | String c s' => if is_json_ws c then skip_ws s' else s
  | EmptyString => s
  end.

Definition cons_to (c : ascii) (r : option (string * string))
  : option (string * string) :=
  match r with
  | Some (s, rest) => Some (String c s, rest)
  | None => None
  end.

(** The characters of a JSON string after its opening quote, up to and
    including the closing quote; answers the decoded string and the rest of
    the input. *)
Fixpoint parse_string_body (s : string) : option (string * string) :=
  match s with
  | EmptyString => None
  | String c rest =>
      if Ascii.eqb c dquote then Some (EmptyString, rest)
      else if Ascii.eqb c backslash then
        match rest with
        | EmptyString => None
        | String e rest1 =>
            if Ascii.eqb e dquote then cons_to dquote (parse_string_body rest1)
            else if Ascii.eqb e backslash then cons_to backslash (parse_string_body rest1)
            else if Ascii.eqb e "/" then cons_to "/" (parse_string_body rest1)
            else if Ascii.eqb e "b" then cons_to (ascii_of_nat 8) (parse_string_body rest1)
            else if Ascii.eqb e "f" then cons_to (ascii_of_nat 12) (parse_string_body rest1)
            else if Ascii.eqb e "n" then cons_to (ascii_of_nat 10) (parse_string_body rest1)
            else if Ascii.eqb e "r" then cons_to (ascii_of_nat 13) (parse_string_body rest1)
            else if Ascii.eqb e "t" then cons_to (ascii_of_nat 9) (parse_string_body rest1)
            else if Ascii.eqb e "u" then
              match rest1 with
              | String h1 (String h2 (String h3 (String h4 rest2))) =>
                  match hex_value h1, hex_value h2, hex_value h3, hex_value h4 with
                  | Some a, Some b, Some c3, Some d =>
                      let code := (((a * 16 + b) * 16 + c3) * 16 + d)%nat in
                      if (code <? 256)%nat
                      then cons_to (ascii_of_nat code) (parse_string_body rest2)
                      else None
                  | _, _, _, _ => None
                  end
              | _ => None
              end
            else None
        end
      else if (nat_of_ascii c <? 32)%nat then None
      else cons_to c (parse_string_body rest)
  end.

(** [expect c s]: [s] after white space starts with [c]; the rest. *)
Definition expect (c : ascii) (s : string) : option string :=
  match skip_ws s with
  | String c' rest => if Ascii.eqb c' c then Some rest else None
  | EmptyString => None
  end.

Definition at_end (s : string) : bool :=
  match skip_ws s with
  | EmptyString => true
  | _ => false
  end.

(** A string token, white space allowed before it. *)
Definition parse_string (s : string) : option (string * string) :=
  match expect dquote s with
  | Some s1 => parse_string_body s1
  | None => None
  end.

(** Members of an object after the opening brace. *)
Fixpoint parse_members (fuel : nat) (s : string) (acc : list (string * string))
  : option (list (string * string)) :=
  match fuel with
  | O => None
  | S fuel' =>
      match parse_string s with
      | Some (k, s2) =>
          match expect ":" s2 with
          | Some s3 =>
              match parse_string s3 with
              | Some (v, s5) =>
                  match expect "," s5 with
                  | Some s6 => parse_members fuel' s6 (acc ++ [(k, v)])%list
                  | None =>
                      match expect "}" s5 with
                      | Some s6 =>
                          if at_end s6 then Some (acc ++ [(k, v)])%list else None
                      | None => None
                      end
                  end
              | None => None
              end
          | None => None
          end
      | None => None
      end
  end.

(** [JSON.parse(text)] on flat objects. *)
Definition parse (text : string) : option (list (string * string)) :=
  match expect "{" text with
  | Some s1 =>
      match expect "}" s1 with
      | Some s2 => if at_end s2 then Some [] else None
      | None => parse_members (String.length text) s1 []
      end
  | None => None
  end.

(** Property access [o[k]]: the last member named [k] wins. *)
Fixpoint get (k : string) (o : list (string * string)) : option string :=
  match o with
  | [] => None
  | (k', v) :: o' =>
      match get k o' with
      | Some v' => Some v'
      | None => if String.eqb k k' then Some v else None
      end
  end.

(** ** Strings *)

Fixpoint drop (n : nat) (s : string) : string :=
  match n, s with
  | O, _ => s
  | S n', String _ s' => drop n' s'
  | S _, EmptyString => EmptyString
  end.

(** [s.replace(pat, rep)] with a string pattern: the first occurrence. *)
Fixpoint replace (pat rep s : string) : string :=
  if String.prefix pat s then rep ++ drop (String.length pat) s
  else match s with
       | EmptyString => EmptyString
       | String c s' => String c (replace pat rep s')
       end.

(** [s.includes(pat)] *)
Fixpoint includes (pat s : string) : bool :=
  String.prefix pat s
  || match s with
     | EmptyString => false
     | String _ s' => includes pat s'
     end.

Definition upper_char (c : ascii) : ascii :=
  let n := nat_of_ascii c in
  if ((97 <=? n) && (n <=? 122))%nat then ascii_of_nat (n - 32) else c.

(** [s.toUpperCase()] on ASCII letters. *)
Fixpoint toUpperCase (s : string) : string :=
  match s with
  | EmptyString => EmptyString
  | String c s' => String (upper_char c) (toUpperCase s')
  end.

(** [Math.ceil(a / b)] on integers, [b] not zero. *)
Definition ceil_div (a b : Z) : Z := - ((- a) / b).

End JS.

(* ================================================================== *)
(** * Tables, environment and the handler monad *)
(* ================================================================== *)

(** A row of [vs_visitors].  Times are milliseconds since the epoch.
    [visitor_name] and [host_email] are NOT NULL columns; [updated_at]
    exists in the schema of [Part000] only. *)
Record Visitor : Type := mkVisitor {
  id : Z;
  visitor_name : string;
  mobile : option string;
  host_employee : option string;
  host_email : string;
  purpose : option string;
  photo_base64 : option string;
  qr_code_data : option string;
  checkin_time : Z;
  checkout_time : option Z;
  status : string;
  created_by : option string;
  created_at : Z;
  updated_at : option Z
}.

(** A row of [vs_users]; [is_active] is a nullable BIT. *)
Record User : Type := mkUser {
  user_id : Z;
  username : string;
  email : string;
  password : string;
  role : string;
  is_active : option bool;
  last_login : option Z
}.

(** A row of [vs_audit_log]. *)
Record AuditEvent : Type := mkAudit {
  audit_user_id : Z;
  audit_action : string;
  audit_table : string;
  audit_record_id : Z;
  audit_created_at : Z
}.

(** The decoded token, [req.user]. *)
Record Principal : Type := mkPrincipal {
  p_id : Z;
  p_username : string;
  p_role : string
}.

Inductive MailKind : Type := CheckinMail | CheckoutMail.

Record Mail : Type := mkMail {
  mail_kind : MailKind;
  mail_to : string;
  mail_visitor : string
}.

(** What the process does besides answering: hash comparisons, mails handed
    to the transport with their outcome, and lines on the error console. *)
Inductive Event : Type :=
| Compared (hash : string)
| MailDelivered (m : Mail)
| MailRejected (m : Mail)
| ConsoleError (tag : string).

(** The world outside the handler code.  Each oracle is indexed by the
    number of times it was consulted before. *)
Record Env : Type := mkEnv {
  app_clock : nat -> Z;                       (* Date.now(), new Date() *)
  db_clock : nat -> Z;                        (* GETDATE() of a statement *)
  db_fault : nat -> bool;                     (* the statement is rejected *)
  random36 : nat -> string;                   (* Math.random().toString(36).substr(2, 9) *)
  bcrypt_compare : string -> string -> bool;  (* password, hash *)
  qr_toDataURL : string -> option string;     (* None: the renderer throws *)
  html_fault : nat -> bool;                   (* building the mail throws *)
  smtp_accepts : nat -> bool;                 (* sendMail resolves *)
  send_checkout_emails : bool                 (* SEND_CHECKOUT_EMAILS === 'true' *)
}.

Record World : Type := mkWorld {
  vs_visitors : list Visitor;
  vs_users : list User;
  vs_audit_log : list AuditEvent;
  visitors_identity : Z;     (* last IDENTITY value of vs_visitors *)
  tx : option (list Visitor); (* open transaction: vs_visitors at its begin *)
  n_app : nat;
  n_db : nat;
  n_rnd : nat;
  n_mail : nat;
  events : list Event
}.

Definition set_visitors (vs : list Visitor) (w : World) : World :=
  mkWorld vs (vs_users w) (vs_audit_log w) (visitors_identity w) (tx w)
          (n_app w) (n_db w) (n_rnd w) (n_mail w) (events w).

Definition set_users (us : list User) (w : World) : World :=
  mkWorld (vs_visitors w) us (vs_audit_log w) (visitors_identity w) (tx w)
          (n_app w) (n_db w) (n_rnd w) (n_mail w) (events w).

Definition set_audit (al : list AuditEvent) (w : World) : World :=
  mkWorld (vs_visitors w) (vs_users w) al (visitors_identity w) (tx w)
          (n_app w) (n_db w) (n_rnd w) (n_mail w) (events w).

Definition set_identity (i : Z) (w : World) : World :=
  mkWorld (vs_visitors w) (vs_users w) (vs_audit_log w) i (tx w)
          (n_app w) (n_db w) (n_rnd w) (n_mail w) (events w).

Definition set_tx (t : option (list Visitor)) (w : World) : World :=
  mkWorld (vs_visitors w) (vs_users w) (vs_audit_log w) (visitors_identity w) t
          (n_app w) (n_db w) (n_rnd w) (n_mail w) (events w).

Definition tick_app (w : World) : World :=
  mkWorld (vs_visitors w) (vs_users w) (vs_audit_log w) (visitors_identity w) (tx w)
          (S (n_app w)) (n_db w) (n_rnd w) (n_mail w) (events w).

Definition tick_db (w : World) : World :=
  mkWorld (vs_visitors w) (vs_users w) (vs_audit_log w) (visitors_identity w) (tx w)
          (n_app w) (S (n_db w)) (n_rnd w) (n_mail w) (events w).

Definition tick_rnd (w : World) : World :=
  mkWorld (vs_visitors w) (vs_users w) (vs_audit_log w) (visitors_identity w) (tx w)
          (n_app w) (n_db w) (S (n_rnd w)) (n_mail w) (events w).

Definition tick_mail (w : World) : World :=
  mkWorld (vs_visitors w) (vs_users w) (vs_audit_log w) (visitors_identity w) (tx w)
          (n_app w) (n_db w) (n_rnd w) (S (n_mail w)) (events w).

Definition emit (ev : Event) (w : World) : World :=
  mkWorld (vs_visitors w) (vs_users w) (vs_audit_log w) (visitors_identity w) (tx w)
          (n_app w) (n_db w) (n_rnd w) (n_mail w) (events w ++ [ev])%list.

(** ** The monad: state, environment, exceptions *)

Inductive Result (A : Type) : Type :=
| Ok (a : A)
| Throw (message : string).
Arguments Ok {A} a.
Arguments Throw {A} message.

Definition M (A : Type) : Type := Env -> World -> Result A * World.

Definition ret {A} (a : A) : M A := fun _ w => (Ok a, w).

Definition bind {A B} (m : M A) (k : A -> M B) : M B :=
  fun e w =>
    match m e w with
    | (Ok a, w') => k a e w'
    | (Throw msg, w') => (Throw msg, w')
    end.

Definition throw {A} (msg : string) : M A := fun _ w => (Throw msg, w).

(** [try { m } catch (err) { h err.message }] *)
Definition try_catch {A} (m : M A) (h : string -> M A) : M A :=
  fun e w =>
    match m e w with
    | (Ok a, w') => (Ok a, w')
    | (Throw msg, w') => h msg e w'
    end.

Declare Scope handler_scope.
Delimit Scope handler_scope with handler.
Notation "x <- m ;; k" := (bind m (fun x => k))
  (at level 61, m at next level, right associativity) : handler_scope.
Notation "m ;;; k" := (bind m (fun _ => k))
  (at level 61, right associativity) : handler_scope.
Local Open Scope handler_scope.

(** ** Effects *)

(** [Date.now()] and [new Date()]. *)
Definition Date_now : M Z :=
  fun e w => (Ok (app_clock e (n_app w)), tick_app w).

(** [Math.random().toString(36).substr(2, 9)]. *)
Definition Math_random36 : M string :=
  fun e w => (Ok (random36 e (n_rnd w)), tick_rnd w).

Definition console_error (tag : string) : M unit :=
  fun _ w => (Ok tt, emit (ConsoleError tag) w).

(** [await request.query(...)]: the statement [stmt] runs atomically with
    the engine's clock, unless the engine or the driver rejects it. *)
Definition query {A} (stmt : Z -> World -> A * World) : M A :=
  fun e w =>
    if db_fault e (n_db w) then (Throw "RequestError", tick_db w)
    else let '(a, w') := stmt (db_clock e (n_db w)) w in (Ok a, tick_db w').

(** [await bcrypt.compare(password, hash)]. *)
Definition bcrypt_compare_ (pw hash : string) : M bool :=
  fun e w => (Ok (bcrypt_compare e pw hash), emit (Compared hash) w).

(** [await QRCode.toDataURL(text)]. *)
Definition QRCode_toDataURL (text : string) : M string :=
  fun e w =>
    match qr_toDataURL e text with
    | Some url => (Ok url, w)
    | None => (Throw "QRCode", w)
    end.

(** Evaluating the mail template and attachments. *)
Definition build_mail (m : Mail) : M Mail :=
  fun e w =>
    if html_fault e (n_mail w) then (Throw "template", w) else (Ok m, w).

(** [await transporter.sendMail(m)]: a rejection is thrown into the
    handler. *)
Definition sendMail_await (m : Mail) : M unit :=
  fun e w =>
    if smtp_accepts e (n_mail w)
    then (Ok tt, emit (MailDelivered m) (tick_mail w))
    else (Throw "SMTP", emit (MailRejected m) (tick_mail w)).

(** [transporter.sendMail(m).then(...).catch(...)]: the promise is not
    awaited; its rejection ends in the [.catch] callback, which logs. *)
Definition sendMail_detached (m : Mail) : M unit :=
  fun e w =>
    if smtp_accepts e (n_mail w)
    then (Ok tt, emit (MailDelivered m) (tick_mail w))
    else (Ok tt, emit (ConsoleError "Email send error")
                   (emit (MailRejected m) (tick_mail w))).

(** [process.env.SEND_CHECKOUT_EMAILS === 'true'] *)
Definition checkout_mail_enabled : M bool :=
  fun e w => (Ok (send_checkout_emails e), w).

(** ** Transactions ([sql.Transaction])

    [begin] remembers the table, [commit] forgets it, [rollback] puts it
    back.  A rollback the driver rejects still leaves the work undone: the
    engine discards a transaction that was never committed.  Rolling back
    with no transaction open is an error. *)
Definition tx_begin : M unit :=
  query (fun _ w => (tt, set_tx (Some (vs_visitors w)) w)).

Definition tx_commit : M unit :=
  query (fun _ w => (tt, set_tx None w)).

Definition tx_rollback : M unit :=
  fun e w =>
    match tx w with
    | None => (Throw "TransactionError", w)
    | Some snap =>
        let w' := tick_db (set_tx None (set_visitors snap w)) in
        if db_fault e (n_db w) then (Throw "TransactionError", w')
        else (Ok tt, w')
    end.

(** ** Responses *)

(** A row of a record set of the listing endpoint: a visitor, or the single
    row of an aggregate with its [total_count] column. *)
Inductive Row : Type :=
| VisitorRow (v : Visitor)
| CountRow (total_count : Z).

Inductive Body : Type :=
| ErrorBody (error : string) (code : option string)
| LoginBody (token : Principal) (user : Principal)
| CreatedBody (id_ : Z) (qrCode : string) (checkinTime : option Z)
              (visitorId : option string)
| CheckedOutBody (checkoutTime : option string)
| ListBody (visitors : list Row) (page limit total pages : Z)
| VisitorBody (v : Visitor)
| OpaqueBody
| UpdatedBody (visitorId : Z).

Record Response : Type := mkResponse {
  http_status : Z;
  body : Body
}.

Definition json (b : Body) : Response := mkResponse 200 b.
Definition fail (st : Z) (error : string) (code : string) : Response :=
  mkResponse st (ErrorBody error (Some code)).

(** ** SQL statements on [vs_visitors] and [vs_users]

    String comparison is exact (a binary collation). *)

Module Sql.

(** [SELECT ... FROM vs_users WHERE username = @u OR email = @u] *)
Definition select_user (u : string) (w : World) : list User :=
  filter (fun r => String.eqb (username r) u || String.eqb (email r) u)
         (vs_users w).

(** [... WHERE (username = @u OR email = @u) AND is_active = 1] *)
Definition select_active_user (u : string) (w : World) : list User :=
  filter (fun r => (String.eqb (username r) u || String.eqb (email r) u)
                   && match is_active r with Some true => true | _ => false end)
         (vs_users w).

(** [UPDATE vs_users SET last_login = GETDATE() WHERE id = @userId] *)
Definition touch_last_login (uid : Z) (now : Z) (w : World) : unit * World :=
  (tt, set_users
         (map (fun r => if user_id r =? uid
                        then mkUser (user_id r) (username r) (email r) (password r)
                                    (role r) (is_active r) (Some now)
                        else r) (vs_users w)) w).

(** [SELECT ... FROM vs_visitors WHERE id = @id] *)
Definition select_visitor (i : Z) (w : World) : list Visitor :=
  filter (fun r => id r =? i) (vs_visitors w).

(** [INSERT INTO vs_visitors (visitor_name, mobile, host_employee,
    host_email, purpose, photo_base64, qr_code_data, created_by)
    OUTPUT INSERTED.id, INSERTED.checkin_time VALUES (...)].
    The columns not listed take their defaults: [id] the next identity
    value, [checkin_time] and [created_at] the engine's clock, [status]
    ['checked_in'], [checkout_time] NULL. *)
Definition insert_visitor (with_updated_at : bool)
    (name : string) (mob host : option string) (mail : string)
    (purp photo qr by_ : option string)
    (now : Z) (w : World) : (Z * Z) * World :=
  let i := visitors_identity w + 1 in
  let row := mkVisitor i name mob host mail purp photo qr now None
                       "checked_in" by_ now
                       (if with_updated_at then Some now else None) in
  ((i, now), set_identity i (set_visitors (vs_visitors w ++ [row])%list w)).

Definition check_out_row (now : Z) (with_updated_at : bool) (r : Visitor) : Visitor :=
  mkVisitor (id r) (visitor_name r) (mobile r) (host_employee r) (host_email r)
            (purpose r) (photo_base64 r) (qr_code_data r) (checkin_time r)
            (Some now) "checked_out" (created_by r) (created_at r)
            (if with_updated_at then Some now else updated_at r).

(** [UPDATE vs_visitors SET checkout_time = GETDATE(), status = 'checked_out'
    WHERE id = @id AND status = 'checked_in'], answering [rowsAffected[0]]. *)
Definition update_checkout_if_checked_in (with_updated_at : bool) (i : Z)
    (now : Z) (w : World) : nat * World :=
  let hit r := (id r =? i) && String.eqb (status r) "checked_in" in
  (List.length (filter hit (vs_visitors w)),
   set_visitors
     (map (fun r => if hit r then check_out_row now with_updated_at r else r)
          (vs_visitors w)) w).

(** [UPDATE vs_visitors SET checkout_time = GETDATE(), status = 'checked_out'
    WHERE id = @id] *)
Definition update_checkout (i : Z) (now : Z) (w : World) : nat * World :=
  let hit r := id r =? i in
  (List.length (filter hit (vs_visitors w)),
   set_visitors
     (map (fun r => if hit r then check_out_row now false r else r)
          (vs_visitors w)) w).

(** [UPDATE vs_visitors SET visitor_name = @visitor_name, mobile = @mobile,
    host_employee = @host_employee, host_email = @host_email,
    purpose = @purpose, updated_at = GETDATE() WHERE id = @id] *)
Definition update_visitor (i : Z) (name : string) (mob host : option string)
    (mail : string) (purp : option string)
    (now : Z) (w : World) : nat * World :=
  let hit r := id r =? i in
  (List.length (filter hit (vs_visitors w)),
   set_visitors
     (map (fun r => if hit r
                    then mkVisitor (id r) name mob host mail purp
                           (photo_base64 r) (qr_code_data r) (checkin_time r)
                           (checkout_time r) (status r) (created_by r)
                           (created_at r) (Some now)
                    else r)
          (vs_visitors w)) w).

(** [INSERT INTO vs_audit_log (...) VALUES (...)] *)
Definition insert_audit (uid : Z) (action table : string) (rid : Z)
    (now : Z) (w : World) : unit * World :=
  (tt, set_audit (vs_audit_log w ++ [mkAudit uid action table rid now])%list w).

(** *** The listing query *)

(** [x LIKE pattern]: [%] is any run of characters, [_] any one character
    (bracket sets are not modelled); NULL matches nothing. *)
Fixpoint like (p s : string) : bool :=
  match p with
  | EmptyString => match s with EmptyString => true | _ => false end
  | String c p' =>
      if Ascii.eqb c "%" then
        (fix skip (t : string) : bool :=
           like p' t
           || match t with
              | EmptyString => false
              | String _ t' => skip t'
              end) s
      else
        match s with
        | EmptyString => false
        | String d s' => (Ascii.eqb c "_" || Ascii.eqb c d) && like p' s'
        end
  end.

Definition like_opt (p : string) (v : option string) : bool :=
  match v with
  | Some s => like p s
  | None => false
  end.

(** The conjuncts the handlers append to [WHERE 1=1]. *)
Inductive Cond : Type :=
| DateIs (day : Z)                 (* CAST(checkin_time AS DATE) = @date *)
| StatusIs (s : string)            (* status = @status *)
| HostEmailIs (s : string)         (* host_email = @host_email *)
| HostEmployeeLike (p : string)    (* host_employee LIKE @host_employee *)
| Search3 (p : string)             (* visitor_name, mobile, host_employee *)
| Search5 (p : string).            (* ... and host_email, purpose *)

Definition eval_cond (c : Cond) (r : Visitor) : bool :=
  match c with
  | DateIs day => checkin_time r / 86400000 =? day
  | StatusIs s => String.eqb (status r) s
  | HostEmailIs s => String.eqb (host_email r) s
  | HostEmployeeLike p => like_opt p (host_employee r)
  | Search3 p =>
      like p (visitor_name r) || like_opt p (mobile r)
      || like_opt p (host_employee r)
  | Search5 p =>
      like p (visitor_name r) || like_opt p (mobile r)
      || like_opt p (host_employee r) || like p (host_email r)
      || like_opt p (purpose r)
  end.

Definition where_ (conds : list Cond) (r : Visitor) : bool :=
  forallb (fun c => eval_cond c r) conds.

Definition compare_opt {A} (cmp : A -> A -> comparison) (x y : option A)
  : comparison :=
  match x, y with
  | None, None => Eq
  | None, Some _ => Lt
  | Some _, None => Gt
  | Some a, Some b => cmp a b
  end.

(** [ORDER BY col]: NULL sorts lowest. *)
Definition compare_rows (col : string) (x y : Visitor) : comparison :=
  if String.eqb col "checkin_time" then checkin_time x ?= checkin_time y
  else if String.eqb col "checkout_time"
       then compare_opt Z.compare (checkout_time x) (checkout_time y)
  else if String.eqb col "visitor_name"
       then String.compare (visitor_name x) (visitor_name y)
  else if String.eqb col "host_employee"
       then compare_opt String.compare (host_employee x) (host_employee y)
  else if String.eqb col "host_email"
       then String.compare (host_email x) (host_email y)
  else if String.eqb col "status" then String.compare (status x) (status y)
  else Eq.

(** [x] may precede [y] under [ORDER BY col dir]. *)
Definition precedes (col dir : string) (x y : Visitor) : bool :=
  match (if String.eqb dir "ASC" then compare_rows col x y
         else compare_rows col y x) with
  | Gt => false
  | _ => true
  end.

Fixpoint insert_row (le : Visitor -> Visitor -> bool) (x : Visitor)
    (l : list Visitor) : list Visitor :=
  match l with
  | [] => [x]
  | y :: l' => if le x y then x :: l else y :: insert_row le x l'
  end.

(** Rows that compare equal keep their table order. *)
Fixpoint order_by (le : Visitor -> Visitor -> bool) (l : list Visitor)
  : list Visitor :=
  match l with
  | [] => []
  | x :: l' => insert_row le x (order_by le l')
  end.

(** [OFFSET @offset ROWS FETCH NEXT @limit ROWS ONLY] is rejected by the
    engine for a negative offset or a limit below one. *)
Definition page_ok (offset limit : Z) : bool := (0 <=? offset) && (1 <=? limit).

Definition window (offset limit : Z) (l : list Visitor) : list Visitor :=
  firstn (Z.to_nat limit) (skipn (Z.to_nat offset) l).

(** The select list [SELECT COUNT( * ) as total_count]. *)
Definition count_select : string := "SELECT COUNT(" ++ "*" ++ ") as total_count".

(** The engine reads the select list from the statement text: the counting
    list aggregates, any other list of the handlers names visitor columns. *)
Definition run_select (text : string) (conds : list Cond)
    (paging : option (string * string * Z * Z)) (w : World) : list Row :=
  let hits := filter (where_ conds) (vs_visitors w) in
  if JS.includes count_select text
  then [CountRow (Z.of_nat (List.length hits))]
  else match paging with
       | None => map VisitorRow hits
       | Some (col, dir, offset, limit) =>
           map VisitorRow (window offset limit (order_by (precedes col dir) hits))
       end.

(** The select list with the window aggregate [total_count] (the count of
    all rows over the empty window specification): every row of the page
    carries the size of the filtered set. *)
Definition select_page_counted (conds : list Cond) (col dir : string)
    (offset limit : Z) (w : World) : list (Visitor * Z) :=
  let hits := filter (where_ conds) (vs_visitors w) in
  map (fun r => (r, Z.of_nat (List.length hits)))
      (window offset limit (order_by (precedes col dir) hits)).

End Sql.

(** A statement the engine or the driver rejects before running it. *)
Definition rejected {A} : M A :=
  fun _ w => (Throw "RequestError", tick_db w).

Definition query_if {A} (ok : bool) (stmt : Z -> World -> A * World) : M A :=
  if ok then query stmt else rejected.

(** A value the driver accepts for an [sql.Int] parameter. *)
Definition int32 (z : Z) : bool := (-2147483648 <=? z) && (z <=? 2147483647).

(** The body of a check-in request. *)
Record VisitorForm : Type := mkForm {
  f_visitor_name : option string;
  f_mobile : option string;
  f_host_employee : option string;
  f_host_email : option string;
  f_purpose : option string;
  f_photo_base64 : option string
}.

(** The query string of the listing endpoint; [q_date] is the day the
    driver binds to [@date]. *)
Record ListQuery : Type := mkListQuery {
  q_date : option Z;
  q_status : option string;
  q_host_email : option string;
  q_host_employee : option string;
  q_search : option string;
  q_page : option string;
  q_limit : option string;
  q_sortBy : option string;
  q_sortOrder : option string
}.

Definition dummy_hash : string := "$2b$10$dummyhashforpreventingtimingattacks".

(** [{id, name, mobile, host, purpose, checkin, status}] *)
Definition qrData (qrId name : string) (mob host : option string)
    (purp : string) (checkin : string) : list (string * string) :=
  [("id", qrId); ("name", name); ("mobile", JS.or_else mob EmptyString);
   ("host", JS.or_else host EmptyString); ("purpose", purp);
   ("checkin", checkin); ("status", "checked_in")].

Definition principal_of (u : User) : Principal :=
  mkPrincipal (user_id u) (username u) (role u).

Definition creator (user : option Principal) : string :=
  match user with
  | Some p => JS.or_else (Some (p_username p)) "system"
  | None => "system"
  end.

(* ================================================================== *)
(** * [src/server8.js] *)
(* ================================================================== *)

Module Server8.

Definition invalid_credentials : Response :=
  fail 401 "Invalid credentials" "INVALID_CREDENTIALS".

(** [POST /api/login] *)
Definition login (username_ password_ : option string) : M Response :=
  try_catch
    (if negb (JS.truthy username_) || negb (JS.truthy password_) then
       ret (fail 400 "Username and password are required" "MISSING_CREDENTIALS")
     else
       let u := JS.or_else username_ EmptyString in
       let pw := JS.or_else password_ EmptyString in
       result <- query (fun _ w => (Sql.select_user u w, w)) ;;
       match result with
       | [] =>
           _ <- bcrypt_compare_ pw dummy_hash ;;
           ret invalid_credentials
       | user :: _ =>
           (* COALESCE(is_active, 1) as is_active *)
           let active := match is_active user with Some b => b | None => true end in
           if negb active then
             ret (fail 403 "Account is disabled" "ACCOUNT_DISABLED")
           else
             passwordValid <- bcrypt_compare_ pw (password user) ;;
             if negb passwordValid then ret invalid_credentials
             else
               _ <- try_catch (query (Sql.touch_last_login (user_id user)))
                      (fun _ => console_error "Could not update last login") ;;
               ret (json (LoginBody (principal_of user) (principal_of user)))
       end)
    (fun _ =>
       _ <- console_error "Login error" ;;
       ret (fail 500 "Internal server error" "INTERNAL_ERROR")).

(** The notification block of both handlers:
    [try { mailOptions = {...}; transporter.sendMail(mailOptions)
    .then(...).catch(...) } catch (emailErr) { console.error(...) }].
    The template reads the clock once (the copyright year). *)
Definition notify (m : Mail) (tag : string) : M unit :=
  try_catch
    (mailOptions <- build_mail m ;;
     _ <- Date_now ;;
     sendMail_detached mailOptions)
    (fun _ => console_error tag).

(** [POST /api/visitors] *)
Definition createVisitor (f : VisitorForm) (user : option Principal) : M Response :=
  try_catch
    (if negb (JS.truthy (f_visitor_name f)) || negb (JS.truthy (f_host_email f))
        || negb (JS.truthy (f_purpose f)) then
       ret (fail 400 "Missing required fields: visitor_name, host_email, and purpose are required"
                 "MISSING_FIELDS")
     else
       let visitor_name := JS.or_else (f_visitor_name f) EmptyString in
       let host_email := JS.or_else (f_host_email f) EmptyString in
       let purpose := JS.or_else (f_purpose f) EmptyString in
       if negb (JS.test JS.emailRegex host_email) then
         ret (fail 400 "Invalid host email format" "INVALID_EMAIL")
       else
         stamp <- Date_now ;;
         suffix <- Math_random36 ;;
         let qrId := "VIS-" ++ JS.string_of_Z stamp ++ "-" ++ suffix in
         checkin <- Date_now ;;
         let qr := qrData qrId visitor_name (f_mobile f) (f_host_employee f)
                          purpose (JS.toISOString checkin) in
         qrCodeDataURL <- QRCode_toDataURL (JS.stringify qr) ;;
         inserted <- query (Sql.insert_visitor false visitor_name
                              (JS.or_null (f_mobile f)) (JS.or_null (f_host_employee f))
                              host_email (Some purpose) (JS.or_null (f_photo_base64 f))
                              (Some (JS.stringify qr)) (Some (creator user))) ;;
         let visitorId := fst inserted in
         let checkinTime := snd inserted in
         _ <- notify (mkMail CheckinMail host_email visitor_name)
                     "Email generation error" ;;
         ret (json (CreatedBody visitorId qrCodeDataURL (Some checkinTime) (Some qrId))))
    (fun _ =>
       _ <- console_error "Visitor creation error" ;;
       ret (fail 500 "Failed to create visitor" "VISITOR_CREATION_ERROR")).

(** [PUT /api/visitors/:id/checkout], behind [authenticateToken]. *)
Definition checkOut (id_param : string) (user : Principal) : M Response :=
  try_catch
    (match JS.parseInt id_param with
     | None => ret (fail 400 "Invalid visitor ID" "INVALID_ID")
     | Some visitorId =>
         visitorResult <- query_if (int32 visitorId)
                            (fun _ w => (Sql.select_visitor visitorId w, w)) ;;
         match visitorResult with
         | [] => ret (fail 404 "Visitor not found" "VISITOR_NOT_FOUND")
         | visitor :: _ =>
             if String.eqb (status visitor) "checked_out" then
               ret (fail 400 "Visitor already checked out" "ALREADY_CHECKED_OUT")
             else
               rowsAffected <- query_if (int32 visitorId)
                                 (Sql.update_checkout_if_checked_in false visitorId) ;;
               if (rowsAffected =? 0)%nat then
                 ret (fail 404 "Visitor not found or already checked out"
                           "VISITOR_NOT_FOUND")
               else
                 checkoutTime <- Date_now ;;
                 sends <- checkout_mail_enabled ;;
                 _ <- (if JS.truthy (Some (host_email visitor)) && sends then
                         notify (mkMail CheckoutMail (host_email visitor)
                                        (visitor_name visitor))
                                "Checkout email generation error"
                       else ret tt) ;;
                 ret (json (CheckedOutBody (Some (JS.toISOString checkoutTime))))
         end
     end)
    (fun _ =>
       _ <- console_error "Checkout error" ;;
       ret (fail 500 "Failed to check out visitor" "CHECKOUT_ERROR")).

(** The text the listing handler starts its statement with. *)
Definition select_head : string := "
      SELECT 
        id, visitor_name, mobile, host_employee, host_email, purpose,
        checkin_time, checkout_time, status, created_by
      FROM vs_visitors
      WHERE 1=1
    ".

(** The text the handler asks [replace] to find in it. *)
Definition count_pattern : string := "SELECT id, visitor_name, mobile, host_employee, host_email, purpose, checkin_time, checkout_time, status, created_by".

Definition conds_of (q : ListQuery) : list Sql.Cond :=
  ((match q_date q with Some d => [Sql.DateIs d] | None => [] end)
   ++ (if JS.truthy (q_status q)
       then [Sql.StatusIs (JS.or_else (q_status q) EmptyString)] else [])
   ++ (if JS.truthy (q_host_email q)
       then [Sql.HostEmailIs (JS.or_else (q_host_email q) EmptyString)] else [])
   ++ (if JS.truthy (q_search q)
       then [Sql.Search3 ("%" ++ JS.or_else (q_search q) EmptyString ++ "%")]
       else []))%list.

(** [GET /api/visitors], behind [authenticateToken]. *)
Definition listVisitors (q : ListQuery) (user : Principal) : M Response :=
  try_catch
    (let pageNum := match q_page q with Some s => JS.parseInt s | None => Some 1 end in
     let limitNum := match q_limit q with Some s => JS.parseInt s | None => Some 50 end in
     let conds := conds_of q in
     let countQuery := JS.replace count_pattern Sql.count_select select_head in
     countResult <- query (fun _ w => (Sql.run_select countQuery conds None w, w)) ;;
     totalCount <- match countResult with
                   | [] => throw "TypeError"
                   | CountRow n :: _ => ret n
                   | VisitorRow _ :: _ => ret 0
                   end ;;
     match pageNum, limitNum with
     | Some p, Some l =>
         let offset := (p - 1) * l in
         result <- query_if (int32 offset && int32 l && Sql.page_ok offset l)
                     (fun _ w =>
                        (Sql.run_select select_head conds
                           (Some ("checkin_time", "DESC", offset, l)) w, w)) ;;
         ret (json (ListBody result p l totalCount (JS.ceil_div totalCount l)))
     | _, _ => rejected
     end)
    (fun _ =>
       _ <- console_error "List visitors error" ;;
       ret (fail 500 "Failed to fetch visitors" "FETCH_VISITORS_ERROR")).

End Server8.

(* ================================================================== *)
(** * The first iteration, [src/server1.js] lines 1-417 *)
(* ================================================================== *)

Module Server1.

Definition invalid_credentials : Response :=
  mkResponse 401 (ErrorBody "Invalid credentials" None).

Definition internal (msg : string) : Response :=
  mkResponse 500 (ErrorBody msg None).

(** [POST /api/login].  A missing [username] binds NULL and selects no row;
    [bcrypt.compare] rejects a missing password. *)
Definition login (username_ password_ : option string) : M Response :=
  try_catch
    (result <- query (fun _ w =>
                        (match username_ with
                         | Some u => Sql.select_user u w
                         | None => []
                         end, w)) ;;
     match result with
     | user :: _ =>
         ok <- match password_ with
               | Some pw => bcrypt_compare_ pw (password user)
               | None => throw "data and hash arguments required"
               end ;;
         if ok then ret (json (LoginBody (principal_of user) (principal_of user)))
         else ret invalid_credentials
     | [] => ret invalid_credentials
     end)
    (fun msg => ret (internal msg)).

Definition qrData1 (qrId : string) (f : VisitorForm) (checkin : string)
  : list (string * string) :=
  ([("id", qrId)]
   ++ (match f_visitor_name f with Some n => [("name", n)] | None => [] end)
   ++ [("mobile", JS.or_else (f_mobile f) EmptyString);
       ("host", JS.or_else (f_host_employee f) EmptyString);
       ("purpose", JS.or_else (f_purpose f) EmptyString);
       ("checkin", checkin); ("status", "checked_in")])%list.

(** [POST /api/visitors], behind [authenticateToken]. *)
Definition createVisitor (f : VisitorForm) (user : Principal) : M Response :=
  try_catch
    (stamp <- Date_now ;;
     checkin <- Date_now ;;
     let qr := qrData1 ("VIS-" ++ JS.string_of_Z stamp) f (JS.toISOString checkin) in
     qrCodeDataURL <- QRCode_toDataURL (JS.stringify qr) ;;
     inserted <- match f_visitor_name f, f_host_email f with
                 | Some name, Some mail =>
                     query (Sql.insert_visitor false name (f_mobile f)
                              (f_host_employee f) mail (f_purpose f)
                              (f_photo_base64 f) (Some (JS.stringify qr))
                              (Some (p_username user)))
                 | _, _ => rejected     (* NULL into a NOT NULL column *)
                 end ;;
     let visitorId := fst inserted in
     mailOptions <- build_mail (mkMail CheckinMail
                                  (JS.or_else (f_host_email f) EmptyString)
                                  (JS.or_else (f_visitor_name f) EmptyString)) ;;
     _ <- Date_now ;;
     _ <- match f_photo_base64 f with
          | Some _ => ret tt
          | None => throw "The first argument must be of type string"
          end ;;
     _ <- sendMail_await mailOptions ;;
     ret (json (CreatedBody visitorId qrCodeDataURL None None)))
    (fun msg =>
       _ <- console_error "Visitor creation error" ;;
       ret (internal msg)).

(** [PUT /api/visitors/:id/checkout], behind [authenticateToken]; [i] is
    the number the driver binds to [@id]. *)
Definition checkOut (i : Z) (user : Principal) : M Response :=
  try_catch
    (rowsAffected <- query_if (int32 i) (Sql.update_checkout i) ;;
     if (0 <? rowsAffected)%nat then ret (json (CheckedOutBody None))
     else ret (mkResponse 404 (ErrorBody "Visitor not found" None)))
    (fun msg => ret (internal msg)).

End Server1.

(* ================================================================== *)
(** * [src/unnamed/part_000] *)
(* ================================================================== *)

Module Part000.

Definition invalid_credentials : Response :=
  fail 401 "Invalid credentials" "INVALID_CREDENTIALS".

Definition invalid_id : Response := fail 400 "Invalid visitor ID" "INVALID_ID".

Definition not_found : Response := fail 404 "Visitor not found" "VISITOR_NOT_FOUND".

(** [logAudit]: the insert goes through the pool, outside any transaction,
    and its failure is only logged. *)
Definition logAudit (uid : Z) (action table : string) (rid : Z) : M unit :=
  try_catch (query (Sql.insert_audit uid action table rid))
            (fun _ => console_error "Audit logging failed").

(** [await transaction.rollback().catch(() => {})] *)
Definition rollback_quietly : M unit :=
  try_catch tx_rollback (fun _ => ret tt).

(** [requireRole(roles)] *)
Definition requireRole (roles : list string) (user : Principal)
    (next : M Response) : M Response :=
  if existsb (String.eqb (p_role user)) roles then next
  else ret (fail 403 "Insufficient permissions" "INSUFFICIENT_PERMISSIONS").

(** [POST /api/login] *)
Definition login (username_ password_ : option string) : M Response :=
  try_catch
    (if negb (JS.truthy username_) || negb (JS.truthy password_) then
       ret (fail 400 "Username and password are required" "MISSING_CREDENTIALS")
     else
       let u := JS.or_else username_ EmptyString in
       let pw := JS.or_else password_ EmptyString in
       result <- query (fun _ w => (Sql.select_active_user u w, w)) ;;
       match result with
       | [] =>
           _ <- bcrypt_compare_ pw dummy_hash ;;
           ret invalid_credentials
       | user :: _ =>
           passwordValid <- bcrypt_compare_ pw (password user) ;;
           if negb passwordValid then ret invalid_credentials
           else
             _ <- query (Sql.touch_last_login (user_id user)) ;;
             _ <- logAudit (user_id user) "LOGIN" "vs_users" (user_id user) ;;
             ret (json (LoginBody (principal_of user) (principal_of user)))
       end)
    (fun _ =>
       _ <- console_error "Login error" ;;
       ret (fail 500 "Internal server error" "INTERNAL_ERROR")).

(** The notification block of the check-in handler; its template reads
    the clock for the copyright year, the attachment name once more. *)
Definition notify_checkin (m : Mail) (photo : option string) : M unit :=
  try_catch
    (mailOptions <- build_mail m ;;
     _ <- Date_now ;;
     _ <- (if JS.truthy photo then Date_now else ret 0) ;;
     sendMail_detached mailOptions)
    (fun _ => console_error "Email generation error").

(** The notification block of the check-out handler. *)
Definition notify_checkout (m : Mail) : M unit :=
  try_catch
    (mailOptions <- build_mail m ;;
     _ <- Date_now ;;
     sendMail_detached mailOptions)
    (fun _ => console_error "Checkout email generation error").

(** [POST /api/visitors] *)
Definition createVisitor (f : VisitorForm) (user : option Principal) : M Response :=
  try_catch
    (if negb (JS.truthy (f_visitor_name f)) || negb (JS.truthy (f_host_email f))
        || negb (JS.truthy (f_purpose f)) then
       ret (fail 400 "Missing required fields: visitor_name, host_email, and purpose are required"
                 "MISSING_FIELDS")
     else
       let visitor_name := JS.or_else (f_visitor_name f) EmptyString in
       let host_email := JS.or_else (f_host_email f) EmptyString in
       let purpose := JS.or_else (f_purpose f) EmptyString in
       if negb (JS.test JS.emailRegex host_email) then
         ret (fail 400 "Invalid host email format" "INVALID_EMAIL")
       else if JS.truthy (f_mobile f)
               && negb (JS.test JS.mobileRegex (JS.or_else (f_mobile f) EmptyString)) then
         ret (fail 400 "Mobile number must be 10 digits" "INVALID_MOBILE")
       else
         _ <- tx_begin ;;
         stamp <- Date_now ;;
         suffix <- Math_random36 ;;
         let qrId := "VIS-" ++ JS.string_of_Z stamp ++ "-" ++ suffix in
         checkin <- Date_now ;;
         let qr := qrData qrId visitor_name (f_mobile f) (f_host_employee f)
                          purpose (JS.toISOString checkin) in
         qrCodeDataURL <- QRCode_toDataURL (JS.stringify qr) ;;
         inserted <- query (Sql.insert_visitor true visitor_name
                              (JS.or_null (f_mobile f)) (JS.or_null (f_host_employee f))
                              host_email (Some purpose) (JS.or_null (f_photo_base64 f))
                              (Some (JS.stringify qr)) (Some (creator user))) ;;
         let visitorId := fst inserted in
         let checkinTime := snd inserted in
         _ <- match user with
              | Some p => logAudit (p_id p) "CREATE_VISITOR" "vs_visitors" visitorId
              | None => ret tt
              end ;;
         _ <- tx_commit ;;
         _ <- notify_checkin (mkMail CheckinMail host_email visitor_name)
                             (f_photo_base64 f) ;;
         ret (json (CreatedBody visitorId qrCodeDataURL (Some checkinTime) (Some qrId))))
    (fun _ =>
       _ <- rollback_quietly ;;
       _ <- console_error "Visitor creation error" ;;
       ret (fail 500 "Failed to create visitor" "VISITOR_CREATION_ERROR")).

(** [parseInt(req.params.id)] followed by [isNaN(visitorId) || visitorId <= 0] *)
Definition visitor_id_of (id_param : string) : option Z :=
  match JS.parseInt id_param with
  | Some i => if i <=? 0 then None else Some i
  | None => None
  end.

(** [PUT /api/visitors/:id/checkout], behind [authenticateToken]. *)
Definition checkOut (id_param : string) (user : Principal) : M Response :=
  try_catch
    (match visitor_id_of id_param with
     | None => ret invalid_id
     | Some visitorId =>
         _ <- tx_begin ;;
         visitorResult <- query_if (int32 visitorId)
                            (fun _ w => (Sql.select_visitor visitorId w, w)) ;;
         match visitorResult with
         | [] => _ <- tx_rollback ;; ret not_found
         | visitor :: _ =>
             if String.eqb (status visitor) "checked_out" then
               _ <- tx_rollback ;;
               ret (fail 400 "Visitor already checked out" "ALREADY_CHECKED_OUT")
             else
               rowsAffected <- query_if (int32 visitorId)
                                 (Sql.update_checkout_if_checked_in true visitorId) ;;
               if (rowsAffected =? 0)%nat then
                 _ <- tx_rollback ;;
                 ret (fail 404 "Visitor not found or already checked out"
                           "VISITOR_NOT_FOUND")
               else
                 _ <- Date_now ;;
                 _ <- logAudit (p_id user) "CHECKOUT_VISITOR" "vs_visitors" visitorId ;;
                 _ <- tx_commit ;;
                 sends <- checkout_mail_enabled ;;
                 _ <- (if JS.truthy (Some (host_email visitor)) && sends then
                         notify_checkout (mkMail CheckoutMail (host_email visitor)
                                                 (visitor_name visitor))
                       else ret tt) ;;
                 responseTime <- Date_now ;;
                 ret (json (CheckedOutBody (Some (JS.toISOString responseTime))))
         end
     end)
    (fun _ =>
       _ <- rollback_quietly ;;
       _ <- console_error "Checkout error" ;;
       ret (fail 500 "Failed to check out visitor" "CHECKOUT_ERROR")).

Definition validSortColumns : list string :=
  ["checkin_time"; "checkout_time"; "visitor_name"; "host_employee";
   "host_email"; "status"].

Definition conds_of (q : ListQuery) : list Sql.Cond :=
  ((match q_date q with Some d => [Sql.DateIs d] | None => [] end)
   ++ (if JS.truthy (q_status q)
       then [Sql.StatusIs (JS.or_else (q_status q) EmptyString)] else [])
   ++ (if JS.truthy (q_host_email q)
       then [Sql.HostEmailIs (JS.or_else (q_host_email q) EmptyString)] else [])
   ++ (if JS.truthy (q_host_employee q)
       then [Sql.HostEmployeeLike
               ("%" ++ JS.or_else (q_host_employee q) EmptyString ++ "%")]
       else [])
   ++ (if JS.truthy (q_search q)
       then [Sql.Search5 ("%" ++ JS.or_else (q_search q) EmptyString ++ "%")]
       else []))%list.

(** [GET /api/visitors], behind [authenticateToken]. *)
Definition listVisitors (q : ListQuery) (user : Principal) : M Response :=
  try_catch
    (let pageNum :=
       match q_page q with
       | Some s => option_map (Z.max 1) (JS.parseInt s)
       | None => Some 1
       end in
     let limitNum :=
       match q_limit q with
       | Some s => option_map (fun l => Z.min 100 (Z.max 1 l)) (JS.parseInt s)
       | None => Some 50
       end in
     let sortBy := match q_sortBy q with Some c => c | None => "checkin_time" end in
     let sortColumn :=
       if existsb (String.eqb sortBy) validSortColumns then sortBy
       else "checkin_time" in
     let sortOrder := match q_sortOrder q with Some o => o | None => "DESC" end in
     let order := if String.eqb (JS.toUpperCase sortOrder) "ASC" then "ASC" else "DESC" in
     match pageNum, limitNum with
     | Some p, Some l =>
         let offset := (p - 1) * l in
         result <- query_if (int32 offset && int32 l && Sql.page_ok offset l)
                     (fun _ w =>
                        (Sql.select_page_counted (conds_of q) sortColumn order
                           offset l w, w)) ;;
         let totalCount := match result with
                           | (_, n) :: _ => n
                           | [] => 0
                           end in
         let visitors := map (fun row => VisitorRow (fst row)) result in
         ret (json (ListBody visitors p l totalCount (JS.ceil_div totalCount l)))
     | _, _ => rejected
     end)
    (fun _ =>
       _ <- console_error "List visitors error" ;;
       ret (fail 500 "Failed to fetch visitors" "FETCH_VISITORS_ERROR")).

(** [GET /api/visitors/:id], behind [authenticateToken]. *)
Definition getVisitor (id_param : string) (user : Principal) : M Response :=
  try_catch
    (match visitor_id_of id_param with
     | None => ret invalid_id
     | Some visitorId =>
         result <- query_if (int32 visitorId)
                     (fun _ w => (Sql.select_visitor visitorId w, w)) ;;
         match result with
         | [] => ret not_found
         | visitor :: _ => ret (json (VisitorBody visitor))
         end
     end)
    (fun _ =>
       _ <- console_error "Get visitor error" ;;
       ret (fail 500 "Failed to fetch visitor" "FETCH_VISITOR_ERROR")).

(** [PUT /api/visitors/:id], behind [authenticateToken] and
    [requireRole(['admin', 'reception'])]. *)
Definition updateVisitor (id_param : string) (f : VisitorForm) (user : Principal)
  : M Response :=
  requireRole ["admin"; "reception"] user
    (try_catch
       (match visitor_id_of id_param with
        | None => ret invalid_id
        | Some visitorId =>
            _ <- tx_begin ;;
            oldResult <- query_if (int32 visitorId)
                           (fun _ w => (Sql.select_visitor visitorId w, w)) ;;
            match oldResult with
            | [] => _ <- tx_rollback ;; ret not_found
            | oldData :: _ =>
                let pick (v old : option string) :=
                  if JS.truthy v then v else old in
                rowsAffected <-
                  query_if (int32 visitorId)
                    (Sql.update_visitor visitorId
                       (JS.or_else (f_visitor_name f) (visitor_name oldData))
                       (pick (f_mobile f) (mobile oldData))
                       (pick (f_host_employee f) (host_employee oldData))
                       (JS.or_else (f_host_email f) (host_email oldData))
                       (pick (f_purpose f) (purpose oldData))) ;;
                if (rowsAffected =? 0)%nat then
                  _ <- tx_rollback ;; ret not_found
                else
                  _ <- logAudit (p_id user) "UPDATE_VISITOR" "vs_visitors" visitorId ;;
                  _ <- tx_commit ;;
                  ret (json (UpdatedBody visitorId))
            end
        end)
       (fun _ =>
          _ <- rollback_quietly ;;
          _ <- console_error "Update visitor error" ;;
          ret (fail 500 "Failed to update visitor" "UPDATE_VISITOR_ERROR"))).

(** The statistics, export, photo, health and diagnostics endpoints issue
    [SELECT] statements only; what they answer plays no part below. *)
Fixpoint selects (n : nat) : M unit :=
  match n with
  | O => ret tt
  | S n' => _ <- query (fun _ w => (tt, w)) ;; selects n'
  end.

Definition report (statements : nat) : M Response :=
  try_catch (_ <- selects statements ;; ret (json OpaqueBody))
            (fun _ => ret (fail 500 "Internal server error" "INTERNAL_ERROR")).

(** The requests the server answers. *)
Inductive Request : Type :=
| Login (username_ password_ : option string)
| CreateVisitor (f : VisitorForm) (user : option Principal)
| CheckOut (id_param : string) (user : Principal)
| ListVisitors (q : ListQuery) (user : Principal)
| GetVisitor (id_param : string) (user : Principal)
| UpdateVisitor (id_param : string) (f : VisitorForm) (user : Principal)
| Report (statements : nat).

Definition handle (r : Request) : M Response :=
  match r with
  | Login u p => login u p
  | CreateVisitor f user => createVisitor f user
  | CheckOut i user => checkOut i user
  | ListVisitors q user => listVisitors q user
  | GetVisitor i user => getVisitor i user
  | UpdateVisitor i f user => updateVisitor i f user
  | Report n => report n
  end.

End Part000.

(* ================================================================== *)
(** * Further parts of [src/server8.js] *)
(* ================================================================== *)

Module Server8Util.

(** [hours > 1 ? 's' : ''] *)
Definition plural (n : Z) : string := if 1 <? n then "s" else EmptyString.

(** [Math.floor(durationMs / (1000 * 60 * 60))] *)
Definition duration_hours (durationMs : Z) : Z := durationMs / (1000 * 60 * 60).

(** [Math.floor((durationMs % (1000 * 60 * 60)) / (1000 * 60))]; the
    remainder of JavaScript takes the sign of the dividend. *)
Definition duration_minutes (durationMs : Z) : Z :=
  Z.rem durationMs (1000 * 60 * 60) / (1000 * 60).

(** [calculateVisitDuration(checkinTime, checkoutTime)] on time values. *)
Definition calculateVisitDuration (checkinTime checkoutTime : Z) : string :=
  let durationMs := checkoutTime - checkinTime in
  let hours := duration_hours durationMs in
  let minutes := duration_minutes durationMs in
  if 0 <? hours then
    JS.string_of_Z hours ++ " hour" ++ plural hours ++ " "
      ++ JS.string_of_Z minutes ++ " minute" ++ plural minutes
  else JS.string_of_Z minutes ++ " minute" ++ plural minutes.

(** [s.split(sep)] for a one-character separator. *)
Fixpoint split (sep : ascii) (s : string) : list string :=
  match s with
  | EmptyString => [EmptyString]
  | String c s' =>
      if Ascii.eqb c sep then EmptyString :: split sep s'
      else match split sep s' with
           | h :: t => String c h :: t
           | [] => [String c EmptyString]
           end
  end.

(** What [jwt.verify] makes of a token. *)
Inductive Verified : Type :=
| Decoded (p : Principal)
| TokenExpiredError
| JsonWebTokenError.

(** What a middleware does: pass the request on, or answer it. *)
Inductive Gate (A : Type) : Type :=
| Next (a : A)
| Answered (r : Response).
Arguments Next {A} a.
Arguments Answered {A} r.

(** [authenticateToken]: [authorization] is the header, [verify] is
    [jwt.verify(token, JWT_SECRET)]. *)
Definition authenticateToken (verify : string -> Verified)
    (authorization : option string) : Gate Principal :=
  let token :=
    if JS.truthy authorization
    then nth_error (split " " (JS.or_else authorization EmptyString)) 1
    else None in
  if negb (JS.truthy token) then
    Answered (fail 401 "Access denied - No token provided" "NO_TOKEN")
  else
    match verify (JS.or_else token EmptyString) with
    | Decoded p => Next p
    | TokenExpiredError => Answered (fail 401 "Token expired" "TOKEN_EXPIRED")
    | JsonWebTokenError => Answered (fail 403 "Invalid token" "INVALID_TOKEN")
    end.

(** [GET /api/visitors/:id], behind [authenticateToken]: the handler first
    asks the catalogue which optional columns exist, then selects the row. *)
Definition getVisitor (id_param : string) (user : Principal) : M Response :=
  try_catch
    (match JS.parseInt id_param with
     | None => ret (fail 400 "Invalid visitor ID" "INVALID_ID")
     | Some visitorId =>
         _ <- query_if (int32 visitorId) (fun _ w => (tt, w)) ;;
         result <- query_if (int32 visitorId)
                     (fun _ w => (Sql.select_visitor visitorId w, w)) ;;
         match result with
         | [] => ret (fail 404 "Visitor not found" "VISITOR_NOT_FOUND")
         | visitor :: _ => ret (json (VisitorBody visitor))
         end
     end)
    (fun _ =>
       _ <- console_error "Get visitor error" ;;
       ret (fail 500 "Failed to fetch visitor" "FETCH_VISITOR_ERROR")).

(** *** The CSV text of the export *)

(** The global replacement of every double quote by two of them. *)
Fixpoint double_quotes (s : string) : string :=
  match s with
  | EmptyString => EmptyString
  | String c s' =>
      if Ascii.eqb c JS.dquote
      then String JS.dquote (String JS.dquote (double_quotes s'))
      else String c (double_quotes s')
  end.

(** A quoted field: the value, or the empty string for NULL, between
    double quotes with the inner ones doubled. *)
Definition quoted (v : option string) : string :=
  String JS.dquote (double_quotes (JS.or_else v EmptyString)
                    ++ String JS.dquote EmptyString).

(** [row.join(sep)] *)
Fixpoint join (sep : string) (l : list string) : string :=
  match l with
  | [] => EmptyString
  | [x] => x
  | x :: l' => x ++ sep ++ join sep l'
  end.

Definition headers : list string :=
  ["ID"; "Name"; "Mobile"; "Host"; "Email"; "Purpose"; "Check-in";
   "Check-out"; "Status"; "Created By"].

(** One row of the export: name, host and purpose are quoted, the other
    fields are written as they are. *)
Definition csvRow (v : Visitor) : list string :=
  [JS.string_of_Z (id v);
   quoted (Some (visitor_name v));
   JS.or_else (mobile v) EmptyString;
   quoted (host_employee v);
   JS.or_else (Some (host_email v)) EmptyString;
   quoted (purpose v);
   JS.toISOString (checkin_time v);
   match checkout_time v with
   | Some t => JS.toISOString t
   | None => EmptyString
   end;
   JS.or_else (Some (status v)) EmptyString;
   JS.or_else (created_by v) EmptyString].

Definition newline : string := String (ascii_of_nat 10) EmptyString.

(** [csvRows.map(row => row.join(',')).join('\n')] *)
Definition csv (visitors : list Visitor) : string :=
  join newline (map (join ",") (headers :: map csvRow visitors)).

End Server8Util.

(** ** Start-up: [connectWithRetry] *)

Module Startup.

Import QArith Qminmax.
Local Open Scope Q_scope.

(** How [connectWithRetry] ends: with the pool of the attempt that
    connected, by throwing after the last attempt, or (the loop never
    entered) by returning [undefined].  [waited] lists the delays slept. *)
Inductive Outcome : Type :=
| Connected (attempt : nat) (waited : list Q)
| Thrown (waited : list Q)
| Undefined (waited : list Q).

(** [Math.min(delay * 1.5, 30000)] *)
Definition backoff (delay : Q) : Q := Qmin (delay * (3 # 2)) (30000 # 1).

(** The [for] loop from [attempt] on; [left] iterations remain before
    [attempt <= maxRetries] fails.  [connects k] tells whether attempt [k]
    connects and passes the test query. *)
Fixpoint retry_loop (connects : nat -> bool) (maxRetries : nat) (left : nat)
    (attempt : nat) (delay : Q) (waited : list Q) : Outcome :=
  match left with
  | O => Undefined waited
  | S left' =>
      if connects attempt then Connected attempt waited
      else if Nat.eqb attempt maxRetries then Thrown waited
      else retry_loop connects maxRetries left' (S attempt) (backoff delay)
                      (waited ++ [delay])
  end.

(** [connectWithRetry(maxRetries = 5, initialDelay = 5000)] *)
Definition connectWithRetry (connects : nat -> bool) (maxRetries : nat)
    (initialDelay : Q) : Outcome :=
  retry_loop connects maxRetries maxRetries 1%nat initialDelay [].

End Startup.

(* ================================================================== *)
(** * Further parts of [src/unnamed/part_000]: the rate limiter *)
(* ================================================================== *)

Module RateLimit.

(** A value of [rateLimitStore]. *)
Record Entry : Type := mkEntry {
  count : Z;
  startTime : Z
}.

(** [rateLimitStore], a [Map] keyed by caller address. *)
Definition Store : Type := string -> option Entry.

Definition empty : Store := fun _ => None.

Definition set (ip : string) (d : Entry) (st : Store) : Store :=
  fun k => if String.eqb k ip then Some d else st k.

(** The periodic clean-up: every entry whose window is over is deleted. *)
Definition sweep (now windowMs : Z) (st : Store) : Store :=
  fun k =>
    match st k with
    | Some d => if windowMs <? now - startTime d then None else Some d
    | None => None
    end.

Inductive Verdict : Type :=
| Passed
| TooManyRequests (retryAfter : Z).

(** [rateLimit(maxRequests, windowMs)] applied to a request from [ip] at
    time [now]; [lucky] is [Math.random() < 0.01], drawn only when the
    request is passed on. *)
Definition rateLimit (maxRequests windowMs : Z) (ip : string) (now : Z)
    (lucky : bool) (st : Store) : Verdict * Store :=
  let cleanup s := if lucky then sweep now windowMs s else s in
  match st ip with
  | None => (Passed, cleanup (set ip (mkEntry 1 now) st))
  | Some data =>
      if windowMs <? now - startTime data
      then (Passed, cleanup (set ip (mkEntry 1 now) st))
      else
        let data' := mkEntry (count data + 1) (startTime data) in
        if maxRequests <? count data'
        then (TooManyRequests
                (JS.ceil_div (startTime data + windowMs - now) 1000),
              set ip data' st)
        else (Passed, cleanup (set ip data' st))
  end.

(** A request as the limiter sees it. *)
Record Hit : Type := mkHit {
  hit_ip : string;
  hit_time : Z;
  hit_lucky : bool
}.

(** The limiter over a run of requests: the verdicts, in order, and the
    store at the end. *)
Fixpoint run (maxRequests windowMs : Z) (hits : list Hit) (st : Store)
  : list (string * Verdict) * Store :=
  match hits with
  | [] => ([], st)
  | h :: hits' =>
      let '(v, st1) := rateLimit maxRequests windowMs (hit_ip h) (hit_time h)
                                 (hit_lucky h) st in
      let '(vs, st2) := run maxRequests windowMs hits' st1 in
      ((hit_ip h, v) :: vs, st2)
  end.

End RateLimit.

(* ================================================================== *)
(** * Further parts of the first iteration ([src/server1.js]) *)
(* ================================================================== *)

Module Server1Util.

(** [GET /api/visitors], behind [authenticateToken]: a reception user is
    shown the rows of their own making only; the first hundred rows, the
    latest first. *)
Definition listVisitors (date : option Z) (status_ : option string)
    (user : Principal) : M (list Visitor + Response) :=
  try_catch
    (let conds :=
       ((match date with Some d => [Sql.DateIs d] | None => [] end)
        ++ (if JS.truthy status_
            then [Sql.StatusIs (JS.or_else status_ EmptyString)] else []))%list in
     let mine (r : Visitor) :=
       if String.eqb (p_role user) "reception"
       then match created_by r with
            | Some c => String.eqb c (p_username user)
            | None => false
            end
       else true in
     rows <- query (fun _ w =>
                      (Sql.window 0 100
                         (Sql.order_by (Sql.precedes "checkin_time" "DESC")
                            (filter (fun r => Sql.where_ conds r && mine r)
                                    (vs_visitors w))), w)) ;;
     ret (inl rows))
    (fun msg => ret (inr (Server1.internal msg))).

End Server1Util.

(* ================================================================== *)
(** * Vocabulary of the statements *)
(* ================================================================== *)

(** [w'] differs from [w] in the counters of the process and in its event
    log at most: no statement ran, no table changed. *)
Definition same_tables (w w' : World) : Prop :=
  vs_visitors w' = vs_visitors w /\ vs_users w' = vs_users w
  /\ vs_audit_log w' = vs_audit_log w
  /\ visitors_identity w' = visitors_identity w
  /\ tx w' = tx w /\ n_db w' = n_db w.

(** The check-in validation of [Server8.createVisitor]. *)
Definition valid_checkin (f : VisitorForm) : bool :=
  JS.truthy (f_visitor_name f) && JS.truthy (f_host_email f)
  && JS.truthy (f_purpose f)
  && JS.test JS.emailRegex (JS.or_else (f_host_email f) EmptyString).

(** The text the QR pass of [f] encodes when the clock read [stamp], then
    [checkin], and the random suffix was [suffix]. *)
Definition qr_text (f : VisitorForm) (stamp : Z) (suffix : string) (checkin : Z)
  : string :=
  JS.stringify
    (qrData ("VIS-" ++ JS.string_of_Z stamp ++ "-" ++ suffix)
            (JS.or_else (f_visitor_name f) EmptyString)
            (f_mobile f) (f_host_employee f)
            (JS.or_else (f_purpose f) EmptyString)
            (JS.toISOString checkin)).

(** The object a row's [qr_code_data] parses to. *)
Definition stored_payload (row : Visitor) : option (list (string * string)) :=
  match qr_code_data row with
  | Some text => JS.parse text
  | None => None
  end.

(** The round trip as the specification words it, for one check-in: the
    payload stored with the record names the pass id, the name and the
    check-in time of the answer. *)
Definition qr_reproduces_answer (e : Env) (w : World) (f : VisitorForm)
    (u : option Principal) : Prop :=
  forall i url t qid w',
    Server8.createVisitor f u e w =
      (Ok (json (CreatedBody i url (Some t) (Some qid))), w') ->
    exists row o,
      In row (vs_visitors w') /\ id row = i
      /\ stored_payload row = Some o
      /\ JS.get "id" o = Some qid
      /\ JS.get "name" o = f_visitor_name f
      /\ JS.get "checkin" o = Some (JS.toISOString t).

Definition account_disabled : Response :=
  fail 403 "Account is disabled" "ACCOUNT_DISABLED".

(** A disabled account is told so, as the specification words it, for a
    login handler [login]. *)
Definition disabled_is_reported (login : option string -> option string -> M Response)
    (e : Env) (w : World) (u pw : string) : Prop :=
  forall user,
    In user (vs_users w) ->
    username user = u \/ email user = u ->
    is_active user = Some false ->
    fst (login (Some u) (Some pw) e w) = Ok account_disabled.

(** The rows an update of the check-out handlers is conditioned on. *)
Definition checked_in_hit (i : Z) (r : Visitor) : bool :=
  (id r =? i) && String.eqb (status r) "checked_in".

(** The answer of [Server8.checkOut], read off the tables and the oracles:
    neither the engine's clock nor the mail oracles occur in it. *)
Definition checkOut_answer (e : Env) (w : World) (id_param : string) : Response :=
  match JS.parseInt id_param with
  | None => fail 400 "Invalid visitor ID" "INVALID_ID"
  | Some i =>
      if negb (int32 i) || db_fault e (n_db w)
      then fail 500 "Failed to check out visitor" "CHECKOUT_ERROR"
      else
        match Sql.select_visitor i w with
        | [] => fail 404 "Visitor not found" "VISITOR_NOT_FOUND"
        | v :: _ =>
            if String.eqb (status v) "checked_out"
            then fail 400 "Visitor already checked out" "ALREADY_CHECKED_OUT"
            else if db_fault e (S (n_db w))
            then fail 500 "Failed to check out visitor" "CHECKOUT_ERROR"
            else if existsb (checked_in_hit i) (vs_visitors w)
            then json (CheckedOutBody (Some (JS.toISOString (app_clock e (n_app w)))))
            else fail 404 "Visitor not found or already checked out" "VISITOR_NOT_FOUND"
        end
  end.

(** The rows of [vs_visitors] after [Server8.checkOut]. *)
Definition checkOut_rows (e : Env) (w : World) (id_param : string) : list Visitor :=
  match JS.parseInt id_param with
  | None => vs_visitors w
  | Some i =>
      if negb (int32 i) || db_fault e (n_db w) then vs_visitors w
      else
        match Sql.select_visitor i w with
        | [] => vs_visitors w
        | v :: _ =>
            if String.eqb (status v) "checked_out" || db_fault e (S (n_db w))
            then vs_visitors w
            else map (fun r => if checked_in_hit i r
                               then Sql.check_out_row (db_clock e (S (n_db w))) false r
                               else r) (vs_visitors w)
        end
  end.

(** The environment [e] with another engine clock. *)
Definition with_db_clock (c : nat -> Z) (e : Env) : Env :=
  mkEnv (app_clock e) c (db_fault e) (random36 e) (bcrypt_compare e)
        (qr_toDataURL e) (html_fault e) (smtp_accepts e) (send_checkout_emails e).

(** ** What may happen to a stored row *)

(** The columns no statement of [Part000] writes after the insert. *)
Definition same_record (r r' : Visitor) : Prop :=
  id r' = id r /\ qr_code_data r' = qr_code_data r
  /\ checkin_time r' = checkin_time r /\ created_by r' = created_by r
  /\ created_at r' = created_at r /\ photo_base64 r' = photo_base64 r.

Definition same_state (r r' : Visitor) : Prop :=
  status r' = status r /\ checkout_time r' = checkout_time r.

Definition same_details (r r' : Visitor) : Prop :=
  visitor_name r' = visitor_name r /\ mobile r' = mobile r
  /\ host_employee r' = host_employee r /\ host_email r' = host_email r
  /\ purpose r' = purpose r.

(** [T'] holds every row of [T], in place and related by [P], and then
    maybe new rows: nothing was deleted. *)
Definition keeps (P : Visitor -> Visitor -> Prop) (T T' : list Visitor) : Prop :=
  exists rows extra, T' = (rows ++ extra)%list /\ Forall2 P T rows.

(** A row across a check-out: untouched, or moved from [checked_in] to
    [checked_out] with a check-out time. *)
Definition checked_out_step (r r' : Visitor) : Prop :=
  same_record r r' /\ same_details r r'
  /\ (r' = r \/ (status r = "checked_in" /\ status r' = "checked_out"
                 /\ checkout_time r' <> None)).

(** A row across an update: its state stays. *)
Definition edited_step (r r' : Visitor) : Prop :=
  same_record r r' /\ same_state r r'.

(** What a request of [Part000] may do to a stored row. *)
Definition allowed (req : Part000.Request) : Visitor -> Visitor -> Prop :=
  match req with
  | Part000.CheckOut _ _ => checked_out_step
  | Part000.UpdateVisitor _ _ _ => edited_step
  | _ => eq
  end.

(** The tables keep to [P] since they were [T0], and so does what a
    rollback of the open transaction would restore. *)
Definition Inv (P : Visitor -> Visitor -> Prop) (T0 : list Visitor) (w : World) : Prop :=
  keeps P T0 (vs_visitors w)
  /\ (forall snap, tx w = Some snap -> keeps P T0 snap).

Definition preserves (P : Visitor -> Visitor -> Prop) {A} (m : M A) : Prop :=
  forall T0 e w, Inv P T0 w -> Inv P T0 (snd (m e w)).

(** The mutation rule as the specification words it, for one request:
    unless it is a check-out, it leaves every stored row as it was. *)
Definition only_checkout_mutates (req : Part000.Request) (e : Env) (w : World) : Prop :=
  (forall i u, req <> Part000.CheckOut i u) ->
  keeps eq (vs_visitors w) (vs_visitors (snd (Part000.handle req e w))).

(** Requests answered one after the other. *)
Fixpoint serve (reqs : list Part000.Request) (e : Env) (w : World) : World :=
  match reqs with
  | [] => w
  | r :: reqs' => serve reqs' e (snd (Part000.handle r e w))
  end.

(** The status code of an answer. *)
Definition http_status_of (r : Result Response) : option Z :=
  match r with
  | Ok resp => Some (http_status resp)
  | Throw _ => None
  end.

(** What a check-out of the visitor [i] at the engine's time [t] makes of
    a stored row [r]: a checked-in row of this visitor is [checked_out] and
    carries [t] as its check-out time, its other recorded columns
    unchanged; any other row is as it was. *)
Definition checked_out_at (i : Z) (t : Z) (r r' : Visitor) : Prop :=
  if checked_in_hit i r
  then status r' = "checked_out" /\ checkout_time r' = Some t
       /\ same_record r r' /\ same_details r r'
  else r' = r.

(** The update of the request, the engine's statement number [k], was
    accepted and found a checked-in row of the visitor [target]. *)
Definition update_went_through (e : Env) (w : World) (target : option Z) (k : nat)
  : Prop :=
  db_fault e k = false
  /\ exists i, target = Some i /\ existsb (checked_in_hit i) (vs_visitors w) = true.

(** ** A concrete office *)

(** The process clock starts at 1000 ms, the engine's at 5000 ms; nothing
    fails; a hash matches the password it names. *)
Definition env0 : Env :=
  mkEnv (fun n => 1000 + Z.of_nat n)
        (fun n => 5000 + Z.of_nat n)
        (fun _ => false)
        (fun _ => "k3x9q2m1z")
        (fun pw hash => String.eqb hash ("hash:" ++ pw))
        (fun text => Some ("data:image/png;base64," ++ text))
        (fun _ => false)
        (fun _ => true)
        false.

(** The same office with the mail server refusing every message. *)
Definition env_smtp_down : Env :=
  mkEnv (app_clock env0) (db_clock env0) (db_fault env0) (random36 env0)
        (bcrypt_compare env0) (qr_toDataURL env0) (html_fault env0)
        (fun _ => false) (send_checkout_emails env0).

Definition alice : User :=
  mkUser 1 "alice" "alice@seeds.example" "hash:correct horse" "admin" (Some true) None.

(** A disabled account. *)
Definition bob : User :=
  mkUser 2 "bob" "bob@seeds.example" "hash:hunter2" "reception" (Some false) None.

Definition world0 : World :=
  mkWorld [] [alice; bob] [] 0 None 0 0 0 0 [].

Definition reception : Principal := mkPrincipal 1 "alice" "admin".

Definition jane : VisitorForm :=
  mkForm (Some "Jane Doe") None None (Some "host@x.com") (Some "Meeting") None.

Definition jane_with_photo : VisitorForm :=
  mkForm (Some "Jane Doe") None None (Some "host@x.com") (Some "Meeting")
         (Some "aGVsbG8=").

(** Jane, checked in through [Server8.createVisitor] at [world0]. *)
Definition jane_row : Visitor :=
  mkVisitor 1 "Jane Doe" None None "host@x.com" (Some "Meeting") None
            (Some (qr_text jane 1000 "k3x9q2m1z" 1001))
            5000 None "checked_in" (Some "system") 5000 None.

(** The office after Jane's check-in. *)
Definition world1 : World :=
  mkWorld [jane_row] [alice; bob] [] 1 None 0 0 0 0 [].

Definition no_filter : ListQuery :=
  mkListQuery None None None None None None None None None.

Definition second_page : ListQuery :=
  mkListQuery None None None None None (Some "2") None None None.

(** Jane with a nine-digit and with a lettered mobile number. *)
Definition jane_nine_digits : VisitorForm :=
  mkForm (Some "Jane Doe") (Some "123456789") None (Some "host@x.com")
         (Some "Meeting") None.

Definition jane_lettered : VisitorForm :=
  mkForm (Some "Jane Doe") (Some "98765abcde") None (Some "host@x.com")
         (Some "Meeting") None.

(** A change of name only. *)
Definition rename_to_eve : VisitorForm :=
  mkForm (Some "Eve") None None None None None.

(** ** Reading the export back

    A reader of comma-separated text after RFC 4180, to state what the
    export of [Server8Util.csv] can be read back to: fields end at a comma,
    records at a line break (LF or CR LF); a field in double quotes may hold
    commas, line breaks and doubled quotes; a bare field may hold no double
    quote. *)

Module Csv.

Import Server8Util.

(** Line feed and carriage return. *)
Definition LF : ascii := Eval cbv in ascii_of_nat 10.
Definition CR : ascii := Eval cbv in ascii_of_nat 13.

(** A line break character. *)
Definition is_break (c : ascii) : bool := Ascii.eqb c LF || Ascii.eqb c CR.

(** A quoted field after its opening quote: up to the closing quote, a
    doubled quote standing for one; commas and line breaks belong to the
    field. *)
Fixpoint read_quoted (s : string) : option (string * string) :=
  match s with
  | EmptyString => None
  | String c rest =>
      if Ascii.eqb c JS.dquote then
        match rest with
        | String c2 rest2 =>
            if Ascii.eqb c2 JS.dquote then JS.cons_to JS.dquote (read_quoted rest2)
            else Some (EmptyString, rest)
        | EmptyString => Some (EmptyString, EmptyString)
        end
      else JS.cons_to c (read_quoted rest)
  end.

(** An unquoted field: up to the next comma or line break; a double quote
    inside it is an error. *)
Fixpoint read_raw (s : string) : option (string * string) :=
  match s with
  | EmptyString => Some (EmptyString, EmptyString)
  | String c rest =>
      if Ascii.eqb c "," || is_break c then Some (EmptyString, s)
      else if Ascii.eqb c JS.dquote then None
      else JS.cons_to c (read_raw rest)
  end.

Definition read_field (s : string) : option (string * string) :=
  match s with
  | String c rest => if Ascii.eqb c JS.dquote then read_quoted rest else read_raw s
  | EmptyString => Some (EmptyString, EmptyString)
  end.

(** The fields of one record, and what follows its line break ([None] at
    the end of the text).  A record ends at LF, at CR LF or at the end of
    the text; anything else after a field is an error. *)
Fixpoint read_record (fuel : nat) (s : string)
  : option (list string * option string) :=
  match fuel with
  | O => None
  | S fuel' =>
      match read_field s with
      | None => None
      | Some (v, rest) =>
          match rest with
          | EmptyString => Some ([v], None)
          | String c rest' =>
              if Ascii.eqb c "," then
                match read_record fuel' rest' with
                | Some (vs, next) => Some (v :: vs, next)
                | None => None
                end
              else if Ascii.eqb c LF then Some ([v], Some rest')
              else if Ascii.eqb c CR then
                match rest' with
                | String c2 rest2 =>
                    if Ascii.eqb c2 LF then Some ([v], Some rest2) else None
                | EmptyString => None
                end
              else None
          end
      end
  end.

(** The records of a text; a line break at the very end opens no record. *)
Fixpoint read_records (fuel : nat) (s : string) : option (list (list string)) :=
  match fuel with
  | O => None
  | S fuel' =>
      match read_record (S (String.length s)) s with
      | None => None
      | Some (fields, None) => Some [fields]
      | Some (fields, Some EmptyString) => Some [fields]
      | Some (fields, Some rest) =>
          match read_records fuel' rest with
          | Some records => Some (fields :: records)
          | None => None
          end
      end
  end.

(** Reading a CSV text. *)
Definition read (s : string) : option (list (list string)) :=
  read_records (S (String.length s)) s.

(** Neither a comma, a double quote nor a line break. *)
Definition plain_char (c : ascii) : bool :=
  negb (Ascii.eqb c ",") && negb (Ascii.eqb c JS.dquote) && negb (is_break c).

Fixpoint plain (s : string) : bool :=
  match s with
  | EmptyString => true
  | String c s' => plain_char c && plain s'
  end.

(** A field as [csvRow] writes it. *)
Inductive Field : Type :=
| Quoted (s : string)
| Raw (s : string).

Definition render (f : Field) : string :=
  match f with
  | Quoted s => quoted (Some s)
  | Raw s => s
  end.

Definition value (f : Field) : string :=
  match f with
  | Quoted s => s
  | Raw s => s
  end.

Definition well_formed (f : Field) : bool :=
  match f with
  | Quoted _ => true
  | Raw s => plain s
  end.

(** The fields of [csvRow v] and how each is written. *)
Definition row_fields (v : Visitor) : list Field :=
  [Raw (JS.string_of_Z (id v));
   Quoted (visitor_name v);
   Raw (JS.or_else (mobile v) EmptyString);
   Quoted (JS.or_else (host_employee v) EmptyString);
   Raw (host_email v);
   Quoted (JS.or_else (purpose v) EmptyString);
   Raw (JS.toISOString (checkin_time v));
   Raw (match checkout_time v with
        | Some t => JS.toISOString t
        | None => EmptyString
        end);
   Raw (status v);
   Raw (JS.or_else (created_by v) EmptyString)].

(** The values of the row of [v]. *)
Definition row_values (v : Visitor) : list string := map value (row_fields v).

(** The columns the export writes without quotes, as far as they are free
    text, hold neither a comma, a double quote nor a line break. *)
Definition exportable (v : Visitor) : bool :=
  plain (JS.or_else (mobile v) EmptyString) && plain (host_email v)
  && plain (status v) && plain (JS.or_else (created_by v) EmptyString).

(** What may follow a field: nothing, a comma or a line feed. *)
Definition field_end (s : string) : Prop :=
  s = EmptyString \/ exists c r, s = String c r /\ (c = ","%char \/ c = LF).

(** What follows the record when [tail] follows its last field. *)
Definition after_line (tail : string) : option string :=
  match tail with
  | EmptyString => None
  | String _ rest => Some rest
  end.

(** A line of the export. *)
Definition line (fields : list Field) : string := join "," (map render fields).

End Csv.

(** ** Counting what the rate limiter lets through *)

(** The requests of [ip] among [hits]. *)
Fixpoint requests_of (ip : string) (hits : list RateLimit.Hit) : Z :=
  match hits with
  | [] => 0
  | h :: hits' =>
      (if String.eqb (RateLimit.hit_ip h) ip then 1 else 0) + requests_of ip hits'
  end.

(** The requests of [ip] that were passed on. *)
Fixpoint passed_of (ip : string) (vs : list (string * RateLimit.Verdict)) : Z :=
  match vs with
  | [] => 0
  | (k, RateLimit.Passed) :: vs' =>
      (if String.eqb k ip then 1 else 0) + passed_of ip vs'
  | (_, RateLimit.TooManyRequests _) :: vs' => passed_of ip vs'
  end.

(** The delays [connectWithRetry] slept. *)
Definition waited_of (o : Startup.Outcome) : list QArith_base.Q :=
  match o with
  | Startup.Connected _ w => w
  | Startup.Thrown w => w
  | Startup.Undefined w => w
  end.

(** Three requests of one address and one of another within a minute. *)
Definition burst : list RateLimit.Hit :=
  [RateLimit.mkHit "10.0.0.7" 1000 false; RateLimit.mkHit "10.0.0.7" 2000 true;
   RateLimit.mkHit "10.0.0.9" 2500 false; RateLimit.mkHit "10.0.0.7" 3000 false].

(** ** What a check-in of [Server8] stores and answers *)

(** The environment [e] with other mail oracles: the template evaluation
    and the mail server. *)
Definition with_mail (h s : nat -> bool) (e : Env) : Env :=
  mkEnv (app_clock e) (db_clock e) (db_fault e) (random36 e) (bcrypt_compare e)
        (qr_toDataURL e) h s (send_checkout_emails e).

(** The row [Server8.createVisitor] inserts for [f]. *)
Definition created_row (e : Env) (w : World) (f : VisitorForm)
    (u : option Principal) : Visitor :=
  mkVisitor (visitors_identity w + 1)
    (JS.or_else (f_visitor_name f) EmptyString)
    (JS.or_null (f_mobile f)) (JS.or_null (f_host_employee f))
    (JS.or_else (f_host_email f) EmptyString)
    (Some (JS.or_else (f_purpose f) EmptyString))
    (JS.or_null (f_photo_base64 f))
    (Some (qr_text f (app_clock e (n_app w)) (random36 e (n_rnd w))
                   (app_clock e (S (n_app w)))))
    (db_clock e (n_db w)) None "checked_in" (Some (creator u))
    (db_clock e (n_db w)) None.

(** Whether [Server8.createVisitor] gets as far as a successful insert. *)
Definition check_in_stored (e : Env) (w : World) (f : VisitorForm) : bool :=
  valid_checkin f
  && match qr_toDataURL e (qr_text f (app_clock e (n_app w)) (random36 e (n_rnd w))
                                   (app_clock e (S (n_app w)))) with
     | Some _ => true
     | None => false
     end
  && negb (db_fault e (n_db w)).

(** The answer of [Server8.createVisitor], read off the form, the tables
    and the oracles: the mail oracles do not occur in it. *)
Definition createVisitor_answer (e : Env) (w : World) (f : VisitorForm) : Response :=
  if negb (JS.truthy (f_visitor_name f)) || negb (JS.truthy (f_host_email f))
     || negb (JS.truthy (f_purpose f))
  then fail 400 "Missing required fields: visitor_name, host_email, and purpose are required"
            "MISSING_FIELDS"
  else if negb (JS.test JS.emailRegex (JS.or_else (f_host_email f) EmptyString))
  then fail 400 "Invalid host email format" "INVALID_EMAIL"
  else
    match qr_toDataURL e (qr_text f (app_clock e (n_app w)) (random36 e (n_rnd w))
                                  (app_clock e (S (n_app w)))) with
    | Some url =>
        if db_fault e (n_db w)
        then fail 500 "Failed to create visitor" "VISITOR_CREATION_ERROR"
        else json (CreatedBody (visitors_identity w + 1) url
                     (Some (db_clock e (n_db w)))
                     (Some ("VIS-" ++ JS.string_of_Z (app_clock e (n_app w))
                              ++ "-" ++ random36 e (n_rnd w))))
    | None => fail 500 "Failed to create visitor" "VISITOR_CREATION_ERROR"
    end.

(** ** Transactions of [Part000] *)

(** What a rollback leaves in [vs_visitors]. *)
Definition rolled_back (w : World) : list Visitor :=
  match tx w with
  | Some snap => snap
  | None => vs_visitors w
  end.

(** A request started at [w] came to an end [out]: it was answered, no
    transaction is left open, and unless the answer is 200 the visitors are
    as they were. *)
Definition settled (w : World) (out : Result Response * World) : Prop :=
  exists r w', out = (Ok r, w') /\ tx w' = None
               /\ (http_status r <> 200 -> vs_visitors w' = vs_visitors w).

(** The visitors and the open transaction are those of [w]. *)
Definition untouched (w : World) (w' : World) : Prop :=
  vs_visitors w' = vs_visitors w /\ tx w' = tx w.

(** ** Invariants of the tables *)

(** A row is checked in and has no check-out time, or is checked out and
    has one. *)
Definition state_ok (r : Visitor) : Prop :=
  (status r = "checked_in" /\ checkout_time r = None)
  \/ (status r = "checked_out" /\ checkout_time r <> None).

(** Rows with distinct identifiers between 1 and [n], each in a state
    that is [state_ok]. *)
Definition wf_rows (n : Z) (T : list Visitor) : Prop :=
  NoDup (map id T) /\ Forall (fun r => 0 < id r <= n /\ state_ok r) T.

(** The table and what a rollback would restore are well formed with
    respect to the last identity value. *)
Definition WF (w : World) : Prop :=
  0 <= visitors_identity w
  /\ wf_rows (visitors_identity w) (vs_visitors w)
  /\ (forall snap, tx w = Some snap -> wf_rows (visitors_identity w) snap).

(** [m] keeps the invariant [I], whether it returns or throws. *)
Definition holds (I : World -> Prop) {A} (m : M A) : Prop :=
  forall e w, I w -> I (snd (m e w)).

(** [m] never throws. *)
Definition answers {A} (m : M A) : Prop :=
  forall e w, exists a w', m e w = (Ok a, w').

(** ** The requests of [Server8] *)

(** The requests the handlers of [Server8] and [Server8Util] answer. *)
Inductive Request8 : Type :=
| Login8 (username_ password_ : option string)
| CreateVisitor8 (f : VisitorForm) (user : option Principal)
| CheckOut8 (id_param : string) (user : Principal)
| ListVisitors8 (q : ListQuery) (user : Principal)
| GetVisitor8 (id_param : string) (user : Principal).

Definition handle8 (r : Request8) : M Response :=
  match r with
  | Login8 u p => Server8.login u p
  | CreateVisitor8 f user => Server8.createVisitor f user
  | CheckOut8 i user => Server8.checkOut i user
  | ListVisitors8 q user => Server8.listVisitors q user
  | GetVisitor8 i user => Server8Util.getVisitor i user
  end.

(** Requests answered one after the other. *)
Fixpoint serve8 (reqs : list Request8) (e : Env) (w : World) : World :=
  match reqs with
  | [] => w
  | r :: reqs' => serve8 reqs' e (snd (handle8 r e w))
  end.

(** ** Who is let in *)

(** The login [uo], [po] names a stored account whose hash the password
    matches, and [tok] and [usr] are that account's. *)
Definition authenticated (e : Env) (w : World) (uo po : option string)
    (tok usr : Principal) : Prop :=
  exists a u pw,
    uo = Some u /\ po = Some pw
    /\ In a (vs_users w) /\ (username a = u \/ email a = u)
    /\ bcrypt_compare e pw (password a) = true
    /\ tok = principal_of a /\ usr = principal_of a.

(** ** The authorization header *)

(** No blank in [s]. *)
Fixpoint no_space (s : string) : bool :=
  match s with
  | EmptyString => true
  | String c s' => negb (Ascii.eqb c " ") && no_space s'
  end.

(** What [authenticateToken] makes of a token that was found. *)
Definition verdict (v : Server8Util.Verified) : Server8Util.Gate Principal :=
  match v with
  | Server8Util.Decoded p => Server8Util.Next p
  | Server8Util.TokenExpiredError =>
      Server8Util.Answered (fail 401 "Token expired" "TOKEN_EXPIRED")
  | Server8Util.JsonWebTokenError =>
      Server8Util.Answered (fail 403 "Invalid token" "INVALID_TOKEN")
  end.

(** ** The strings the two patterns accept *)

(** Every character of [s] is in the class [p]. *)
Fixpoint all_chars (p : ascii -> bool) (s : string) : bool :=
  match s with
  | EmptyString => true
  | String c s' => p c && all_chars p s'
  end.

(** Exactly ten decimal digits. *)
Definition ten_digits (s : string) : bool :=
  (String.length s =? 10)%nat && all_chars JS.is_digit s.

(** A non-empty run of characters other than white space and the at sign. *)
Definition word (s : string) : Prop :=
  s <> EmptyString /\ all_chars JS.not_space_at s = true.

(** [local@domain.tld]: three words, the first two separated by the only
    at sign, the last two by a dot. *)
Definition email_shape (s : string) : Prop :=
  exists a b c, s = a ++ "@" ++ b ++ "." ++ c /\ word a /\ word b /\ word c.

(** ** An update *)

(** The row [r] after an update with the form [f] at the engine's time
    [now]: a field the form leaves out or leaves empty keeps its value. *)
Definition edited (f : VisitorForm) (now : Z) (r : Visitor) : Visitor :=
  mkVisitor (id r)
    (JS.or_else (f_visitor_name f) (visitor_name r))
    (if JS.truthy (f_mobile f) then f_mobile f else mobile r)
    (if JS.truthy (f_host_employee f) then f_host_employee f else host_employee r)
    (JS.or_else (f_host_email f) (host_email r))
    (if JS.truthy (f_purpose f) then f_purpose f else purpose r)
    (photo_base64 r) (qr_code_data r) (checkin_time r) (checkout_time r)
    (status r) (created_by r) (created_at r) (Some now).

(** ** Two check-outs at once ([Server8])

    A handler gives way to other requests where it awaits a statement.
    [Server8.checkOut] awaits two: the select and the update. *)

(** How far a check-out request has come: not started, past the select
    with the number and the row it read, or answered. *)
Inductive Stage : Type :=
| Fresh (id_param : string)
| Selected (visitorId : Z) (visitor : Visitor)
| Done (r : Response).

(** The [catch] block of [Server8.checkOut]. *)
Definition checkOut_catch (m : M Stage) : M Stage :=
  try_catch m
    (fun _ =>
       _ <- console_error "Checkout error" ;;
       ret (Done (fail 500 "Failed to check out visitor" "CHECKOUT_ERROR"))).

(** [Server8.checkOut] up to and including the select. *)
Definition checkOut_select (id_param : string) : M Stage :=
  match JS.parseInt id_param with
  | None => ret (Done (fail 400 "Invalid visitor ID" "INVALID_ID"))
  | Some visitorId =>
      visitorResult <- query_if (int32 visitorId)
                         (fun _ w => (Sql.select_visitor visitorId w, w)) ;;
      match visitorResult with
      | [] => ret (Done (fail 404 "Visitor not found" "VISITOR_NOT_FOUND"))
      | visitor :: _ =>
          if String.eqb (status visitor) "checked_out" then
            ret (Done (fail 400 "Visitor already checked out" "ALREADY_CHECKED_OUT"))
          else ret (Selected visitorId visitor)
      end
  end.

(** [Server8.checkOut] from the update on. *)
Definition checkOut_update (visitorId : Z) (visitor : Visitor) : M Stage :=
  rowsAffected <- query_if (int32 visitorId)
                    (Sql.update_checkout_if_checked_in false visitorId) ;;
  if (rowsAffected =? 0)%nat then
    ret (Done (fail 404 "Visitor not found or already checked out"
                    "VISITOR_NOT_FOUND"))
  else
    checkoutTime <- Date_now ;;
    sends <- checkout_mail_enabled ;;
    _ <- (if JS.truthy (Some (host_email visitor)) && sends then
            Server8.notify (mkMail CheckoutMail (host_email visitor)
                              (visitor_name visitor))
                           "Checkout email generation error"
          else ret tt) ;;
    ret (Done (json (CheckedOutBody (Some (JS.toISOString checkoutTime))))).

(** The request runs until its next statement is through. *)
Definition advance (s : Stage) : M Stage :=
  match s with
  | Fresh id_param => checkOut_catch (checkOut_select id_param)
  | Selected visitorId visitor => checkOut_catch (checkOut_update visitorId visitor)
  | Done r => ret (Done r)
  end.

(** Two requests, advanced in the order [schedule] tells: [true] is the
    first one's turn. *)
Fixpoint interleave (schedule : list bool) (a b : Stage) (e : Env) (w : World)
  : Stage * Stage * World :=
  match schedule with
  | [] => (a, b, w)
  | true :: rest =>
      match advance a e w with
      | (Ok a', w') => interleave rest a' b e w'
      | (Throw _, w') => interleave rest a b e w'
      end
  | false :: rest =>
      match advance b e w with
      | (Ok b', w') => interleave rest a b' e w'
      | (Throw _, w') => interleave rest a b e w'
      end
  end.

(** The request [s] is about the visitor [i]. *)
Definition about (i : Z) (s : Stage) : Prop :=
  match s with
  | Fresh id_param => JS.parseInt id_param = Some i
  | Selected visitorId _ => visitorId = i
  | Done _ => True
  end.

(** No row of the visitor [i] is checked in. *)
Definition spent (i : Z) (w : World) : Prop :=
  existsb (checked_in_hit i) (vs_visitors w) = false.

(** The request was answered 200. *)
Definition checked_out_200 (s : Stage) : Prop :=
  exists r, s = Done r /\ http_status r = 200.

(** ** Further inputs *)

(** The office of [env0] with the engine refusing the second statement. *)
Definition env_second_statement_fails : Env :=
  mkEnv (app_clock env0) (db_clock env0) (fun n => Nat.eqb n 1) (random36 env0)
        (bcrypt_compare env0) (qr_toDataURL env0) (html_fault env0)
        (smtp_accepts env0) (send_checkout_emails env0).

(** A reception account by the name the anonymous check-ins are filed
    under. *)
Definition front_desk : Principal := mkPrincipal 3 "system" "reception".

(** A verifier that knows one token, alice's. *)
Definition verify_abc (token : string) : Server8Util.Verified :=
  if String.eqb token "abc" then Server8Util.Decoded reception
  else Server8Util.JsonWebTokenError.

(** Jane's form with a host address that has no dot after the at sign. *)
Definition jane_bad_email : VisitorForm :=
  mkForm (Some "Jane Doe") None None (Some "host@xcom") (Some "Meeting") None.

(** A visitor whose name, host and purpose hold commas, double quotes and a
    line break. *)
Definition awkward_row : Visitor :=
  mkVisitor 2
    ("Doe, Jane " ++ String JS.dquote ("JD" ++ String JS.dquote EmptyString))
    (Some "9876543210") (Some "Bob, Sales") "host@x.com"
    (Some ("Audit" ++ Server8Util.newline ++ "third quarter"))
    None None 6000 (Some 7000) "checked_out" (Some "alice") 6000 None.

Example toISOString_epoch : JS.toISOString 0 = "1970-01-01T00:00:00.000Z".
Proof. reflexivity. Qed.
Example toISOString_sample : JS.toISOString 1700000000123 = "2023-11-14T22:13:20.123Z".
Proof. vm_compute. reflexivity. Qed.
Example parse_sample :
  JS.parse (JS.stringify [("id", "VIS-1"); ("name", "Jane Doe")])
  = Some [("id", "VIS-1"); ("name", "Jane Doe")].
Proof. vm_compute. reflexivity. Qed.
Example email_sample : JS.test JS.emailRegex "host@x.com" = true.
Proof. vm_compute. reflexivity. Qed.
Example email_sample2 : JS.test JS.emailRegex "host@xcom" = false.
Proof. vm_compute. reflexivity. Qed.
Example parseInt_sample : JS.parseInt " 42abc" = Some 42 /\ JS.parseInt "abc" = None /\ JS.parseInt "-0x1f" = Some (-31).
Proof. vm_compute. auto. Qed.

(* ================================================================== *)
(** * Properties *)
(* ================================================================== *)

(** ** JSON: what [stringify] writes, [parse] reads back *)

Section JsonRoundTrip.

Import JS.

Lemma append_assoc (a b c : string) : (a ++ b) ++ c = a ++ (b ++ c).
Proof. induction a as [|x a IH]; simpl; [reflexivity | now rewrite IH]. Qed.

Lemma length_append (a b : string) :
  String.length (a ++ b) = (String.length a + String.length b)%nat.
Proof. induction a as [|x a IH]; simpl; [reflexivity | now rewrite IH]. Qed.

(** One escaped code unit is decoded to itself. *)
Lemma parse_escape_char (c : ascii) (t : string) :
  parse_string_body (escape_char c ++ t) = cons_to c (parse_string_body t).
Proof.
  destruct c as [[] [] [] [] [] [] [] []]; reflexivity.
Qed.

Lemma parse_string_body_escape (s rest : string) :
  parse_string_body (escape s ++ String dquote rest) = Some (s, rest).
Proof.
  induction s as [|c s IH]; simpl.
  - reflexivity.
  - rewrite append_assoc, parse_escape_char, IH. reflexivity.
Qed.

Lemma parse_string_quote (s rest : string) :
  parse_string (quote s ++ rest) = Some (s, rest).
Proof.
  unfold parse_string, quote, expect. simpl.
  rewrite append_assoc. simpl. apply parse_string_body_escape.
Qed.

Lemma stringify_members_cons (kv : string * string) (l : list (string * string)) :
  l <> [] ->
  stringify_members (kv :: l) = stringify_member kv ++ "," ++ stringify_members l.
Proof. destruct l; [congruence | reflexivity]. Qed.

Lemma parse_member (k v rest : string) :
  parse_string (stringify_member (k, v) ++ rest) = Some (k, ":" ++ quote v ++ rest).
Proof.
  unfold stringify_member. simpl fst; simpl snd.
  rewrite append_assoc, parse_string_quote. simpl. now rewrite append_assoc.
Qed.

Lemma parse_members_step (fuel : nat) (k v rest : string)
    (acc : list (string * string)) :
  parse_members (S fuel) (stringify_member (k, v) ++ rest) acc =
  match expect "," rest with
  | Some s6 => parse_members fuel s6 (acc ++ [(k, v)])%list
  | None =>
      match expect "}" rest with
      | Some s6 => if at_end s6 then Some (acc ++ [(k, v)])%list else None
      | None => None
      end
  end.
Proof.
  cbn [parse_members]. rewrite parse_member.
  change (expect ":" (":" ++ quote v ++ rest)) with (Some (quote v ++ rest)).
  cbv iota beta. rewrite parse_string_quote. reflexivity.
Qed.

Lemma parse_members_stringify (l : list (string * string)) :
  l <> [] ->
  forall fuel acc,
    (List.length l <= fuel)%nat ->
    parse_members fuel (stringify_members l ++ "}") acc = Some (acc ++ l)%list.
Proof.
  induction l as [|[k v] l IH]; intros Hne fuel acc Hfuel; [congruence|].
  destruct fuel as [|fuel]; [simpl in Hfuel; lia|].
  destruct l as [|kv' l'].
  - cbn [stringify_members]. rewrite parse_members_step. reflexivity.
  - rewrite stringify_members_cons by congruence.
    rewrite !append_assoc, parse_members_step.
    change (expect "," ("," ++ stringify_members (kv' :: l') ++ "}"))
      with (Some (stringify_members (kv' :: l') ++ "}")).
    cbv iota beta.
    rewrite IH; [| congruence | simpl in *; lia].
    now rewrite <- app_assoc.
Qed.

Lemma length_stringify_members (l : list (string * string)) :
  (List.length l <= String.length (stringify_members l))%nat.
Proof.
  induction l as [|[k v] l IH]; [simpl; lia|].
  destruct l as [|kv' l'].
  - simpl. lia.
  - rewrite stringify_members_cons by congruence.
    rewrite length_append. unfold stringify_member at 1. simpl fst.
    unfold quote at 1. simpl String.length at 1.
    rewrite length_append. simpl in *. lia.
Qed.

Lemma expect_open_stringify (o : list (string * string)) :
  expect "{" (stringify o) = Some (stringify_members o ++ "}").
Proof. reflexivity. Qed.

Lemma expect_close_members (l : list (string * string)) :
  l <> [] -> expect "}" (stringify_members l ++ "}") = None.
Proof.
  intros Hl. destruct l as [|[k0 v0] l0]; [congruence|].
  destruct l0; reflexivity.
Qed.

(** [JSON.parse(JSON.stringify(o))] is [o], for every flat object [o]. *)
Lemma parse_stringify (o : list (string * string)) :
  parse (stringify o) = Some o.
Proof.
  destruct o as [|[k v] o'].
  - reflexivity.
  - unfold parse. rewrite expect_open_stringify.
    rewrite expect_close_members by congruence.
    apply (parse_members_stringify ((k, v) :: o')); [congruence|].
    pose proof (length_stringify_members ((k, v) :: o')) as Hlen.
    unfold stringify.
    change (String.length ("{" ++ stringify_members ((k, v) :: o') ++ "}"))
      with (S (String.length (stringify_members ((k, v) :: o') ++ "}"))).
    rewrite length_append. lia.
Qed.

End JsonRoundTrip.

(** ** Running the effects *)

Lemma same_tables_refl (w : World) : same_tables w w.
Proof. repeat split. Qed.

Lemma same_tables_trans (w1 w2 w3 : World) :
  same_tables w1 w2 -> same_tables w2 w3 -> same_tables w1 w3.
Proof.
  unfold same_tables. intros (a1 & a2 & a3 & a4 & a5 & a6) (b1 & b2 & b3 & b4 & b5 & b6).
  repeat split; congruence.
Qed.

Lemma query_ok {A} (stmt : Z -> World -> A * World) (e : Env) (w : World) :
  db_fault e (n_db w) = false ->
  query stmt e w =
    (Ok (fst (stmt (db_clock e (n_db w)) w)),
     tick_db (snd (stmt (db_clock e (n_db w)) w))).
Proof.
  intros H. unfold query. rewrite H. now destruct (stmt _ w).
Qed.

Lemma query_fault {A} (stmt : Z -> World -> A * World) (e : Env) (w : World) :
  db_fault e (n_db w) = true ->
  query stmt e w = (Throw "RequestError", tick_db w).
Proof. intros H. unfold query. now rewrite H. Qed.

(** The notification block never throws and touches no table, whatever the
    template and the mail server do. *)
Lemma server8_notify_ok (m : Mail) (tag : string) (e : Env) (w : World) :
  exists w', Server8.notify m tag e w = (Ok tt, w') /\ same_tables w w'.
Proof.
  unfold Server8.notify, try_catch, bind, build_mail, Date_now,
    sendMail_detached, console_error.
  destruct (html_fault e (n_mail w)).
  - eexists; split; [reflexivity | repeat split].
  - cbn. destruct (smtp_accepts e (n_mail w));
      eexists; (split; [reflexivity | repeat split]).
Qed.

(** ** Check-in ([Server8]) *)

(** What a valid check-in does when the QR renderer and the insert work. *)
Lemma server8_createVisitor_runs (e : Env) (w : World) (f : VisitorForm)
    (u : option Principal) (url : string) :
  valid_checkin f = true ->
  qr_toDataURL e (qr_text f (app_clock e (n_app w)) (random36 e (n_rnd w))
                          (app_clock e (S (n_app w)))) = Some url ->
  db_fault e (n_db w) = false ->
  exists w',
    Server8.createVisitor f u e w =
      (Ok (json (CreatedBody (visitors_identity w + 1) url
                   (Some (db_clock e (n_db w)))
                   (Some ("VIS-" ++ JS.string_of_Z (app_clock e (n_app w))
                            ++ "-" ++ random36 e (n_rnd w))))), w')
    /\ vs_visitors w' =
         (vs_visitors w ++
          [mkVisitor (visitors_identity w + 1)
             (JS.or_else (f_visitor_name f) EmptyString)
             (JS.or_null (f_mobile f)) (JS.or_null (f_host_employee f))
             (JS.or_else (f_host_email f) EmptyString)
             (Some (JS.or_else (f_purpose f) EmptyString))
             (JS.or_null (f_photo_base64 f))
             (Some (qr_text f (app_clock e (n_app w)) (random36 e (n_rnd w))
                            (app_clock e (S (n_app w)))))
             (db_clock e (n_db w)) None "checked_in" (Some (creator u))
             (db_clock e (n_db w)) None])%list.
Proof.
  intros Hvalid Hqr Hdb.
  unfold valid_checkin in Hvalid.
  apply andb_prop in Hvalid as [Hvalid Hre].
  apply andb_prop in Hvalid as [Hvalid Hp].
  apply andb_prop in Hvalid as [Hn Hm].
  unfold Server8.createVisitor, try_catch.
  rewrite Hn, Hm, Hp. cbn [negb orb]. rewrite Hre. cbn [negb].
  unfold bind at 1. unfold Date_now at 1.
  unfold bind at 1. unfold Math_random36.
  unfold bind at 1. unfold Date_now.
  unfold bind at 1. unfold QRCode_toDataURL.
  unfold qr_text in Hqr. cbn [tick_app tick_rnd n_app n_rnd n_db].
  rewrite Hqr.
  unfold bind at 1. rewrite query_ok by exact Hdb.
  unfold bind at 1.
  match goal with
  | |- context [Server8.notify ?m ?t ?e0 ?w0] =>
      destruct (server8_notify_ok m t e0 w0) as (w' & Hrun & Hsame)
  end.
  rewrite Hrun. unfold ret.
  exists w'. split; [reflexivity|].
  destruct Hsame as (Hv & _). rewrite Hv. reflexivity.
Qed.

(** A check-in answered with a created record went through validation, the
    QR renderer and the insert. *)
Lemma server8_createVisitor_created (e : Env) (w w' : World) (f : VisitorForm)
    (u : option Principal) (i : Z) (url : string) (t : option Z)
    (qid : option string) :
  Server8.createVisitor f u e w = (Ok (json (CreatedBody i url t qid)), w') ->
  valid_checkin f = true
  /\ qr_toDataURL e (qr_text f (app_clock e (n_app w)) (random36 e (n_rnd w))
                             (app_clock e (S (n_app w)))) = Some url
  /\ db_fault e (n_db w) = false.
Proof.
  intros Hrun.
  unfold valid_checkin.
  unfold Server8.createVisitor, try_catch in Hrun.
  destruct (JS.truthy (f_visitor_name f)); cbn [negb orb andb] in *;
    [|inversion Hrun].
  destruct (JS.truthy (f_host_email f)); cbn [negb orb andb] in *;
    [|inversion Hrun].
  destruct (JS.truthy (f_purpose f)); cbn [negb orb andb] in *;
    [|inversion Hrun].
  destruct (JS.test JS.emailRegex _); cbn [negb] in *; [|inversion Hrun].
  unfold bind at 1 in Hrun. unfold Date_now at 1 in Hrun.
  unfold bind at 1 in Hrun. unfold Math_random36 in Hrun.
  unfold bind at 1 in Hrun. unfold Date_now in Hrun.
  unfold bind at 1 in Hrun. unfold QRCode_toDataURL in Hrun.
  cbn [tick_app tick_rnd n_app n_rnd n_db] in Hrun.
  unfold qr_text.
  destruct (qr_toDataURL e _) as [url'|] eqn:Hqr; [|inversion Hrun].
  unfold bind at 1 in Hrun.
  destruct (db_fault e (n_db w)) eqn:Hdb.
  - rewrite query_fault in Hrun by exact Hdb. inversion Hrun.
  - rewrite query_ok in Hrun by exact Hdb.
    unfold bind at 1 in Hrun.
    match type of Hrun with
    | context [Server8.notify ?m ?tg ?e0 ?w0] =>
        destruct (server8_notify_ok m tg e0 w0) as (w1 & Hn & _)
    end.
    rewrite Hn in Hrun. unfold ret in Hrun. inversion Hrun. subst.
    repeat split; reflexivity.
Qed.



(** ** The QR payload ([Server8]) *)

Lemma truthy_or_else (v : option string) :
  JS.truthy v = true -> Some (JS.or_else v EmptyString) = v.
Proof. destruct v as [[|c s]|]; simpl; congruence. Qed.

Lemma stored_payload_qr_text (r : Visitor) (f : VisitorForm) (stamp : Z)
    (suffix : string) (checkin : Z) :
  qr_code_data r = Some (qr_text f stamp suffix checkin) ->
  stored_payload r =
    Some (qrData ("VIS-" ++ JS.string_of_Z stamp ++ "-" ++ suffix)
                 (JS.or_else (f_visitor_name f) EmptyString)
                 (f_mobile f) (f_host_employee f)
                 (JS.or_else (f_purpose f) EmptyString)
                 (JS.toISOString checkin)).
Proof.
  intros H. unfold stored_payload. rewrite H. unfold qr_text.
  apply parse_stringify.
Qed.

(** C3, as stated, fails: Jane's payload carries the reading of the process
    clock, 1970-01-01T00:00:01.001Z, while the answer carries the engine's
    check-in time, 5000 ms. *)
Lemma C3_counterexample : ~ qr_reproduces_answer env0 world0 jane None.
Proof.
  intros Hclaim.
  destruct (Hclaim 1 ("data:image/png;base64," ++ qr_text jane 1000 "k3x9q2m1z" 1001)
              5000 "VIS-1000-k3x9q2m1z"
              (snd (Server8.createVisitor jane None env0 world0)))
    as (row & o & Hin & _ & Hpayload & _ & _ & Hcheckin).
  { vm_compute. reflexivity. }
  assert (Hrows : vs_visitors (snd (Server8.createVisitor jane None env0 world0))
                  = [jane_row]) by (vm_compute; reflexivity).
  rewrite Hrows in Hin. destruct Hin as [<-|[]].
  rewrite (stored_payload_qr_text jane_row jane 1000 "k3x9q2m1z" 1001 eq_refl)
    in Hpayload.
  inversion Hpayload; subst o. vm_compute in Hcheckin. discriminate.
Qed.

(** C3, amended.  In [Server8], the payload stored with a created record
    parses back to the pass id the answer carries as [visitor.visitorId],
    to the name of the request, and to the ISO form of the process clock
    read while the payload was built; the numeric id and the check-in time
    of the answer are the store's and are not in the payload. *)
Theorem C3_qr_payload_round_trip (e : Env) (w w' : World) (f : VisitorForm)
    (u : option Principal) (i : Z) (url : string) (t : option Z)
    (qid : option string) :
  Server8.createVisitor f u e w = (Ok (json (CreatedBody i url t qid)), w') ->
  exists row o,
    vs_visitors w' = (vs_visitors w ++ [row])%list /\ id row = i
    /\ stored_payload row = Some o
    /\ JS.get "id" o = qid
    /\ JS.get "name" o = f_visitor_name f
    /\ JS.get "checkin" o = Some (JS.toISOString (app_clock e (S (n_app w))))
    /\ i = visitors_identity w + 1
    /\ t = Some (db_clock e (n_db w)).
Proof.
  intros Hrun.
  destruct (server8_createVisitor_created _ _ _ _ _ _ _ _ _ Hrun)
    as (Hvalid & Hqr & Hdb).
  destruct (server8_createVisitor_runs e w f u url Hvalid Hqr Hdb)
    as (w1 & Hrun1 & Hrows).
  rewrite Hrun in Hrun1. inversion Hrun1; subst.
  eexists _, _. split; [exact Hrows|].
  split; [reflexivity|].
  split; [eapply stored_payload_qr_text; reflexivity|].
  unfold valid_checkin in Hvalid.
  apply andb_prop in Hvalid as [Hvalid _].
  apply andb_prop in Hvalid as [Hvalid _].
  apply andb_prop in Hvalid as [Hn _].
  repeat split.
  cbn. now apply truthy_or_else.
Qed.

Lemma C3_witness :
  exists row o,
    vs_visitors (snd (Server8.createVisitor jane None env0 world0))
      = (vs_visitors world0 ++ [row])%list /\ id row = 1
    /\ stored_payload row = Some o
    /\ JS.get "id" o = Some "VIS-1000-k3x9q2m1z"
    /\ JS.get "name" o = f_visitor_name jane
    /\ JS.get "checkin" o = Some (JS.toISOString (app_clock env0 (S (n_app world0))))
    /\ 1 = visitors_identity world0 + 1
    /\ Some 5000 = Some (db_clock env0 (n_db world0)).
Proof.
  apply (C3_qr_payload_round_trip env0 world0 _ jane None 1
           ("data:image/png;base64," ++ qr_text jane 1000 "k3x9q2m1z" 1001)).
  vm_compute. reflexivity.
Defined.

(** ** Login *)

Lemma nonempty_truthy (s : string) : s <> EmptyString -> JS.truthy (Some s) = true.
Proof. destruct s; simpl; congruence. Qed.

Lemma nonempty_or_else (s d : string) : s <> EmptyString -> JS.or_else (Some s) d = s.
Proof. destruct s; simpl; congruence. Qed.

Lemma truthy_some (v : option string) :
  JS.truthy v = true -> exists s, v = Some s /\ s <> EmptyString.
Proof.
  destruct v as [[|c s]|]; simpl; try discriminate.
  intros _. eexists; split; [reflexivity | discriminate].
Qed.

Ltac login_start Hu Hp Hdb :=
  unfold Server8.login, Part000.login, try_catch;
  rewrite (nonempty_truthy _ Hu), (nonempty_truthy _ Hp);
  rewrite (nonempty_or_else _ EmptyString Hu), (nonempty_or_else _ EmptyString Hp);
  cbn [negb orb];
  unfold bind at 1; rewrite query_ok by exact Hdb; cbn [fst snd].

Lemma server8_login_unknown (e : Env) (w : World) (u pw : string) :
  u <> EmptyString -> pw <> EmptyString -> db_fault e (n_db w) = false ->
  Sql.select_user u w = [] ->
  Server8.login (Some u) (Some pw) e w =
    (Ok Server8.invalid_credentials, emit (Compared dummy_hash) (tick_db w)).
Proof.
  intros Hu Hp Hdb Hsel. login_start Hu Hp Hdb. rewrite Hsel. reflexivity.
Qed.

Lemma server8_login_disabled (e : Env) (w : World) (u pw : string)
    (user : User) (rest : list User) :
  u <> EmptyString -> pw <> EmptyString -> db_fault e (n_db w) = false ->
  Sql.select_user u w = user :: rest ->
  is_active user = Some false ->
  Server8.login (Some u) (Some pw) e w = (Ok account_disabled, tick_db w).
Proof.
  intros Hu Hp Hdb Hsel Hact. login_start Hu Hp Hdb.
  rewrite Hsel, Hact. reflexivity.
Qed.

Lemma server8_login_wrong_password (e : Env) (w : World) (u pw : string)
    (user : User) (rest : list User) :
  u <> EmptyString -> pw <> EmptyString -> db_fault e (n_db w) = false ->
  Sql.select_user u w = user :: rest ->
  is_active user <> Some false ->
  bcrypt_compare e pw (password user) = false ->
  Server8.login (Some u) (Some pw) e w =
    (Ok Server8.invalid_credentials, emit (Compared (password user)) (tick_db w)).
Proof.
  intros Hu Hp Hdb Hsel Hact Hb. login_start Hu Hp Hdb. rewrite Hsel.
  destruct (is_active user) as [[|]|]; try congruence;
    cbn [negb]; unfold bind, bcrypt_compare_; rewrite Hb; reflexivity.
Qed.

Lemma part000_login_unknown (e : Env) (w : World) (u pw : string) :
  u <> EmptyString -> pw <> EmptyString -> db_fault e (n_db w) = false ->
  Sql.select_active_user u w = [] ->
  Part000.login (Some u) (Some pw) e w =
    (Ok Part000.invalid_credentials, emit (Compared dummy_hash) (tick_db w)).
Proof.
  intros Hu Hp Hdb Hsel. login_start Hu Hp Hdb. rewrite Hsel. reflexivity.
Qed.

Lemma select_user_head (u : string) (w : World) (user : User) (rest : list User) :
  Sql.select_user u w = user :: rest ->
  In user (vs_users w) /\ (username user = u \/ email user = u).
Proof.
  intros Hsel.
  assert (Hin : In user (Sql.select_user u w)) by (rewrite Hsel; now left).
  apply filter_In in Hin as [Hin Hm]. split; [exact Hin|].
  apply orb_prop in Hm as [Hm|Hm]; apply String.eqb_eq in Hm; auto.
Qed.

Lemma select_active_user_head (u : string) (w : World) (user : User)
    (rest : list User) :
  Sql.select_active_user u w = user :: rest ->
  In user (vs_users w) /\ is_active user = Some true.
Proof.
  intros Hsel.
  assert (Hin : In user (Sql.select_active_user u w)) by (rewrite Hsel; now left).
  apply filter_In in Hin as [Hin Hm]. split; [exact Hin|].
  apply andb_prop in Hm as [_ Hm].
  now destruct (is_active user) as [[|]|].
Qed.

(** Whoever [Server8.login] lets in is a stored account that is not
    disabled. *)
Lemma server8_login_authenticates_active (e : Env) (w w' : World)
    (uo po : option string) (tok usr : Principal) :
  Server8.login uo po e w = (Ok (json (LoginBody tok usr)), w') ->
  exists a, In a (vs_users w) /\ tok = principal_of a /\ is_active a <> Some false.
Proof.
  unfold Server8.login, try_catch. intros Hrun.
  destruct (JS.truthy uo); cbn [negb orb] in Hrun; [|inversion Hrun].
  destruct (JS.truthy po); cbn [negb orb] in Hrun; [|inversion Hrun].
  unfold bind at 1 in Hrun.
  destruct (db_fault e (n_db w)) eqn:Hdb.
  { rewrite query_fault in Hrun by exact Hdb. inversion Hrun. }
  rewrite query_ok in Hrun by exact Hdb. cbn [fst snd] in Hrun.
  destruct (Sql.select_user _ w) as [|user rest] eqn:Hsel.
  { inversion Hrun. }
  apply select_user_head in Hsel as [Hin _].
  destruct (is_active user) as [[|]|] eqn:Hact; cbn [negb] in Hrun;
    try (inversion Hrun; fail);
    unfold bind at 1, bcrypt_compare_ in Hrun;
    destruct (bcrypt_compare e _ (password user)); cbn [negb] in Hrun;
    try (inversion Hrun; fail);
    unfold bind at 1, try_catch in Hrun;
    destruct (query _ e _) as [[[]|msg] w1]; cbn in Hrun;
    inversion Hrun; subst; exists user; (split; [exact Hin|split; congruence]).
Qed.

(** Whoever [Part000.login] lets in is a stored account whose flag is set. *)
Lemma part000_login_authenticates_active (e : Env) (w w' : World)
    (uo po : option string) (tok usr : Principal) :
  Part000.login uo po e w = (Ok (json (LoginBody tok usr)), w') ->
  exists a, In a (vs_users w) /\ tok = principal_of a /\ is_active a = Some true.
Proof.
  unfold Part000.login, try_catch. intros Hrun.
  destruct (JS.truthy uo); cbn [negb orb] in Hrun; [|inversion Hrun].
  destruct (JS.truthy po); cbn [negb orb] in Hrun; [|inversion Hrun].
  unfold bind at 1 in Hrun.
  destruct (db_fault e (n_db w)) eqn:Hdb.
  { rewrite query_fault in Hrun by exact Hdb. inversion Hrun. }
  rewrite query_ok in Hrun by exact Hdb. cbn [fst snd] in Hrun.
  destruct (Sql.select_active_user _ w) as [|user rest] eqn:Hsel.
  { inversion Hrun. }
  apply select_active_user_head in Hsel as [Hin Hact].
  unfold bind at 1, bcrypt_compare_ in Hrun.
  destruct (bcrypt_compare e _ (password user)); cbn [negb] in Hrun;
    [|inversion Hrun].
  unfold bind at 1 in Hrun.
  destruct (query _ e _) as [[[]|msg] w1]; [|inversion Hrun].
  unfold bind at 1, Part000.logAudit, try_catch in Hrun.
  destruct (query _ e w1) as [[[]|msg] w2]; cbn in Hrun;
    inversion Hrun; subst; exists user; auto.
Qed.

(** [Server8.login] answers [AccountDisabled] only for a stored account
    that the given name selects and whose flag is cleared. *)
Lemma server8_login_disabled_exists (e : Env) (w w' : World)
    (uo po : option string) :
  Server8.login uo po e w = (Ok account_disabled, w') ->
  exists a, In a (vs_users w) /\ is_active a = Some false
            /\ (Some (username a) = uo \/ Some (email a) = uo).
Proof.
  unfold Server8.login, try_catch. intros Hrun.
  destruct (JS.truthy uo) eqn:Hu; cbn [negb orb] in Hrun; [|inversion Hrun].
  destruct (JS.truthy po); cbn [negb orb] in Hrun; [|inversion Hrun].
  apply truthy_some in Hu as (u & -> & Hne).
  rewrite (nonempty_or_else u _ Hne) in Hrun.
  unfold bind at 1 in Hrun.
  destruct (db_fault e (n_db w)) eqn:Hdb.
  { rewrite query_fault in Hrun by exact Hdb. inversion Hrun. }
  rewrite query_ok in Hrun by exact Hdb. cbn [fst snd] in Hrun.
  destruct (Sql.select_user u w) as [|user rest] eqn:Hsel.
  { inversion Hrun. }
  apply select_user_head in Hsel as [Hin Hm].
  destruct (is_active user) as [[|]|] eqn:Hact; cbn [negb] in Hrun.
  2:{ exists user. repeat split; auto. destruct Hm as [<-|<-]; auto. }
  all: unfold bind at 1, bcrypt_compare_ in Hrun;
    destruct (bcrypt_compare e _ (password user)); cbn [negb] in Hrun;
    try (inversion Hrun; fail);
    unfold bind at 1, try_catch in Hrun;
    destruct (query _ e _) as [[[]|msg] w1]; cbn in Hrun; inversion Hrun.
Qed.

(** C4.  The first iteration ([Server1.login]) compares nothing when no
    account answers to the name: the login is answered [InvalidCredentials]
    straight after the lookup and no comparison is logged, where
    [Server8.login] first compares the password against the dummy hash; for
    an account that is found and a password that does not match,
    [Server1.login] compares once, against the stored hash.  So in the first
    iteration the failure path compares once or not at all, according to
    whether the account exists. *)
Theorem C4_server1_unknown_user_is_not_compared (e : Env) (w : World)
    (u pw : string) :
  u <> EmptyString -> pw <> EmptyString ->
  db_fault e (n_db w) = false ->
  match Sql.select_user u w with
  | [] =>
      (exists w1,
          Server1.login (Some u) (Some pw) e w
            = (Ok Server1.invalid_credentials, w1)
          /\ events w1 = events w)
      /\ (exists w8,
             Server8.login (Some u) (Some pw) e w
               = (Ok Server8.invalid_credentials, w8)
             /\ events w8 = (events w ++ [Compared dummy_hash])%list)
  | user :: _ =>
      bcrypt_compare e pw (password user) = false ->
      exists w1,
        Server1.login (Some u) (Some pw) e w
          = (Ok Server1.invalid_credentials, w1)
        /\ events w1 = (events w ++ [Compared (password user)])%list
  end.
Proof.
  intros Hu Hp Hdb.
  destruct (Sql.select_user u w) as [|user rest] eqn:Hsel.
  - split.
    + unfold Server1.login, try_catch. unfold bind at 1.
      rewrite query_ok by exact Hdb. cbn [fst snd]. rewrite Hsel.
      eexists. split; reflexivity.
    + rewrite (server8_login_unknown e w u pw Hu Hp Hdb Hsel).
      eexists. split; reflexivity.
  - intros Hb.
    unfold Server1.login, try_catch. unfold bind at 1.
    rewrite query_ok by exact Hdb. cbn [fst snd]. rewrite Hsel.
    unfold bind, bcrypt_compare_. rewrite Hb.
    eexists. split; reflexivity.
Qed.

Lemma C4_witness :
  ((exists w1,
       Server1.login (Some "nope") (Some "wrong") env0 world0
         = (Ok Server1.invalid_credentials, w1)
       /\ events w1 = events world0)
   /\ (exists w8,
          Server8.login (Some "nope") (Some "wrong") env0 world0
            = (Ok Server8.invalid_credentials, w8)
          /\ events w8 = (events world0 ++ [Compared dummy_hash])%list))
  /\ (exists w1,
         Server1.login (Some "alice") (Some "wrong") env0 world0
           = (Ok Server1.invalid_credentials, w1)
         /\ events w1 = (events world0 ++ [Compared (password alice)])%list).
Proof.
  split.
  - apply (C4_server1_unknown_user_is_not_compared env0 world0 "nope" "wrong");
      [discriminate | discriminate | reflexivity].
  - apply (C4_server1_unknown_user_is_not_compared env0 world0 "alice" "wrong");
      [discriminate | discriminate | reflexivity | reflexivity].
Defined.

(** X26.  In [Server8], for every login with a user name and a password
    whose lookup the store answers: when no account is found the password
    is compared once, against the fixed dummy hash, and the answer is
    [InvalidCredentials]; when the account found is not disabled and the
    password does not match, it is compared once, against the stored hash,
    and the answer is [InvalidCredentials]; when the account found is
    disabled the answer is [AccountDisabled] and nothing is compared. *)
Theorem X26_server8_login_failure_comparisons (e : Env) (w : World) (u pw : string) :
  u <> EmptyString -> pw <> EmptyString ->
  db_fault e (n_db w) = false ->
  match Sql.select_user u w with
  | [] =>
      Server8.login (Some u) (Some pw) e w =
        (Ok Server8.invalid_credentials, emit (Compared dummy_hash) (tick_db w))
  | user :: _ =>
      match is_active user with
      | Some false =>
          Server8.login (Some u) (Some pw) e w = (Ok account_disabled, tick_db w)
      | _ =>
          bcrypt_compare e pw (password user) = false ->
          Server8.login (Some u) (Some pw) e w =
            (Ok Server8.invalid_credentials,
             emit (Compared (password user)) (tick_db w))
      end
  end.
Proof.
  intros Hu Hp Hdb.
  destruct (Sql.select_user u w) as [|user rest] eqn:Hsel.
  - exact (server8_login_unknown e w u pw Hu Hp Hdb Hsel).
  - destruct (is_active user) as [[|]|] eqn:Hact.
    + intros Hb.
      exact (server8_login_wrong_password e w u pw user rest Hu Hp Hdb Hsel
               ltac:(congruence) Hb).
    + exact (server8_login_disabled e w u pw user rest Hu Hp Hdb Hsel Hact).
    + intros Hb.
      exact (server8_login_wrong_password e w u pw user rest Hu Hp Hdb Hsel
               ltac:(congruence) Hb).
Qed.

Lemma X26_witness :
  Server8.login (Some "alice") (Some "wrong") env0 world0 =
    (Ok Server8.invalid_credentials,
     emit (Compared "hash:correct horse") (tick_db world0))
  /\ Server8.login (Some "nope") (Some "wrong") env0 world0 =
    (Ok Server8.invalid_credentials, emit (Compared dummy_hash) (tick_db world0))
  /\ Server8.login (Some "bob") (Some "wrong") env0 world0 =
    (Ok account_disabled, tick_db world0).
Proof.
  split; [|split].
  - apply (X26_server8_login_failure_comparisons env0 world0 "alice" "wrong");
      [discriminate | discriminate | reflexivity | reflexivity].
  - apply (X26_server8_login_failure_comparisons env0 world0 "nope" "wrong");
      [discriminate | discriminate | reflexivity].
  - apply (X26_server8_login_failure_comparisons env0 world0 "bob" "wrong");
      [discriminate | discriminate | reflexivity].
Defined.

(** C5, as stated, fails in [Part000]: its lookup leaves disabled accounts
    out, so [bob] with his right password is answered [InvalidCredentials]
    like an unknown user. *)
Lemma C5_counterexample :
  ~ disabled_is_reported Part000.login env0 world0 "bob" "hunter2".
Proof.
  intros H. specialize (H bob (or_intror (or_introl eq_refl)) (or_introl eq_refl) eq_refl).
  vm_compute in H. discriminate.
Qed.

(** C5, amended.  In [Server8], a login with user name and password that
    finds a disabled account is answered [AccountDisabled], which is not
    [InvalidCredentials], without comparing the password; [AccountDisabled]
    is only ever answered for a stored, disabled account that the name
    selects.  In [Part000] the lookup leaves disabled accounts out: when no
    enabled account answers to the name the answer is [InvalidCredentials]
    after the dummy comparison.  In both, whoever is let in is a stored
    account that is not disabled, whatever the password. *)
Theorem C5_disabled_account (e : Env) (w : World) (u pw : string)
    (user : User) (rest : list User) :
  u <> EmptyString -> pw <> EmptyString ->
  db_fault e (n_db w) = false ->
  Sql.select_user u w = user :: rest ->
  is_active user = Some false ->
  Server8.login (Some u) (Some pw) e w = (Ok account_disabled, tick_db w)
  /\ account_disabled <> Server8.invalid_credentials
  /\ (forall uo po w',
        Server8.login uo po e w = (Ok account_disabled, w') ->
        exists a, In a (vs_users w) /\ is_active a = Some false
                  /\ (Some (username a) = uo \/ Some (email a) = uo))
  /\ (forall uo po tok usr w',
        Server8.login uo po e w = (Ok (json (LoginBody tok usr)), w') ->
        exists a, In a (vs_users w) /\ tok = principal_of a
                  /\ is_active a <> Some false)
  /\ (Sql.select_active_user u w = [] ->
      Part000.login (Some u) (Some pw) e w =
        (Ok Part000.invalid_credentials, emit (Compared dummy_hash) (tick_db w)))
  /\ (forall uo po tok usr w',
        Part000.login uo po e w = (Ok (json (LoginBody tok usr)), w') ->
        exists a, In a (vs_users w) /\ tok = principal_of a
                  /\ is_active a = Some true).
Proof.
  intros Hu Hp Hdb Hsel Hact.
  split; [exact (server8_login_disabled e w u pw user rest Hu Hp Hdb Hsel Hact)|].
  split; [discriminate|].
  split; [intros uo po w'; apply server8_login_disabled_exists|].
  split; [intros uo po tok usr w'; apply server8_login_authenticates_active|].
  split; [exact (part000_login_unknown e w u pw Hu Hp Hdb)|].
  intros uo po tok usr w'; apply part000_login_authenticates_active.
Qed.

Lemma C5_witness :
  Server8.login (Some "bob") (Some "hunter2") env0 world0 =
    (Ok account_disabled, tick_db world0)
  /\ Part000.login (Some "bob") (Some "hunter2") env0 world0 =
    (Ok Part000.invalid_credentials, emit (Compared dummy_hash) (tick_db world0)).
Proof.
  destruct (C5_disabled_account env0 world0 "bob" "hunter2" bob []
              ltac:(discriminate) ltac:(discriminate) eq_refl eq_refl eq_refl)
    as (H8 & _ & _ & _ & H0 & _).
  split; [exact H8 | exact (H0 eq_refl)].
Defined.

(** ** Check-out *)

Ltac wsimpl :=
  cbn [vs_visitors vs_users vs_audit_log visitors_identity tx n_app n_db n_rnd
       n_mail events set_visitors set_users set_audit set_identity set_tx
       tick_app tick_db tick_rnd tick_mail emit fst snd].

Ltac wsimpl_in H :=
  cbn [vs_visitors vs_users vs_audit_log visitors_identity tx n_app n_db n_rnd
       n_mail events set_visitors set_users set_audit set_identity set_tx
       tick_app tick_db tick_rnd tick_mail emit fst snd] in H.

Lemma length_filter_zero {A} (p : A -> bool) (l : list A) :
  (List.length (filter p l) =? 0)%nat = negb (existsb p l).
Proof.
  induction l as [|x l IH]; simpl; [reflexivity|].
  destruct (p x); simpl; [reflexivity | exact IH].
Qed.

(** [Server8.checkOut] never throws: it answers [checkOut_answer] and
    leaves the rows [checkOut_rows]. *)
Lemma server8_checkOut_run (e : Env) (w : World) (id_param : string)
    (user : Principal) :
  exists w',
    Server8.checkOut id_param user e w = (Ok (checkOut_answer e w id_param), w')
    /\ vs_visitors w' = checkOut_rows e w id_param.
Proof.
  unfold Server8.checkOut, checkOut_answer, checkOut_rows, try_catch.
  destruct (JS.parseInt id_param) as [i|]; [|eexists; split; reflexivity].
  unfold bind at 1. unfold query_if at 1.
  destruct (int32 i); cbn [negb orb]; [|eexists; split; reflexivity].
  destruct (db_fault e (n_db w)) eqn:Hdb.
  { rewrite query_fault by exact Hdb. eexists; split; reflexivity. }
  rewrite query_ok by exact Hdb. wsimpl.
  destruct (Sql.select_visitor i w) as [|v rest]; [eexists; split; reflexivity|].
  destruct (String.eqb (status v) "checked_out"); cbn [orb];
    [eexists; split; reflexivity|].
  unfold bind at 1. unfold query_if. wsimpl.
  destruct (db_fault e (S (n_db w))) eqn:Hdb2.
  { rewrite query_fault by exact Hdb2. eexists; split; reflexivity. }
  rewrite query_ok by exact Hdb2.
  unfold Sql.update_checkout_if_checked_in. wsimpl.
  fold (checked_in_hit i).
  rewrite length_filter_zero.
  destruct (existsb (checked_in_hit i) (vs_visitors w)) eqn:Hhit; cbn [negb].
  - unfold bind at 1. unfold Date_now at 1.
    unfold bind at 1. unfold checkout_mail_enabled.
    unfold bind at 1.
    destruct (JS.truthy (Some (host_email v)) && send_checkout_emails e).
    + match goal with
      | |- context [Server8.notify ?m ?t ?e0 ?w0] =>
          destruct (server8_notify_ok m t e0 w0) as (w' & Hrun & Hsame)
      end.
      rewrite Hrun. unfold ret. destruct Hsame as (Hv & _).
      eexists; split; [reflexivity|]. rewrite Hv. reflexivity.
    + eexists; split; reflexivity.
  - unfold ret. eexists; split; reflexivity.
Qed.

(** A successful answer of [Server8.checkOut] pins the run down. *)
Lemma server8_checkOut_checked_out (e : Env) (w w' : World) (id_param : string)
    (user : Principal) (t : option string) :
  Server8.checkOut id_param user e w = (Ok (json (CheckedOutBody t)), w') ->
  exists i,
    JS.parseInt id_param = Some i
    /\ existsb (checked_in_hit i) (vs_visitors w) = true
    /\ t = Some (JS.toISOString (app_clock e (n_app w)))
    /\ vs_visitors w' =
         map (fun r => if checked_in_hit i r
                       then Sql.check_out_row (db_clock e (S (n_db w))) false r
                       else r) (vs_visitors w).
Proof.
  intros Hrun.
  destruct (server8_checkOut_run e w id_param user) as (w1 & Hrun1 & Hrows).
  rewrite Hrun in Hrun1. inversion Hrun1 as [[Hans Hw]]. subst w1. clear Hrun1.
  unfold checkOut_answer in Hans. unfold checkOut_rows in Hrows.
  destruct (JS.parseInt id_param) as [i|]; [|inversion Hans].
  exists i. split; [reflexivity|].
  destruct (negb (int32 i) || db_fault e (n_db w)); [inversion Hans|].
  destruct (Sql.select_visitor i w) as [|v rest]; [inversion Hans|].
  destruct (String.eqb (status v) "checked_out"); [inversion Hans|].
  destruct (db_fault e (S (n_db w))); [inversion Hans|].
  destruct (existsb (checked_in_hit i) (vs_visitors w)); [|inversion Hans].
  inversion Hans. auto.
Qed.

Lemma rollback_quietly_ok (e : Env) (w : World) :
  exists w', Part000.rollback_quietly e w = (Ok tt, w').
Proof.
  unfold Part000.rollback_quietly, try_catch, tx_rollback.
  destruct (tx w) as [snap|]; [|eexists; reflexivity].
  destruct (db_fault e (n_db w)); eexists; reflexivity.
Qed.

(** The [catch] block of the [Part000] handlers always answers. *)
Lemma part000_catch (tag : string) (r : Response) (e : Env) (w : World) :
  exists w',
    bind Part000.rollback_quietly
         (fun _ => bind (console_error tag) (fun _ => ret r)) e w = (Ok r, w').
Proof.
  unfold bind at 1. destruct (rollback_quietly_ok e w) as (w1 & H). rewrite H.
  eexists. reflexivity.
Qed.

Ltac step_query H :=
  match type of H with
  | context [query ?s ?e ?w] =>
      let Hf := fresh "Hdb" in
      destruct (db_fault e (n_db w)) eqn:Hf;
      [ rewrite (query_fault s e w Hf) in H
      | rewrite (query_ok s e w Hf) in H ]
  end.

Ltac caught H :=
  match type of H with
  | context [bind Part000.rollback_quietly
                  (fun _ => bind (console_error ?tag) (fun _ => ret ?r)) ?e ?w] =>
      let w1 := fresh "w" in
      let Hc := fresh "Hc" in
      destruct (part000_catch tag r e w) as (w1 & Hc);
      rewrite Hc in H; inversion H
  end.

Lemma part000_notify_checkout_ok (m : Mail) (e : Env) (w : World) :
  exists w', Part000.notify_checkout m e w = (Ok tt, w')
             /\ same_tables w w'
             /\ (n_app w <= n_app w' <= S (n_app w))%nat.
Proof.
  unfold Part000.notify_checkout, try_catch, bind, build_mail, Date_now,
    sendMail_detached, console_error.
  destruct (html_fault e (n_mail w)).
  - eexists; split; [reflexivity | split; [repeat split | cbn; lia]].
  - cbn. destruct (smtp_accepts e (n_mail w));
      eexists; (split; [reflexivity | split; [repeat split | cbn; lia]]).
Qed.

Lemma logAudit_ok (uid : Z) (a tb : string) (rid : Z) (e : Env) (w : World) :
  exists w', Part000.logAudit uid a tb rid e w = (Ok tt, w')
             /\ vs_visitors w' = vs_visitors w /\ tx w' = tx w
             /\ n_app w' = n_app w /\ n_db w' = S (n_db w).
Proof.
  unfold Part000.logAudit, try_catch.
  destruct (db_fault e (n_db w)) eqn:Hdb.
  - rewrite query_fault by exact Hdb. eexists; split; [reflexivity|]. repeat split.
  - rewrite query_ok by exact Hdb. eexists; split; [reflexivity|]. repeat split.
Qed.

(** A successful answer of [Part000.checkOut] pins the run down: the time
    answered is the last reading of the process clock, the time stored is
    the engine's at the update, the third statement of the request. *)
Lemma part000_checkOut_checked_out (e : Env) (w w' : World) (id_param : string)
    (user : Principal) (t : option string) :
  Part000.checkOut id_param user e w = (Ok (json (CheckedOutBody t)), w') ->
  exists i k,
    Part000.visitor_id_of id_param = Some i
    /\ (n_app w < k)%nat /\ n_app w' = S k
    /\ t = Some (JS.toISOString (app_clock e k))
    /\ vs_visitors w' =
         map (fun r => if checked_in_hit i r
                       then Sql.check_out_row (db_clock e (S (S (n_db w)))) true r
                       else r) (vs_visitors w).
Proof.
  intros Hrun. unfold Part000.checkOut, try_catch in Hrun.
  destruct (Part000.visitor_id_of id_param) as [i|]; [|inversion Hrun].
  exists i.
  unfold bind at 1, tx_begin in Hrun.
  step_query Hrun; [caught Hrun|]. wsimpl_in Hrun.
  unfold bind at 1, query_if in Hrun.
  destruct (int32 i); [|unfold rejected in Hrun; caught Hrun].
  step_query Hrun; [caught Hrun|]. wsimpl_in Hrun.
  unfold Sql.select_visitor at 1 in Hrun. wsimpl_in Hrun.
  fold (Sql.select_visitor i w) in Hrun.
  destruct (Sql.select_visitor i w) as [|v rest].
  { unfold bind at 1 in Hrun.
    destruct (tx_rollback e _) as [[[]|msg] w1]; [inversion Hrun | caught Hrun]. }
  destruct (String.eqb (status v) "checked_out").
  { unfold bind at 1 in Hrun.
    destruct (tx_rollback e _) as [[[]|msg] w1]; [inversion Hrun | caught Hrun]. }
  unfold bind at 1 in Hrun.
  step_query Hrun; [caught Hrun|].
  unfold Sql.update_checkout_if_checked_in in Hrun. wsimpl_in Hrun.
  destruct (_ =? 0)%nat.
  { unfold bind at 1 in Hrun.
    destruct (tx_rollback e _) as [[[]|msg] w1]; [inversion Hrun | caught Hrun]. }
  unfold bind at 1, Date_now at 1 in Hrun.
  unfold bind at 1 in Hrun.
  match type of Hrun with
  | context [Part000.logAudit ?a ?b ?c ?d ?e0 ?w0] =>
      destruct (logAudit_ok a b c d e0 w0)
        as (w1 & Hlog & Hv1 & Htx1 & Happ1 & Hndb1)
  end.
  rewrite Hlog in Hrun. wsimpl_in Hv1. wsimpl_in Htx1. wsimpl_in Happ1.
  unfold bind at 1, tx_commit in Hrun.
  step_query Hrun; [caught Hrun|]. wsimpl_in Hrun.
  unfold bind at 1, checkout_mail_enabled in Hrun.
  unfold bind at 1 in Hrun.
  destruct (JS.truthy (Some (host_email v)) && send_checkout_emails e).
  - match type of Hrun with
    | context [Part000.notify_checkout ?m ?e0 ?w0] =>
        destruct (part000_notify_checkout_ok m e0 w0)
          as (w2 & Hn & (Hv2 & _) & Happ2)
    end.
    rewrite Hn in Hrun. unfold bind, Date_now, ret in Hrun.
    inversion Hrun; subst. clear Hrun.
    wsimpl_in Hv2. wsimpl_in Happ2. rewrite Happ1 in Happ2.
    exists (n_app w2). wsimpl. repeat split; try lia.
    rewrite Hv2, Hv1. reflexivity.
  - unfold bind, Date_now, ret in Hrun. inversion Hrun; subst. clear Hrun.
    exists (n_app w1). wsimpl. rewrite Happ1. repeat split; try lia.
    exact Hv1.
Qed.

Lemma checked_out_rows (i t : Z) (b : bool) (l : list Visitor) :
  Forall2 (checked_out_at i t) l
    (map (fun r => if checked_in_hit i r then Sql.check_out_row t b r else r) l).
Proof.
  induction l as [|r l IH]; cbn [map]; constructor; [|exact IH].
  unfold checked_out_at. destruct (checked_in_hit i r); [|reflexivity].
  repeat split.
Qed.

(** [Server8.checkOut] reads the process clock only once its update went
    through. *)
Lemma server8_checkOut_clock (e : Env) (w : World) (id_param : string)
    (user : Principal) :
  exists r w',
    Server8.checkOut id_param user e w = (Ok r, w')
    /\ (n_app w' <> n_app w ->
        update_went_through e w (JS.parseInt id_param) (S (n_db w))).
Proof.
  unfold Server8.checkOut, try_catch, update_went_through.
  destruct (JS.parseInt id_param) as [i|];
    [|eexists _, _; split; [reflexivity | intros H; now elim H]].
  unfold bind at 1. unfold query_if at 1.
  destruct (int32 i); [|eexists _, _; split; [reflexivity | intros H; now elim H]].
  destruct (db_fault e (n_db w)) eqn:Hdb.
  { rewrite query_fault by exact Hdb.
    eexists _, _; split; [reflexivity | intros H; now elim H]. }
  rewrite query_ok by exact Hdb. wsimpl.
  destruct (Sql.select_visitor i w) as [|v rest];
    [eexists _, _; split; [reflexivity | intros H; now elim H]|].
  destruct (String.eqb (status v) "checked_out");
    [eexists _, _; split; [reflexivity | intros H; now elim H]|].
  unfold bind at 1. unfold query_if. wsimpl.
  destruct (db_fault e (S (n_db w))) eqn:Hdb2.
  { rewrite query_fault by exact Hdb2.
    eexists _, _; split; [reflexivity | intros H; now elim H]. }
  rewrite query_ok by exact Hdb2.
  unfold Sql.update_checkout_if_checked_in. wsimpl.
  fold (checked_in_hit i).
  rewrite length_filter_zero.
  destruct (existsb (checked_in_hit i) (vs_visitors w)) eqn:Hhit; cbn [negb].
  - unfold bind at 1. unfold Date_now at 1.
    unfold bind at 1. unfold checkout_mail_enabled.
    unfold bind at 1.
    destruct (JS.truthy (Some (host_email v)) && send_checkout_emails e).
    + match goal with
      | |- context [Server8.notify ?m ?t ?e0 ?w0] =>
          destruct (server8_notify_ok m t e0 w0) as (w' & Hrun & _)
      end.
      rewrite Hrun. unfold ret.
      eexists _, _; split; [reflexivity|]. intros _. split; [reflexivity|].
      exists i. split; [reflexivity | exact Hhit].
    + unfold ret. eexists _, _; split; [reflexivity|]. intros _.
      split; [reflexivity|]. exists i. split; [reflexivity | exact Hhit].
  - unfold ret. eexists _, _; split; [reflexivity | intros H; now elim H].
Qed.

Lemma part000_catch_clock (tag : string) (r : Response) (e : Env) (w : World) :
  exists w',
    bind Part000.rollback_quietly
         (fun _ => bind (console_error tag) (fun _ => ret r)) e w = (Ok r, w')
    /\ n_app w' = n_app w.
Proof.
  unfold bind, Part000.rollback_quietly, try_catch, tx_rollback, console_error, ret.
  destruct (tx w) as [snap|]; [|eexists; split; reflexivity].
  destruct (db_fault e (n_db w)); eexists; split; reflexivity.
Qed.

Ltac caught_clock :=
  match goal with
  | |- context [bind Part000.rollback_quietly
                  (fun _ => bind (console_error ?tag) (fun _ => ret ?r)) ?e ?w] =>
      let wc := fresh "wc" in
      let Hc := fresh "Hc" in
      let Hn := fresh "Hn" in
      destruct (part000_catch_clock tag r e w) as (wc & Hc & Hn);
      rewrite Hc; exists r, wc; split; [reflexivity|]; rewrite Hn; wsimpl
  end.

Ltac query_step :=
  match goal with
  | |- context [query ?s ?e ?w] =>
      let Hf := fresh "Hdb" in
      destruct (db_fault e (n_db w)) eqn:Hf;
      [ rewrite (query_fault s e w Hf) | rewrite (query_ok s e w Hf) ]
  end.

Lemma rollback_answer_clock (w0 W : World) (e : Env) (r r5 : Response) (tag : string)
    (P : Prop) :
  n_app W = n_app w0 ->
  exists r1 w',
    (match bind tx_rollback (fun _ => ret r) e W with
     | (Ok a, w') => (Ok a, w')
     | (Throw msg, w') =>
         bind Part000.rollback_quietly
              (fun _ => bind (console_error tag) (fun _ => ret r5)) e w'
     end) = (Ok r1, w')
    /\ (n_app w' <> n_app w0 -> P).
Proof.
  intros Hn. unfold bind at 1, tx_rollback.
  destruct (tx W) as [snap|].
  - destruct (db_fault e (n_db W)).
    + caught_clock. intros H. now elim H.
    + unfold ret. eexists _, _. split; [reflexivity|]. wsimpl.
      intros H. now elim H.
  - caught_clock. intros H. now elim H.
Qed.

(** [Part000.checkOut] reads the process clock only once its update went
    through. *)
Lemma part000_checkOut_clock (e : Env) (w : World) (id_param : string)
    (user : Principal) :
  exists r w',
    Part000.checkOut id_param user e w = (Ok r, w')
    /\ (n_app w' <> n_app w ->
        update_went_through e w (Part000.visitor_id_of id_param) (S (S (n_db w)))).
Proof.
  unfold Part000.checkOut, try_catch, update_went_through.
  destruct (Part000.visitor_id_of id_param) as [i|];
    [|eexists _, _; split; [reflexivity | intros H; now elim H]].
  unfold bind at 1, tx_begin.
  query_step; [caught_clock; intros H; now elim H|]. wsimpl.
  unfold bind at 1, query_if.
  destruct (int32 i); [|unfold rejected; caught_clock; intros H; now elim H].
  query_step; [caught_clock; intros H; now elim H|]. wsimpl.
  unfold Sql.select_visitor at 1. wsimpl. fold (Sql.select_visitor i w).
  destruct (Sql.select_visitor i w) as [|v rest].
  { apply rollback_answer_clock. reflexivity. }
  destruct (String.eqb (status v) "checked_out").
  { apply rollback_answer_clock. reflexivity. }
  unfold bind at 1.
  query_step; [caught_clock; intros H; now elim H|].
  unfold Sql.update_checkout_if_checked_in. wsimpl.
  fold (checked_in_hit i). rewrite length_filter_zero.
  destruct (existsb (checked_in_hit i) (vs_visitors w)) eqn:Hhit; cbn [negb].
  2:{ apply rollback_answer_clock. reflexivity. }
  assert (Hgoal : db_fault e (S (S (n_db w))) = false
                  /\ exists i0, Some i = Some i0
                                /\ existsb (checked_in_hit i0) (vs_visitors w) = true).
  { wsimpl_in Hdb1. split; [exact Hdb1|]. exists i. split; [reflexivity | exact Hhit]. }
  unfold bind at 1, Date_now at 1.
  unfold bind at 1.
  match goal with
  | |- context [Part000.logAudit ?a ?b ?c ?d ?e0 ?w0] =>
      destruct (logAudit_ok a b c d e0 w0)
        as (w1 & Hlog & Hv1 & Htx1 & Happ1 & Hndb1)
  end.
  rewrite Hlog.
  unfold bind at 1, tx_commit.
  query_step; [caught_clock; intros _; exact Hgoal|]. wsimpl.
  unfold bind at 1, checkout_mail_enabled.
  unfold bind at 1.
  destruct (JS.truthy (Some (host_email v)) && send_checkout_emails e).
  - match goal with
    | |- context [Part000.notify_checkout ?m ?e0 ?w0] =>
        destruct (part000_notify_checkout_ok m e0 w0) as (w2 & Hn & _)
    end.
    rewrite Hn. unfold bind, Date_now, ret.
    eexists _, _. split; [reflexivity | intros _; exact Hgoal].
  - unfold bind, Date_now, ret.
    eexists _, _. split; [reflexivity | intros _; exact Hgoal].
Qed.

(** C10.  When [Server8.checkOut] or [Part000.checkOut] succeeds, the
    [checkoutTime] of the answer is the ISO form of a reading of the process
    clock (in [Server8] the first reading of the request, in [Part000] the
    last one), while every checked-in row of the visitor is stored as
    [checked_out] with the engine's clock at the update statement as its
    check-out time, and in [Server8] the answer is the same under every
    engine clock.  The reading is taken after the update: in both handlers
    a request reads the process clock at all only when its update statement
    was accepted and found a checked-in row. *)
Theorem C10_checkout_time_is_process_clock (e : Env) (w : World)
    (id_param : string) (user : Principal) :
  (forall t w',
      Server8.checkOut id_param user e w = (Ok (json (CheckedOutBody t)), w') ->
      exists i,
        JS.parseInt id_param = Some i
        /\ t = Some (JS.toISOString (app_clock e (n_app w)))
        /\ Forall2 (checked_out_at i (db_clock e (S (n_db w))))
                   (vs_visitors w) (vs_visitors w')
        /\ forall c,
             fst (Server8.checkOut id_param user (with_db_clock c e) w)
             = Ok (json (CheckedOutBody t)))
  /\ (forall r w',
        Server8.checkOut id_param user e w = (Ok r, w') ->
        n_app w' <> n_app w ->
        update_went_through e w (JS.parseInt id_param) (S (n_db w)))
  /\ (forall t w',
        Part000.checkOut id_param user e w = (Ok (json (CheckedOutBody t)), w') ->
        exists i k,
          Part000.visitor_id_of id_param = Some i
          /\ (n_app w < k)%nat /\ n_app w' = S k
          /\ t = Some (JS.toISOString (app_clock e k))
          /\ Forall2 (checked_out_at i (db_clock e (S (S (n_db w)))))
                     (vs_visitors w) (vs_visitors w'))
  /\ (forall r w',
        Part000.checkOut id_param user e w = (Ok r, w') ->
        n_app w' <> n_app w ->
        update_went_through e w (Part000.visitor_id_of id_param) (S (S (n_db w)))).
Proof.
  split; [|split; [|split]].
  - intros t w' Hrun.
    destruct (server8_checkOut_checked_out _ _ _ _ _ _ Hrun)
      as (i & Hi & Hhit & Ht & Hrows).
    exists i. split; [exact Hi|]. split; [exact Ht|]. split.
    { rewrite Hrows. apply checked_out_rows. }
    intros c.
    destruct (server8_checkOut_run (with_db_clock c e) w id_param user)
      as (w2 & Hrun2 & _).
    destruct (server8_checkOut_run e w id_param user) as (w1 & Hrun1 & _).
    rewrite Hrun2. rewrite Hrun in Hrun1. inversion Hrun1 as [[Hans Hw]].
    cbn [fst]. rewrite Hans. reflexivity.
  - intros r w' Hrun.
    destruct (server8_checkOut_clock e w id_param user) as (r1 & w1 & Hrun1 & H).
    rewrite Hrun in Hrun1. inversion Hrun1; subst. exact H.
  - intros t w' Hrun.
    destruct (part000_checkOut_checked_out _ _ _ _ _ _ Hrun)
      as (i & k & Hi & Hk & Hk' & Ht & Hrows).
    exists i, k. repeat split; auto.
    rewrite Hrows. apply checked_out_rows.
  - intros r w' Hrun.
    destruct (part000_checkOut_clock e w id_param user) as (r1 & w1 & Hrun1 & H).
    rewrite Hrun in Hrun1. inversion Hrun1; subst. exact H.
Qed.

Lemma C10_witness :
  (exists i,
      JS.parseInt "1" = Some i
      /\ Some "1970-01-01T00:00:01.000Z"
         = Some (JS.toISOString (app_clock env0 (n_app world1)))
      /\ Forall2 (checked_out_at i (db_clock env0 (S (n_db world1))))
                 (vs_visitors world1)
                 (vs_visitors (snd (Server8.checkOut "1" reception env0 world1)))
      /\ forall c,
           fst (Server8.checkOut "1" reception (with_db_clock c env0) world1)
           = Ok (json (CheckedOutBody (Some "1970-01-01T00:00:01.000Z"))))
  /\ update_went_through env0 world1 (JS.parseInt "1") (S (n_db world1))
  /\ (exists i k,
        Part000.visitor_id_of "1" = Some i
        /\ (n_app world1 < k)%nat
        /\ n_app (snd (Part000.checkOut "1" reception env0 world1)) = S k
        /\ Some "1970-01-01T00:00:01.001Z" = Some (JS.toISOString (app_clock env0 k))
        /\ Forall2 (checked_out_at i (db_clock env0 (S (S (n_db world1)))))
                   (vs_visitors world1)
                   (vs_visitors (snd (Part000.checkOut "1" reception env0 world1))))
  /\ update_went_through env0 world1 (Part000.visitor_id_of "1") (S (S (n_db world1))).
Proof.
  split; [|split; [|split]].
  - apply (proj1 (C10_checkout_time_is_process_clock env0 world1 "1" reception)
             (Some "1970-01-01T00:00:01.000Z")
             (snd (Server8.checkOut "1" reception env0 world1))).
    vm_compute. reflexivity.
  - apply (proj1 (proj2 (C10_checkout_time_is_process_clock env0 world1 "1" reception))
             (json (CheckedOutBody (Some "1970-01-01T00:00:01.000Z")))
             (snd (Server8.checkOut "1" reception env0 world1))).
    + vm_compute. reflexivity.
    + vm_compute. discriminate.
  - apply (proj1 (proj2 (proj2 (C10_checkout_time_is_process_clock env0 world1 "1"
                                  reception)))
             (Some "1970-01-01T00:00:01.001Z")
             (snd (Part000.checkOut "1" reception env0 world1))).
    vm_compute. reflexivity.
  - apply (proj2 (proj2 (proj2 (C10_checkout_time_is_process_clock env0 world1 "1"
                                  reception)))
             (json (CheckedOutBody (Some "1970-01-01T00:00:01.001Z")))
             (snd (Part000.checkOut "1" reception env0 world1))).
    + vm_compute. reflexivity.
    + vm_compute. discriminate.
Defined.

(** C1.  The first iteration ([Server1.checkOut]) updates the row whatever
    its status: checking Jane out twice succeeds twice, and the second
    update replaces the stored check-out time 5000 by 5001. *)
Theorem C1_server1_second_checkout_overwrites :
  fst (Server1.checkOut 1 reception env0 world1) = Ok (json (CheckedOutBody None))
  /\ map checkout_time
       (vs_visitors (snd (Server1.checkOut 1 reception env0 world1)))
     = [Some 5000]
  /\ fst (Server1.checkOut 1 reception env0
            (snd (Server1.checkOut 1 reception env0 world1)))
     = Ok (json (CheckedOutBody None))
  /\ map checkout_time
       (vs_visitors
          (snd (Server1.checkOut 1 reception env0
                  (snd (Server1.checkOut 1 reception env0 world1)))))
     = [Some 5001].
Proof. vm_compute. repeat split. Qed.

(** C2.  The first iteration ([Server1.createVisitor]) awaits the mail
    inside the handler: with the mail server refusing, the same request is
    answered 500 although its row was inserted and stays. *)
Theorem C2_server1_mail_failure_is_answered_500 :
  http_status_of (fst (Server1.createVisitor jane_with_photo reception env0 world0))
    = Some 200
  /\ fst (Server1.createVisitor jane_with_photo reception env_smtp_down world0)
     = Ok (Server1.internal "SMTP")
  /\ map id (vs_visitors
               (snd (Server1.createVisitor jane_with_photo reception
                       env_smtp_down world0)))
     = [1].
Proof. vm_compute. repeat split. Qed.

(** C7.  In [Server8.listVisitors] the text handed to [replace] does not
    occur in the statement, so the count statement is the listing itself
    and [total] is 0 with Jane on the page; in [Part000.listVisitors] the
    count travels with the rows, so a page past the end reports 0 for a
    table of one. *)
Theorem C7_total_is_not_the_count :
  JS.replace Server8.count_pattern Sql.count_select Server8.select_head
    = Server8.select_head
  /\ fst (Server8.listVisitors no_filter reception env0 world1)
     = Ok (json (ListBody [VisitorRow jane_row] 1 50 0 0))
  /\ fst (Part000.listVisitors no_filter reception env0 world1)
     = Ok (json (ListBody [VisitorRow jane_row] 1 50 1 1))
  /\ fst (Part000.listVisitors second_page reception env0 world1)
     = Ok (json (ListBody [] 2 50 0 0)).
Proof. vm_compute. repeat split. Qed.

(** C9.  [Server8.createVisitor] does not look at the mobile number: a
    nine-digit and a lettered number are both accepted and stored, where
    [Part000.createVisitor] answers 400 to both. *)
Theorem C9_server8_accepts_any_mobile :
  http_status_of (fst (Server8.createVisitor jane_nine_digits None env0 world0))
    = Some 200
  /\ map mobile (vs_visitors (snd (Server8.createVisitor jane_nine_digits None
                                     env0 world0)))
     = [Some "123456789"]
  /\ http_status_of (fst (Server8.createVisitor jane_lettered None env0 world0))
     = Some 200
  /\ fst (Part000.createVisitor jane_nine_digits None env0 world0)
     = Ok (fail 400 "Mobile number must be 10 digits" "INVALID_MOBILE")
  /\ fst (Part000.createVisitor jane_lettered None env0 world0)
     = Ok (fail 400 "Mobile number must be 10 digits" "INVALID_MOBILE").
Proof. vm_compute. repeat split. Qed.

(** ** What the requests of [Part000] may do to the stored rows *)

Section Preservation.

Variable P : Visitor -> Visitor -> Prop.
Hypothesis P_refl : forall r, P r r.
Hypothesis P_trans : forall a b c, P a b -> P b c -> P a c.

Lemma Forall2_refl_P (l : list Visitor) : Forall2 P l l.
Proof. induction l; constructor; auto. Qed.

Lemma Forall2_trans_P (a b c : list Visitor) :
  Forall2 P a b -> Forall2 P b c -> Forall2 P a c.
Proof.
  intros Hab. revert c. induction Hab; intros c Hbc; inversion Hbc; subst;
    constructor; eauto.
Qed.

Lemma keeps_refl (T : list Visitor) : keeps P T T.
Proof. exists T, []. split; [now rewrite app_nil_r | apply Forall2_refl_P]. Qed.

Lemma keeps_trans (T1 T2 T3 : list Visitor) :
  keeps P T1 T2 -> keeps P T2 T3 -> keeps P T1 T3.
Proof.
  intros (r2 & x2 & -> & H12) (r3 & x3 & -> & H23).
  apply Forall2_app_inv_l in H23 as (r3a & r3b & Ha & Hb & ->).
  exists r3a, (r3b ++ x3)%list. split; [now rewrite app_assoc|].
  eapply Forall2_trans_P; eauto.
Qed.

Lemma keeps_app (T extra : list Visitor) : keeps P T (T ++ extra)%list.
Proof. exists T, extra. split; [reflexivity | apply Forall2_refl_P]. Qed.

Lemma keeps_map (f : Visitor -> Visitor) (T : list Visitor) :
  (forall r, P r (f r)) -> keeps P T (map f T).
Proof.
  intros Hf. exists (map f T), []. split; [now rewrite app_nil_r|].
  induction T; simpl; constructor; auto.
Qed.

Lemma preserves_ret {A} (a : A) : preserves P (ret a).
Proof. intros T0 e w H. exact H. Qed.

Lemma preserves_throw {A} (msg : string) : preserves P (@throw A msg).
Proof. intros T0 e w H. exact H. Qed.

Lemma preserves_bind {A B} (m : M A) (k : A -> M B) :
  preserves P m -> (forall a, preserves P (k a)) -> preserves P (bind m k).
Proof.
  intros Hm Hk T0 e w H. unfold bind. specialize (Hm T0 e w H).
  destruct (m e w) as [[a|msg] w1]; cbn [snd] in *; [apply Hk; exact Hm | exact Hm].
Qed.

Lemma preserves_try_catch {A} (m : M A) (h : string -> M A) :
  preserves P m -> (forall msg, preserves P (h msg)) -> preserves P (try_catch m h).
Proof.
  intros Hm Hh T0 e w H. unfold try_catch. specialize (Hm T0 e w H).
  destruct (m e w) as [[a|msg] w1]; cbn [snd] in *; [exact Hm | apply Hh; exact Hm].
Qed.

Lemma Inv_frame (T0 : list Visitor) (w w' : World) :
  vs_visitors w' = vs_visitors w -> tx w' = tx w -> Inv P T0 w -> Inv P T0 w'.
Proof. unfold Inv. intros -> ->. auto. Qed.

Lemma preserves_query {A} (stmt : Z -> World -> A * World) :
  (forall now w, keeps P (vs_visitors w) (vs_visitors (snd (stmt now w)))
                 /\ tx (snd (stmt now w)) = tx w) ->
  preserves P (query stmt).
Proof.
  intros Hs T0 e w [Hk Ht]. unfold query.
  destruct (db_fault e (n_db w)); [split; auto|].
  destruct (Hs (db_clock e (n_db w)) w) as [Hk' Ht'].
  destruct (stmt (db_clock e (n_db w)) w) as [a w1]. cbn [snd] in *.
  split; wsimpl.
  - eapply keeps_trans; eauto.
  - rewrite Ht'. exact Ht.
Qed.

Lemma preserves_rejected {A} : preserves P (@rejected A).
Proof. intros T0 e w H. exact H. Qed.

Lemma preserves_query_if {A} (ok : bool) (stmt : Z -> World -> A * World) :
  (forall now w, keeps P (vs_visitors w) (vs_visitors (snd (stmt now w)))
                 /\ tx (snd (stmt now w)) = tx w) ->
  preserves P (query_if ok stmt).
Proof.
  intros Hs. unfold query_if. destruct ok;
    [now apply preserves_query | apply preserves_rejected].
Qed.

Lemma preserves_read {A} (f : World -> A) :
  preserves P (query (fun _ w => (f w, w))).
Proof. apply preserves_query. intros now w. split; [apply keeps_refl | reflexivity]. Qed.

Lemma preserves_tx_begin : preserves P tx_begin.
Proof.
  intros T0 e w [Hk Ht]. unfold tx_begin, query.
  destruct (db_fault e (n_db w)); [split; auto|].
  split; wsimpl; [exact Hk|]. intros snap Hs. inversion Hs; subst. exact Hk.
Qed.

Lemma preserves_tx_commit : preserves P tx_commit.
Proof.
  intros T0 e w [Hk Ht]. unfold tx_commit, query.
  destruct (db_fault e (n_db w)); [split; auto|].
  split; wsimpl; [exact Hk|]. intros snap Hs. discriminate.
Qed.

Lemma preserves_tx_rollback : preserves P tx_rollback.
Proof.
  intros T0 e w [Hk Ht]. unfold tx_rollback.
  destruct (tx w) as [snap|] eqn:Htx; [|split; [exact Hk|]; cbn [snd]; rewrite Htx; discriminate].
  destruct (db_fault e (n_db w)); (split; wsimpl; [apply Ht; reflexivity | discriminate]).
Qed.

Lemma preserves_Date_now : preserves P Date_now.
Proof. intros T0 e w H. exact H. Qed.

Lemma preserves_Math_random36 : preserves P Math_random36.
Proof. intros T0 e w H. exact H. Qed.

Lemma preserves_console_error (tag : string) : preserves P (console_error tag).
Proof. intros T0 e w H. exact H. Qed.

Lemma preserves_bcrypt (pw h : string) : preserves P (bcrypt_compare_ pw h).
Proof. intros T0 e w H. exact H. Qed.

Lemma preserves_QRCode (t : string) : preserves P (QRCode_toDataURL t).
Proof.
  intros T0 e w H. unfold QRCode_toDataURL. destruct (qr_toDataURL e t); exact H.
Qed.

Lemma preserves_build_mail (m : Mail) : preserves P (build_mail m).
Proof.
  intros T0 e w H. unfold build_mail. destruct (html_fault e (n_mail w)); exact H.
Qed.

Lemma preserves_sendMail_detached (m : Mail) : preserves P (sendMail_detached m).
Proof.
  intros T0 e w H. unfold sendMail_detached. destruct (smtp_accepts e (n_mail w)); exact H.
Qed.

Lemma preserves_checkout_mail_enabled : preserves P checkout_mail_enabled.
Proof. intros T0 e w H. exact H. Qed.

Ltac pstep :=
  first
    [ apply preserves_ret
    | apply preserves_throw
    | apply preserves_rejected
    | apply preserves_Date_now
    | apply preserves_Math_random36
    | apply preserves_console_error
    | apply preserves_bcrypt
    | apply preserves_QRCode
    | apply preserves_build_mail
    | apply preserves_sendMail_detached
    | apply preserves_checkout_mail_enabled
    | apply preserves_tx_begin
    | apply preserves_tx_commit
    | apply preserves_tx_rollback
    | apply preserves_read
    | apply preserves_bind; [|intros ?]
    | apply preserves_try_catch; [|intros ?]
    | match goal with
      | |- preserves _ (if ?c then _ else _) => destruct c
      | |- preserves _ (match ?x with _ => _ end) => destruct x
      end ].

Lemma preserves_logAudit (uid : Z) (a tb : string) (rid : Z) :
  preserves P (Part000.logAudit uid a tb rid).
Proof.
  unfold Part000.logAudit. apply preserves_try_catch; [|intros; pstep].
  apply preserves_query. intros now w. split; [apply keeps_refl | reflexivity].
Qed.

Lemma preserves_rollback_quietly : preserves P Part000.rollback_quietly.
Proof. unfold Part000.rollback_quietly. repeat pstep. Qed.

Lemma preserves_notify_checkin (m : Mail) (ph : option string) :
  preserves P (Part000.notify_checkin m ph).
Proof. unfold Part000.notify_checkin. repeat pstep. Qed.

Lemma preserves_notify_checkout (m : Mail) :
  preserves P (Part000.notify_checkout m).
Proof. unfold Part000.notify_checkout. repeat pstep. Qed.

Lemma preserves_touch (uid : Z) : preserves P (query (Sql.touch_last_login uid)).
Proof. apply preserves_query. intros now w. split; [apply keeps_refl | reflexivity]. Qed.

Lemma preserves_insert (b : bool) (n : string) (mo h : option string) (ma : string)
    (pu ph q by_ : option string) :
  preserves P (query (Sql.insert_visitor b n mo h ma pu ph q by_)).
Proof. apply preserves_query. intros now w. split; [apply keeps_app | reflexivity]. Qed.

Ltac pstep2 :=
  first
    [ apply preserves_logAudit
    | apply preserves_rollback_quietly
    | apply preserves_notify_checkin
    | apply preserves_notify_checkout
    | apply preserves_touch
    | apply preserves_insert
    | pstep ].

Lemma preserves_login (u p : option string) : preserves P (Part000.login u p).
Proof. unfold Part000.login. cbv zeta. repeat pstep2. Qed.

Lemma preserves_createVisitor (f : VisitorForm) (u : option Principal) :
  preserves P (Part000.createVisitor f u).
Proof. unfold Part000.createVisitor. cbv zeta. repeat pstep2. Qed.

Lemma preserves_listVisitors (q : ListQuery) (u : Principal) :
  preserves P (Part000.listVisitors q u).
Proof.
  unfold Part000.listVisitors. cbv zeta. repeat pstep2.
  all: unfold query_if; repeat pstep2.
Qed.

Lemma preserves_getVisitor (i : string) (u : Principal) :
  preserves P (Part000.getVisitor i u).
Proof.
  unfold Part000.getVisitor. repeat pstep2.
  all: unfold query_if; repeat pstep2.
Qed.

Lemma preserves_selects (n : nat) : preserves P (Part000.selects n).
Proof. induction n; simpl; repeat pstep2. exact IHn. Qed.

Lemma preserves_report (n : nat) : preserves P (Part000.report n).
Proof. unfold Part000.report. repeat pstep2. apply preserves_selects. Qed.

Hypothesis P_checks_out :
  forall now b r, String.eqb (status r) "checked_in" = true ->
                  P r (Sql.check_out_row now b r).

Lemma preserves_update_checkout (b : bool) (i : Z) :
  preserves P (query (Sql.update_checkout_if_checked_in b i)).
Proof.
  apply preserves_query. intros now w. split; [|reflexivity].
  unfold Sql.update_checkout_if_checked_in. wsimpl. apply keeps_map.
  intros r. destruct ((id r =? i) && (status r =? "checked_in")%string) eqn:H;
    [|apply P_refl].
  apply andb_prop in H as [_ H]. now apply P_checks_out.
Qed.

Lemma preserves_checkOut (i : string) (u : Principal) :
  preserves P (Part000.checkOut i u).
Proof.
  unfold Part000.checkOut. repeat pstep2.
  all: unfold query_if; repeat first [apply preserves_update_checkout | pstep2].
Qed.

Hypothesis P_edits :
  forall r name mob host mail purp now,
    P r (mkVisitor (id r) name mob host mail purp (photo_base64 r)
                   (qr_code_data r) (checkin_time r) (checkout_time r)
                   (status r) (created_by r) (created_at r) (Some now)).

Lemma preserves_update_visitor (i : Z) (name : string) (mob host : option string)
    (mail : string) (purp : option string) :
  preserves P (query (Sql.update_visitor i name mob host mail purp)).
Proof.
  apply preserves_query. intros now w. split; [|reflexivity].
  unfold Sql.update_visitor. wsimpl. apply keeps_map.
  intros r. destruct (id r =? i); [apply P_edits | apply P_refl].
Qed.

Lemma preserves_updateVisitor (i : string) (f : VisitorForm) (u : Principal) :
  preserves P (Part000.updateVisitor i f u).
Proof.
  unfold Part000.updateVisitor, Part000.requireRole.
  destruct (existsb _ _); [|apply preserves_ret].
  cbv zeta. repeat pstep2.
  all: unfold query_if; repeat first [apply preserves_update_visitor | pstep2].
Qed.

End Preservation.

Lemma same_record_refl (r : Visitor) : same_record r r.
Proof. repeat split. Qed.

Lemma same_record_trans (a b c : Visitor) :
  same_record a b -> same_record b c -> same_record a c.
Proof.
  unfold same_record. intros (a1 & a2 & a3 & a4 & a5 & a6) (b1 & b2 & b3 & b4 & b5 & b6).
  repeat split; congruence.
Qed.

Lemma checked_out_step_refl (r : Visitor) : checked_out_step r r.
Proof. repeat split. now left. Qed.

Lemma checked_out_step_trans (a b c : Visitor) :
  checked_out_step a b -> checked_out_step b c -> checked_out_step a c.
Proof.
  intros (Hr1 & Hd1 & H1) (Hr2 & Hd2 & H2).
  split; [eapply same_record_trans; eauto|].
  split.
  { unfold same_details in *. destruct Hd1 as (a1 & a2 & a3 & a4 & a5).
    destruct Hd2 as (b1 & b2 & b3 & b4 & b5). repeat split; congruence. }
  destruct H1 as [->|(Ha & Hb & Hc)]; [exact H2|].
  destruct H2 as [->|(Ha' & Hb' & Hc')]; [right; auto|].
  rewrite Hb in Ha'. discriminate.
Qed.

Lemma checked_out_step_checks_out (now : Z) (b : bool) (r : Visitor) :
  String.eqb (status r) "checked_in" = true ->
  checked_out_step r (Sql.check_out_row now b r).
Proof.
  intros H. apply String.eqb_eq in H.
  split; [repeat split|]. split; [repeat split|].
  right. repeat split; [exact H | discriminate].
Qed.

Lemma edited_step_refl (r : Visitor) : edited_step r r.
Proof. repeat split. Qed.

Lemma edited_step_trans (a b c : Visitor) :
  edited_step a b -> edited_step b c -> edited_step a c.
Proof.
  intros (Hr1 & Hs1 & Hs1') (Hr2 & Hs2 & Hs2').
  split; [eapply same_record_trans; eauto|]. split; congruence.
Qed.

Lemma preserves_handle_allowed (req : Part000.Request) :
  preserves (allowed req) (Part000.handle req).
Proof.
  destruct req; cbn [allowed Part000.handle].
  - apply preserves_login; congruence.
  - apply preserves_createVisitor; congruence.
  - apply preserves_checkOut;
      [apply checked_out_step_refl | apply checked_out_step_trans
      | apply checked_out_step_checks_out].
  - apply preserves_listVisitors; congruence.
  - apply preserves_getVisitor; congruence.
  - apply preserves_updateVisitor;
      [apply edited_step_refl | apply edited_step_trans | repeat split].
  - apply preserves_report; congruence.
Qed.

Lemma preserves_handle_same_record (req : Part000.Request) :
  preserves same_record (Part000.handle req).
Proof.
  pose proof same_record_refl as R. pose proof same_record_trans as T.
  destruct req; cbn [Part000.handle].
  - now apply preserves_login.
  - now apply preserves_createVisitor.
  - apply preserves_checkOut; auto. repeat split.
  - now apply preserves_listVisitors.
  - now apply preserves_getVisitor.
  - apply preserves_updateVisitor; auto. repeat split.
  - now apply preserves_report.
Qed.

Lemma Inv_start (P : Visitor -> Visitor -> Prop) (w : World) :
  (forall r, P r r) -> tx w = None -> Inv P (vs_visitors w) w.
Proof.
  intros R Htx. split; [now apply keeps_refl|]. rewrite Htx. discriminate.
Qed.

Lemma allowed_refl (req : Part000.Request) (r : Visitor) : allowed req r r.
Proof.
  destruct req; cbn [allowed]; try reflexivity;
    [apply checked_out_step_refl | apply edited_step_refl].
Qed.

(** C6, amended.  In [Part000], a request answered with no transaction
    left open keeps every stored row in place: no row is deleted, and the
    identifier, QR payload, photo, check-in time and creator columns of a
    row never change.  A check-out leaves a row untouched or moves it from
    [checked_in] to [checked_out] with a check-out time; an update
    ([PUT /api/visitors/:id]) may rewrite the name, mobile, host, host email
    and purpose of a row but not its state; every other request leaves the
    rows as they are. *)
Theorem C6_rows_are_kept_and_change_by_checkout_or_update
    (req : Part000.Request) (e : Env) (w : World) :
  tx w = None ->
  keeps (allowed req) (vs_visitors w) (vs_visitors (snd (Part000.handle req e w))).
Proof.
  intros Htx.
  destruct (preserves_handle_allowed req (vs_visitors w) e w) as [Hkeeps _];
    [|exact Hkeeps].
  apply Inv_start; [apply allowed_refl | exact Htx].
Qed.

Lemma serve_keeps_records (reqs : list Part000.Request) (e : Env)
    (T0 : list Visitor) (w : World) :
  Inv same_record T0 w -> Inv same_record T0 (serve reqs e w).
Proof.
  revert w. induction reqs as [|r reqs IH]; intros w H; simpl; [exact H|].
  apply IH. now apply preserves_handle_same_record.
Qed.

Lemma C6_witness :
  keeps edited_step (vs_visitors world1)
    (vs_visitors
       (snd (Part000.handle (Part000.UpdateVisitor "1" rename_to_eve reception)
               env0 world1))).
Proof.
  apply (C6_rows_are_kept_and_change_by_checkout_or_update
           (Part000.UpdateVisitor "1" rename_to_eve reception) env0 world1).
  reflexivity.
Defined.

(** C6, as stated, fails in [Part000]: an update, which is no check-out,
    renames Jane's stored row to Eve. *)
Lemma C6_counterexample :
  ~ only_checkout_mutates (Part000.UpdateVisitor "1" rename_to_eve reception)
      env0 world1.
Proof.
  intros H. destruct H as (rows & extra & Heq & Hall); [discriminate|].
  assert (Hname : map visitor_name
            (vs_visitors
               (snd (Part000.handle
                       (Part000.UpdateVisitor "1" rename_to_eve reception)
                       env0 world1)))
          = ["Eve"]) by (vm_compute; reflexivity).
  rewrite Heq in Hname. cbn [vs_visitors world1] in Hall.
  inversion Hall as [|a b l l' Hab Hl]; subst. inversion Hl; subst.
  cbn in Hname. inversion Hname.
Qed.

(* ================================================================== *)
(** * Further properties of the code *)
(* ================================================================== *)

(** ** [calculateVisitDuration] *)

Section Duration.

Import Server8Util.



(** X2.  For a check-out before the check-in the hours are dropped:
    [calculateVisitDuration] prints minutes only, between -60 and 0,
    whatever the distance of the two times. *)
Theorem X2_duration_of_negative_visit (checkin checkout : Z) :
  checkout < checkin ->
  -60 <= duration_minutes (checkout - checkin) <= 0
  /\ calculateVisitDuration checkin checkout
     = JS.string_of_Z (duration_minutes (checkout - checkin)) ++ " minute".
Proof.
  intros Hlt. set (d := checkout - checkin). assert (Hd : d < 0) by (unfold d; lia).
  assert (Hm : -60 <= duration_minutes d <= 0).
  { unfold duration_minutes.
    change (1000 * 60 * 60) with 3600000. change (1000 * 60) with 60000.
    pose proof (Z.rem_bound_pos_neg d 3600000 ltac:(lia) ltac:(lia)) as Hr.
    split.
    - apply Z.div_le_lower_bound; lia.
    - apply Z.div_le_upper_bound; lia. }
  split; [exact Hm|].
  unfold calculateVisitDuration. fold d.
  assert (Hh : duration_hours d < 0).
  { unfold duration_hours. apply Z.div_lt_upper_bound; lia. }
  destruct (0 <? duration_hours d) eqn:E; [apply Z.ltb_lt in E; lia|].
  unfold plural. destruct (1 <? duration_minutes d) eqn:E2; [apply Z.ltb_lt in E2; lia|].
  reflexivity.
Qed.

Lemma X2_witness :
  -60 <= duration_minutes (0 - 7200000) <= 0
  /\ calculateVisitDuration 7200000 0
     = JS.string_of_Z (duration_minutes (0 - 7200000)) ++ " minute".
Proof. apply (X2_duration_of_negative_visit 7200000 0). lia. Defined.

End Duration.

(** ** The export *)

Section CsvExport.

Import Server8Util Csv.

Lemma app_assoc_s (a b c : string) : (a ++ b) ++ c = a ++ (b ++ c).
Proof. induction a as [|x a IH]; simpl; [reflexivity | now rewrite IH]. Qed.

Lemma app_nil_r_s (a : string) : a ++ EmptyString = a.
Proof. induction a as [|x a IH]; simpl; [reflexivity | now rewrite IH]. Qed.

Lemma field_end_not_quote (rest : string) :
  field_end rest ->
  match rest with
  | String c2 rest2 =>
      if Ascii.eqb c2 JS.dquote
      then JS.cons_to JS.dquote (read_quoted rest2)
      else Some (EmptyString, rest)
  | EmptyString => Some (EmptyString, EmptyString)
  end = Some (EmptyString, rest).
Proof.
  intros [->|(c & r & -> & [->| ->])]; reflexivity.
Qed.

Lemma read_quoted_double (s rest : string) :
  field_end rest ->
  read_quoted (double_quotes s ++ String JS.dquote rest) = Some (s, rest).
Proof.
  intros Hrest. induction s as [|c s IH].
  - cbn [double_quotes append read_quoted]. rewrite Ascii.eqb_refl.
    now apply field_end_not_quote.
  - cbn [double_quotes]. destruct (Ascii.eqb c JS.dquote) eqn:E.
    + apply Ascii.eqb_eq in E. subst c. cbn [append read_quoted].
      rewrite !Ascii.eqb_refl. rewrite IH. reflexivity.
    + cbn [append read_quoted]. rewrite E. rewrite IH. reflexivity.
Qed.

Lemma read_raw_end (rest : string) :
  field_end rest -> read_raw rest = Some (EmptyString, rest).
Proof. intros [->|(c & r & -> & [->| ->])]; reflexivity. Qed.

Lemma read_raw_plain (s rest : string) :
  plain s = true -> field_end rest ->
  read_raw (s ++ rest) = Some (s, rest).
Proof.
  intros Hs Hrest. induction s as [|c s IH].
  - now apply read_raw_end.
  - cbn [plain] in Hs. apply andb_prop in Hs as [Hc Hs].
    unfold plain_char in Hc. apply andb_prop in Hc as [Hc Hc3].
    apply andb_prop in Hc as [Hc1 Hc2].
    apply negb_true_iff in Hc1, Hc2, Hc3.
    cbn [append read_raw]. rewrite Hc1, Hc2, Hc3. cbn [orb].
    rewrite (IH Hs). reflexivity.
Qed.

Lemma read_field_render (f : Field) (rest : string) :
  well_formed f = true -> field_end rest ->
  read_field (render f ++ rest) = Some (value f, rest).
Proof.
  intros Hwf Hrest. destruct f as [s|s]; cbn [render value].
  - unfold quoted.
    assert (Hq : JS.or_else (Some s) EmptyString = s) by (destruct s; reflexivity).
    rewrite Hq. cbn [append read_field]. rewrite Ascii.eqb_refl.
    rewrite app_assoc_s. cbn [append]. now apply read_quoted_double.
  - cbn [well_formed] in Hwf.
    destruct s as [|c s].
    + cbn [append].
      destruct Hrest as [->|(c & r & -> & [->| ->])]; reflexivity.
    + change (String c s ++ rest) with (String c (s ++ rest)).
      cbn [read_field].
      pose proof Hwf as Hwf'. cbn [plain] in Hwf'.
      apply andb_prop in Hwf' as [Hc _]. unfold plain_char in Hc.
      apply andb_prop in Hc as [Hc _]. apply andb_prop in Hc as [_ Hc2].
      apply negb_true_iff in Hc2. rewrite Hc2.
      change (String c (s ++ rest)) with (String c s ++ rest).
      now rewrite read_raw_plain.
Qed.

Lemma join_cons (sep x : string) (l : list string) :
  l <> [] -> join sep (x :: l) = x ++ sep ++ join sep l.
Proof. destruct l; [congruence | reflexivity]. Qed.

Lemma read_record_join (fields : list Field) (tail : string) :
  fields <> [] ->
  forallb well_formed fields = true ->
  tail = EmptyString \/ (exists rest, tail = String LF rest) ->
  forall fuel, (List.length fields <= fuel)%nat ->
  read_record fuel (join "," (map render fields) ++ tail)
  = Some (map value fields, after_line tail).
Proof.
  intros Hne Hwf Htail. induction fields as [|f fields IH]; [congruence|].
  intros fuel Hfuel. cbn [forallb] in Hwf. apply andb_prop in Hwf as [Hf Hwf].
  destruct fuel as [|fuel]; [simpl in Hfuel; lia|].
  destruct fields as [|g fields].
  - cbn [map join read_record].
    rewrite read_field_render.
    + destruct Htail as [->|(rest & ->)]; reflexivity.
    + exact Hf.
    + destruct Htail as [->|(rest & ->)]; [now left|].
      right. exists LF, rest. auto.
  - cbn [map]. rewrite join_cons by discriminate.
    rewrite !app_assoc_s.
    cbn [read_record].
    rewrite read_field_render;
      [|exact Hf|right; eexists _, _; split; [reflexivity | now left]].
    cbn [append]. rewrite Ascii.eqb_refl.
    change (render g :: map render fields) with (map render (g :: fields)).
    rewrite IH; [reflexivity | discriminate | exact Hwf | simpl in *; lia].
Qed.

Lemma length_join (sep : string) (l : list string) :
  sep <> EmptyString ->
  (List.length l <= S (String.length (join sep l)))%nat.
Proof.
  intros Hsep. induction l as [|x l IH]; [simpl; lia|].
  destruct l as [|y l]; [simpl; lia|].
  rewrite join_cons by discriminate.
  rewrite !length_append. destruct sep; [congruence|]. simpl in *. lia.
Qed.

Lemma line_nonempty (fields : list Field) :
  (2 <= List.length fields)%nat -> line fields <> EmptyString.
Proof.
  destruct fields as [|f [|g fields]]; cbn [List.length]; try lia.
  intros _. unfold line. cbn [map]. rewrite join_cons by discriminate.
  destruct (render f); discriminate.
Qed.

Lemma read_records_lines (lines : list (list Field)) :
  lines <> [] ->
  Forall (fun fields => (2 <= List.length fields)%nat
                        /\ forallb well_formed fields = true) lines ->
  forall fuel, (List.length lines <= fuel)%nat ->
  read_records fuel (join newline (map line lines))
  = Some (map (map value) lines).
Proof.
  induction lines as [|fields lines IH]; [congruence|].
  intros _ Hall fuel Hfuel. inversion Hall as [|? ? [Hlen Hwf] Hall']; subst.
  destruct fuel as [|fuel]; [simpl in Hfuel; lia|].
  assert (Hne : fields <> []) by (destruct fields; [simpl in Hlen; lia | discriminate]).
  destruct lines as [|fields2 lines].
  - cbn [map join read_records].
    assert (Hlen' : (List.length fields <= S (String.length (line fields)))%nat).
    { pose proof (length_join "," (map render fields) ltac:(discriminate)) as H.
      rewrite length_map in H. exact H. }
    pose proof (read_record_join fields EmptyString Hne Hwf (or_introl eq_refl)
                  _ Hlen') as Hrec.
    rewrite app_nil_r_s in Hrec. fold (line fields) in Hrec.
    rewrite Hrec. reflexivity.
  - cbn [map]. rewrite join_cons by discriminate.
    change (line fields2 :: map line lines) with (map line (fields2 :: lines)).
    assert (HR : join newline (map line (fields2 :: lines)) <> EmptyString).
    { inversion Hall' as [|? ? [Hlen2 _] _]; subst.
      pose proof (line_nonempty fields2 Hlen2) as Hl.
      cbn [map]. destruct lines as [|fields3 lines]; [exact Hl|].
      rewrite join_cons by discriminate.
      destruct (line fields2); [now elim Hl | discriminate]. }
    remember (join newline (map line (fields2 :: lines))) as R eqn:HeqR.
    change (newline ++ R) with (String LF R).
    cbn [read_records].
    assert (Hlen' : (List.length fields
                     <= S (String.length (line fields ++ String LF R)))%nat).
    { pose proof (length_join "," (map render fields) ltac:(discriminate)) as H.
      rewrite length_map in H. rewrite length_append. unfold line. lia. }
    pose proof (read_record_join fields (String LF R) Hne Hwf
                  (or_intror (ex_intro _ R eq_refl)) _ Hlen') as Hrec.
    fold (line fields) in Hrec. rewrite Hrec. cbn [after_line].
    destruct R as [|c rest]; [now elim HR|].
    rewrite IH; [reflexivity | discriminate | exact Hall' |].
    simpl in *. lia.
Qed.

Lemma plain_app (a b : string) : plain (a ++ b) = plain a && plain b.
Proof. induction a as [|x a IH]; simpl; [reflexivity|]. now rewrite IH, andb_assoc. Qed.

Lemma plain_uint (d : Decimal.uint) : plain (NilEmpty.string_of_uint d) = true.
Proof. induction d; simpl; auto. Qed.

Lemma plain_string_of_Z (z : Z) : plain (JS.string_of_Z z) = true.
Proof.
  unfold JS.string_of_Z, NilZero.string_of_int.
  destruct (Z.to_int z) as [d|d]; unfold NilZero.string_of_uint.
  - destruct d; simpl; auto using plain_uint.
  - destruct d; simpl; auto using plain_uint.
Qed.

Lemma plain_digit_char (n : Z) : plain_char (JS.digit_char (n mod 10)) = true.
Proof.
  pose proof (Z.mod_pos_bound n 10 ltac:(lia)) as Hb.
  assert (H : n mod 10 = 0 \/ n mod 10 = 1 \/ n mod 10 = 2 \/ n mod 10 = 3
              \/ n mod 10 = 4 \/ n mod 10 = 5 \/ n mod 10 = 6 \/ n mod 10 = 7
              \/ n mod 10 = 8 \/ n mod 10 = 9) by lia.
  repeat (destruct H as [H|H]; [rewrite H; reflexivity|]).
  rewrite H. reflexivity.
Qed.

Lemma plain_pad_digits (w : nat) (n : Z) (acc : string) :
  plain acc = true -> plain (JS.pad_digits w n acc) = true.
Proof.
  revert n acc. induction w as [|w IH]; intros n acc Hacc; simpl; [exact Hacc|].
  apply IH. cbn [plain]. rewrite plain_digit_char. exact Hacc.
Qed.

Lemma plain_pad (w : nat) (n : Z) : plain (JS.pad w n) = true.
Proof. now apply plain_pad_digits. Qed.

Lemma plain_toISOString (t : Z) : plain (JS.toISOString t) = true.
Proof.
  unfold JS.toISOString.
  destruct (JS.civil_from_days (t / 86400000)) as [[y m] d].
  repeat rewrite plain_app. repeat rewrite plain_pad.
  destruct ((0 <=? y) && (y <=? 9999)).
  - rewrite plain_pad. reflexivity.
  - rewrite plain_app, plain_pad. destruct (y <? 0); reflexivity.
Qed.

Lemma or_else_idem (v : option string) :
  JS.or_else (Some (JS.or_else v EmptyString)) EmptyString = JS.or_else v EmptyString.
Proof. destruct v as [[|c s]|]; reflexivity. Qed.

Lemma or_else_some (s : string) : JS.or_else (Some s) EmptyString = s.
Proof. destruct s; reflexivity. Qed.

Lemma quoted_or_else (v : option string) :
  quoted v = quoted (Some (JS.or_else v EmptyString)).
Proof. unfold quoted. now rewrite or_else_idem. Qed.

Lemma csvRow_fields (v : Visitor) : join "," (csvRow v) = line (row_fields v).
Proof.
  unfold line, csvRow, row_fields. cbn [map render].
  rewrite !or_else_some.
  rewrite (quoted_or_else (host_employee v)), (quoted_or_else (purpose v)).
  reflexivity.
Qed.

Lemma row_fields_well_formed (v : Visitor) :
  exportable v = true ->
  (2 <= List.length (row_fields v))%nat
  /\ forallb well_formed (row_fields v) = true.
Proof.
  unfold exportable. intros H.
  apply andb_prop in H as [H Hc]. apply andb_prop in H as [H Hs].
  apply andb_prop in H as [Hm He].
  split; [cbn; lia|].
  cbn [row_fields forallb well_formed].
  rewrite plain_string_of_Z, Hm, He, Hs, Hc, plain_toISOString.
  destruct (checkout_time v); [rewrite plain_toISOString|]; reflexivity.
Qed.

Lemma csv_lines (visitors : list Visitor) :
  csv visitors = join newline (map line (map Raw headers :: map row_fields visitors)).
Proof.
  unfold csv. f_equal. cbn [map]. f_equal.
  rewrite !map_map. apply map_ext. intros v. apply csvRow_fields.
Qed.

(** X3.  The text of the export reads back, record by record, to the header
    and the ten values of every row, whatever the names, hosts and purposes
    hold (commas, double quotes, line breaks), provided the columns written
    without quotes (mobile, host email, status, creator) hold neither a
    comma, a double quote nor a line break. *)
Theorem X3_csv_export_round_trip (visitors : list Visitor) :
  forallb exportable visitors = true ->
  read (csv visitors) = Some (headers :: map row_values visitors).
Proof.
  intros Hall. unfold read. rewrite csv_lines.
  rewrite read_records_lines.
  - cbn [map]. rewrite !map_map. reflexivity.
  - discriminate.
  - constructor; [split; [cbn; lia | reflexivity]|].
    apply Forall_map. apply Forall_forall. intros v Hv.
    apply row_fields_well_formed.
    rewrite forallb_forall in Hall. now apply Hall.
  - pose proof (length_join newline
                  (map line (map Raw headers :: map row_fields visitors))
                  ltac:(discriminate)) as H.
    rewrite length_map in H. exact H.
Qed.

Lemma X3_witness :
  read (csv [jane_row; awkward_row])
  = Some (headers :: map row_values [jane_row; awkward_row]).
Proof.
  apply (X3_csv_export_round_trip [jane_row; awkward_row]).
  vm_compute. reflexivity.
Defined.

End CsvExport.

(** ** The rate limiter *)

Section RateLimiter.

Import RateLimit.

Lemma requests_of_nonneg ip hits : 0 <= requests_of ip hits.
Proof. induction hits as [|h hits IH]; simpl; [lia|]. destruct (_ =? _)%string; lia. Qed.

Lemma sweep_keeps (now W : Z) (st : Store) (ip : string) (d : Entry) :
  st ip = Some d -> now - startTime d <= W -> sweep now W st ip = Some d.
Proof.
  intros H Hle. unfold sweep. rewrite H.
  destruct (W <? now - startTime d) eqn:E; [apply Z.ltb_lt in E; lia | reflexivity].
Qed.

Lemma set_same ip d st : set ip d st ip = Some d.
Proof. unfold set. now rewrite String.eqb_refl. Qed.

Lemma set_other ip k d st : String.eqb ip k = false -> set k d st ip = st ip.
Proof. intros H. unfold set. now rewrite H. Qed.

Lemma run_within_window (M W : Z) (ip : string) (hits : list Hit) :
  forall (st : Store) (c t0 : Z),
    st ip = Some (mkEntry c t0) ->
    (forall h, In h hits -> hit_time h - t0 <= W) ->
    passed_of ip (fst (run M W hits st))
      = Z.min (requests_of ip hits) (Z.max 0 (M - c))
    /\ snd (run M W hits st) ip = Some (mkEntry (c + requests_of ip hits) t0).
Proof.
  induction hits as [|h hits IH]; intros st c t0 Hst Hwin.
  - simpl. split; [lia | now rewrite Z.add_0_r].
  - assert (Hh : hit_time h - t0 <= W) by (apply Hwin; now left).
    assert (Hrest : forall h', In h' hits -> hit_time h' - t0 <= W)
      by (intros h' Hin; apply Hwin; now right).
    pose proof (requests_of_nonneg ip hits) as Hnn.
    cbn [run requests_of].
    destruct (rateLimit M W (hit_ip h) (hit_time h) (hit_lucky h) st) as [v st1] eqn:Hstep.
    destruct (run M W hits st1) as [vs st2] eqn:Hrun.
    cbn [fst snd passed_of].
    destruct (String.eqb (hit_ip h) ip) eqn:Hip.
    + apply String.eqb_eq in Hip. 
      unfold rateLimit in Hstep. rewrite Hip, Hst in Hstep. cbn [startTime count] in Hstep.
      destruct (W <? hit_time h - t0) eqn:E; [apply Z.ltb_lt in E; lia|].
      destruct (M <? c + 1) eqn:EM.
      * inversion Hstep; subst v st1. clear Hstep.
        apply Z.ltb_lt in EM.
        destruct (IH (set ip (mkEntry (c + 1) t0) st) (c + 1) t0
                    (set_same _ _ _) Hrest) as [IH1 IH2].
        rewrite Hrun in IH1, IH2. cbn [fst snd] in IH1, IH2.
        rewrite IH1, IH2. split; [lia | f_equal; f_equal; lia].
      * inversion Hstep; subst v st1. clear Hstep.
        apply Z.ltb_ge in EM.
        assert (Hst1 : (if hit_lucky h
                        then sweep (hit_time h) W (set ip (mkEntry (c + 1) t0) st)
                        else set ip (mkEntry (c + 1) t0) st) ip
                       = Some (mkEntry (c + 1) t0)).
        { destruct (hit_lucky h); [apply sweep_keeps; [apply set_same | exact Hh]
                                  | apply set_same]. }
        destruct (IH _ (c + 1) t0 Hst1 Hrest) as [IH1 IH2].
        rewrite Hrun in IH1, IH2. cbn [fst snd] in IH1, IH2.
        rewrite IH1, IH2. split; [lia | f_equal; f_equal; lia].
    + assert (Hip' : String.eqb ip (hit_ip h) = false)
        by (rewrite String.eqb_sym; exact Hip).
      assert (Hst1 : st1 ip = Some (mkEntry c t0)).
      { unfold rateLimit in Hstep.
        destruct (st (hit_ip h)) as [d|].
        - destruct (W <? hit_time h - startTime d).
          + inversion Hstep; subst.
            destruct (hit_lucky h);
              [apply sweep_keeps; [now rewrite set_other | exact Hh]
              | now rewrite set_other].
          + destruct (M <? count (mkEntry (count d + 1) (startTime d))).
            * inversion Hstep; subst. now rewrite set_other.
            * inversion Hstep; subst.
              destruct (hit_lucky h);
                [apply sweep_keeps; [now rewrite set_other | exact Hh]
                | now rewrite set_other].
        - inversion Hstep; subst.
          destruct (hit_lucky h);
            [apply sweep_keeps; [now rewrite set_other | exact Hh]
            | now rewrite set_other]. }
      destruct (IH st1 c t0 Hst1 Hrest) as [IH1 IH2].
      rewrite Hrun in IH1, IH2. cbn [fst snd] in IH1, IH2.
      destruct v; rewrite IH1, IH2; (split; [lia | f_equal; f_equal; lia]).
Qed.

(** X4.  From the first request of an address the limiter has not seen,
    and for as long as no request comes later than [windowMs] after it, the
    limiter passes on exactly the first [maxRequests] requests of that
    address, and always the first one: of [n] requests it passes
    [min n (max 1 maxRequests)], whatever other addresses do and whenever
    the clean-up runs. *)
Theorem X4_rate_limit_quota (M W : Z) (ip : string) (first : Hit) (rest : list Hit)
    (st : Store) :
  hit_ip first = ip ->
  st ip = None ->
  (forall h, In h rest -> hit_time h - hit_time first <= W) ->
  0 <= W ->
  passed_of ip (fst (run M W (first :: rest) st))
  = Z.min (requests_of ip (first :: rest)) (Z.max 1 M).
Proof.
  intros Hip Hst Hwin HW.
  pose proof (requests_of_nonneg ip rest) as Hnn.
  cbn [run requests_of].
  destruct (rateLimit M W (hit_ip first) (hit_time first) (hit_lucky first) st)
    as [v st1] eqn:Hstep.
  unfold rateLimit in Hstep. rewrite Hip, Hst in Hstep.
  inversion Hstep; subst v st1. clear Hstep.
  assert (Hst1 : (if hit_lucky first
                  then sweep (hit_time first) W (set ip (mkEntry 1 (hit_time first)) st)
                  else set ip (mkEntry 1 (hit_time first)) st) ip
                 = Some (mkEntry 1 (hit_time first))).
  { destruct (hit_lucky first);
      [apply sweep_keeps; [apply set_same | cbn; lia] | apply set_same]. }
  destruct (run_within_window M W ip rest _ 1 (hit_time first) Hst1 Hwin) as [H1 _].
  destruct (run M W rest _) as [vs st2]. cbn [fst] in *.
  cbn [passed_of]. rewrite Hip, String.eqb_refl, H1. lia.
Qed.

Lemma X4_witness :
  passed_of "10.0.0.7" (fst (run 2 60000 burst empty))
  = Z.min (requests_of "10.0.0.7" burst) (Z.max 1 2).
Proof.
  apply (X4_rate_limit_quota 2 60000 "10.0.0.7"
           (mkHit "10.0.0.7" 1000 false)
           [mkHit "10.0.0.7" 2000 true; mkHit "10.0.0.9" 2500 false;
            mkHit "10.0.0.7" 3000 false] empty).
  - reflexivity.
  - reflexivity.
  - intros h [<-|[<-|[<-|[]]]]; simpl; lia.
  - lia.
Defined.

(** X5.  A request the limiter refuses belongs to an address that already
    used up [maxRequests] in a window still open; the refused request is
    counted all the same, and the [retryAfter] of the answer is not
    negative and, when the clock did not run backwards, below the window
    length in seconds plus one. *)
Theorem X5_rate_limit_rejection (M W : Z) (ip : string) (now : Z) (lucky : bool)
    (st st' : Store) (retryAfter : Z) :
  rateLimit M W ip now lucky st = (TooManyRequests retryAfter, st') ->
  exists d,
    st ip = Some d
    /\ M <= count d
    /\ now - startTime d <= W
    /\ st' ip = Some (mkEntry (count d + 1) (startTime d))
    /\ 0 <= retryAfter
    /\ (startTime d <= now -> 1000 * retryAfter < W + 1000).
Proof.
  unfold rateLimit. intros H.
  destruct (st ip) as [d|] eqn:Hst; [|inversion H].
  destruct (W <? now - startTime d) eqn:E; [inversion H|].
  cbn [count] in H.
  destruct (M <? count d + 1) eqn:EM; [|inversion H].
  inversion H; subst. clear H.
  apply Z.ltb_ge in E. apply Z.ltb_lt in EM.
  exists d. split; [reflexivity|]. split; [lia|]. split; [lia|].
  split; [unfold set; now rewrite String.eqb_refl|].
  unfold JS.ceil_div.
  pose proof (Z.div_mod (- (startTime d + W - now)) 1000 ltac:(lia)) as Hdm.
  pose proof (Z.mod_pos_bound (- (startTime d + W - now)) 1000 ltac:(lia)) as Hb.
  split; lia.
Qed.

Lemma X5_witness :
  exists d,
    snd (run 2 60000 [mkHit "10.0.0.7" 1000 false; mkHit "10.0.0.7" 2000 false]
             empty) "10.0.0.7" = Some d
    /\ 2 <= count d
    /\ 3000 - startTime d <= 60000
    /\ snd (rateLimit 2 60000 "10.0.0.7" 3000 false
              (snd (run 2 60000 [mkHit "10.0.0.7" 1000 false;
                                 mkHit "10.0.0.7" 2000 false] empty)))
         "10.0.0.7"
       = Some (mkEntry (count d + 1) (startTime d))
    /\ 0 <= 58
    /\ (startTime d <= 3000 -> 1000 * 58 < 60000 + 1000).
Proof.
  apply (X5_rate_limit_rejection 2 60000 "10.0.0.7" 3000 false
           (snd (run 2 60000 [mkHit "10.0.0.7" 1000 false;
                              mkHit "10.0.0.7" 2000 false] empty))
           (snd (rateLimit 2 60000 "10.0.0.7" 3000 false
                   (snd (run 2 60000 [mkHit "10.0.0.7" 1000 false;
                                      mkHit "10.0.0.7" 2000 false] empty))))
           58).
  reflexivity.
Defined.

End RateLimiter.

(** ** [connectWithRetry] *)

Section StartupProofs.

Import QArith Qminmax Startup.
Local Open Scope Q_scope.

Lemma retry_loop_outcome (connects : nat -> bool) (n : nat) :
  forall (left attempt : nat) (delay : Q) (waited : list Q),
    (1 <= left)%nat -> (attempt + left = S n)%nat -> (1 <= attempt)%nat ->
    (forall j, (1 <= j < attempt)%nat -> connects j = false) ->
    List.length waited = (attempt - 1)%nat ->
    match retry_loop connects n left attempt delay waited with
    | Connected k w =>
        (1 <= k <= n)%nat /\ connects k = true
        /\ (forall j, (1 <= j < k)%nat -> connects j = false)
        /\ List.length w = (k - 1)%nat
    | Thrown w =>
        (forall j, (1 <= j <= n)%nat -> connects j = false)
        /\ List.length w = (n - 1)%nat
    | Undefined _ => False
    end.
Proof.
  induction left as [|left IH]; intros attempt delay waited Hl Hsum Ha Hprev Hlen;
    [lia|].
  cbn [retry_loop].
  destruct (connects attempt) eqn:Hc.
  - repeat split; auto; lia.
  - destruct (Nat.eqb attempt n) eqn:En.
    + apply Nat.eqb_eq in En. subst attempt. split; [|exact Hlen].
      intros j Hj. destruct (Nat.eq_dec j n) as [->|Hne]; [exact Hc|].
      apply Hprev. lia.
    + apply Nat.eqb_neq in En.
      apply IH; try lia.
      * intros j Hj. destruct (Nat.eq_dec j attempt) as [->|Hne]; [exact Hc|].
        apply Hprev. lia.
      * rewrite length_app. simpl. lia.
Qed.

(** X6.  With at least one attempt allowed, [connectWithRetry] ends in one
    of two ways: it returns at the first attempt that connects, having
    slept once before each attempt after the first, or, when none of the
    [maxRetries] attempts connects, it throws after the last one without
    sleeping again.  It makes no attempt beyond [maxRetries]. *)
Theorem X6_connect_outcome (connects : nat -> bool) (maxRetries : nat) (d : Q) :
  (1 <= maxRetries)%nat ->
  match connectWithRetry connects maxRetries d with
  | Connected k w =>
      (1 <= k <= maxRetries)%nat /\ connects k = true
      /\ (forall j, (1 <= j < k)%nat -> connects j = false)
      /\ List.length w = (k - 1)%nat
  | Thrown w =>
      (forall j, (1 <= j <= maxRetries)%nat -> connects j = false)
      /\ List.length w = (maxRetries - 1)%nat
  | Undefined _ => False
  end.
Proof.
  intros H. unfold connectWithRetry.
  apply retry_loop_outcome; try lia. reflexivity.
Qed.

Lemma X6_witness :
  (1 <= 3 <= 5)%nat /\ Nat.eqb 3 3 = true
  /\ (forall j, (1 <= j < 3)%nat -> Nat.eqb j 3 = false)
  /\ List.length [5000 # 1; backoff (5000 # 1)] = (3 - 1)%nat.
Proof.
  apply (X6_connect_outcome (fun k => Nat.eqb k 3) 5%nat (5000 # 1)). lia.
Defined.

Lemma backoff_bounds (lo x : Q) :
  0 <= lo -> lo <= x -> x <= 30000 # 1 ->
  lo <= backoff x /\ x <= backoff x /\ backoff x <= 30000 # 1.
Proof.
  intros H0 Hlo Hhi. unfold backoff.
  assert (Hx : x <= x * (3 # 2)).
  { assert (0 <= x) by (eapply Qle_trans; eauto).
    setoid_replace (x * (3 # 2)) with (x + x * (1 # 2)) by ring.
    rewrite <- (Qplus_0_r x) at 1. apply Qplus_le_r.
    apply Qmult_le_0_compat; [assumption | discriminate]. }
  split; [|split].
  - apply Q.min_glb; [eapply Qle_trans; eauto | eapply Qle_trans; eauto].
  - apply Q.min_glb; assumption.
  - apply Q.le_min_r.
Qed.

Lemma retry_loop_waits (connects : nat -> bool) (n : nat) (lo : Q) :
  0 <= lo ->
  forall (left attempt : nat) (delay : Q) (waited : list Q),
    lo <= delay -> delay <= 30000 # 1 ->
    Forall (fun w => lo <= w /\ w <= 30000 # 1) waited ->
    Forall (fun w => lo <= w /\ w <= 30000 # 1)
           (waited_of (retry_loop connects n left attempt delay waited)).
Proof.
  intros H0. induction left as [|left IH]; intros attempt delay waited Hlo Hhi Hw;
    cbn [retry_loop waited_of]; [exact Hw|].
  destruct (connects attempt); [exact Hw|].
  destruct (Nat.eqb attempt n); [exact Hw|].
  destruct (backoff_bounds lo delay H0 Hlo Hhi) as (B1 & B2 & B3).
  apply IH; auto.
  apply Forall_app. split; [exact Hw|]. constructor; [split; assumption | constructor].
Qed.

(** X7.  With an initial delay between 0 and 30 seconds, every delay
    [connectWithRetry] sleeps lies between the initial delay and
    30 seconds. *)
Theorem X7_connect_waits (connects : nat -> bool) (maxRetries : nat) (d : Q) :
  0 <= d -> d <= 30000 # 1 ->
  Forall (fun w => d <= w /\ w <= 30000 # 1)
         (waited_of (connectWithRetry connects maxRetries d)).
Proof.
  intros H0 Hhi. unfold connectWithRetry.
  apply retry_loop_waits; auto. apply Qle_refl.
Qed.

Lemma X7_witness :
  Forall (fun w => 5000 # 1 <= w /\ w <= 30000 # 1)
         (waited_of (connectWithRetry (fun _ => false) 5%nat (5000 # 1))).
Proof.
  apply (X7_connect_waits (fun _ => false) 5%nat (5000 # 1));
    unfold Qle; simpl; lia.
Defined.

End StartupProofs.

(** ** Check-out in [Server8]: what it touches *)

Lemma checked_in_hit_after (i : Z) (now : Z) (b : bool) (l : list Visitor) :
  existsb (checked_in_hit i)
    (map (fun r => if checked_in_hit i r then Sql.check_out_row now b r else r) l)
  = false.
Proof.
  induction l as [|r l IH]; [reflexivity|].
  cbn [map existsb]. rewrite IH, orb_false_r.
  destruct (checked_in_hit i r) eqn:H; [|exact H].
  unfold checked_in_hit, Sql.check_out_row. cbn [id status].
  now rewrite andb_false_r.
Qed.

Lemma map_no_hit (i : Z) (g : Visitor -> Visitor) (l : list Visitor) :
  existsb (checked_in_hit i) l = false ->
  map (fun r => if checked_in_hit i r then g r else r) l = l.
Proof.
  induction l as [|r l IH]; [reflexivity|].
  cbn [map existsb]. intros H. apply orb_false_iff in H as [H1 H2].
  rewrite H1, IH by exact H2. reflexivity.
Qed.

(** X8.  In [Server8], once a check-out of a visitor has succeeded, no
    later check-out naming the same number succeeds, whoever asks and
    whatever the clocks and the engine do, as long as the rows are those
    the first one left: it is answered with an error and changes no row. *)
Theorem X8_checkout_succeeds_once (e : Env) (w w' : World) (id_param : string)
    (user : Principal) (t : option string) :
  Server8.checkOut id_param user e w = (Ok (json (CheckedOutBody t)), w') ->
  forall (e2 : Env) (w2 : World) (id2 : string) (user2 : Principal),
    vs_visitors w2 = vs_visitors w' ->
    JS.parseInt id2 = JS.parseInt id_param ->
    exists r w3,
      Server8.checkOut id2 user2 e2 w2 = (Ok r, w3)
      /\ http_status r <> 200
      /\ vs_visitors w3 = vs_visitors w2.
Proof.
  intros Hrun e2 w2 id2 user2 Hrows Hid.
  apply server8_checkOut_checked_out in Hrun as (i & Hi & _ & _ & Hw').
  destruct (server8_checkOut_run e2 w2 id2 user2) as (w3 & Hrun2 & Hrows2).
  exists (checkOut_answer e2 w2 id2), w3. split; [exact Hrun2|].
  assert (Hno : existsb (checked_in_hit i) (vs_visitors w2) = false).
  { rewrite Hrows, Hw'. apply checked_in_hit_after. }
  rewrite Hrows2. unfold checkOut_answer, checkOut_rows.
  rewrite Hid, Hi.
  destruct (negb (int32 i) || db_fault e2 (n_db w2)); [split; [discriminate|reflexivity]|].
  destruct (Sql.select_visitor i w2) as [|v rest]; [split; [discriminate|reflexivity]|].
  destruct (String.eqb (status v) "checked_out"); cbn [orb];
    [split; [discriminate|reflexivity]|].
  destruct (db_fault e2 (S (n_db w2))); [split; [discriminate|reflexivity]|].
  rewrite Hno. split; [discriminate|].
  now apply map_no_hit.
Qed.

Lemma X8_witness :
  exists r w3,
    Server8.checkOut "1" reception env0
      (snd (Server8.checkOut "1" reception env0 world1)) = (Ok r, w3)
    /\ http_status r <> 200
    /\ vs_visitors w3
       = vs_visitors (snd (Server8.checkOut "1" reception env0 world1)).
Proof.
  apply (X8_checkout_succeeds_once env0 world1
           (snd (Server8.checkOut "1" reception env0 world1)) "1" reception
           (Some (JS.toISOString 1000))
           (eq_refl : Server8.checkOut "1" reception env0 world1
                      = (Ok (json (CheckedOutBody (Some (JS.toISOString 1000)))),
                         snd (Server8.checkOut "1" reception env0 world1)))
           env0 (snd (Server8.checkOut "1" reception env0 world1)) "1" reception);
    reflexivity.
Defined.

(** X9.  [Server8.checkOut] always answers; it neither adds nor removes a
    row, it leaves every row in place that is not checked in or does not
    carry the number asked for, and when its answer is not 200 it leaves
    all rows as they were. *)
Theorem X9_checkout_touches_checked_in_rows_only (e : Env) (w : World)
    (id_param : string) (user : Principal) :
  exists r w',
    Server8.checkOut id_param user e w = (Ok r, w')
    /\ List.length (vs_visitors w') = List.length (vs_visitors w)
    /\ (forall k row,
          nth_error (vs_visitors w) k = Some row ->
          status row <> "checked_in" \/ JS.parseInt id_param <> Some (id row) ->
          nth_error (vs_visitors w') k = Some row)
    /\ (http_status r <> 200 -> vs_visitors w' = vs_visitors w).
Proof.
  destruct (server8_checkOut_run e w id_param user) as (w' & Hrun & Hrows).
  exists (checkOut_answer e w id_param), w'. split; [exact Hrun|].
  rewrite Hrows. unfold checkOut_rows, checkOut_answer.
  destruct (JS.parseInt id_param) as [i|]; [|split; [reflexivity|auto]].
  destruct (negb (int32 i) || db_fault e (n_db w)); [split; [reflexivity|auto]|].
  destruct (Sql.select_visitor i w) as [|v rest]; [split; [reflexivity|auto]|].
  destruct (String.eqb (status v) "checked_out"); cbn [orb];
    [split; [reflexivity|auto]|].
  destruct (db_fault e (S (n_db w))); [split; [reflexivity|auto]|].
  split; [apply length_map|]. split.
  - intros k row Hk Hnot. rewrite nth_error_map, Hk. cbn [option_map].
    destruct (checked_in_hit i row) eqn:Hhit; [|reflexivity].
    unfold checked_in_hit in Hhit. apply andb_prop in Hhit as [H1 H2].
    apply Z.eqb_eq in H1. apply String.eqb_eq in H2.
    destruct Hnot as [Hn|Hn]; [now elim Hn | subst i; now elim Hn].
  - destruct (existsb (checked_in_hit i) (vs_visitors w)) eqn:Hhit.
    + intros H. now elim H.
    + intros _. now apply map_no_hit.
Qed.

(** ** Check-in in [Server8]: stored exactly when answered 200 *)

Lemma server8_createVisitor_run (e : Env) (w : World) (f : VisitorForm)
    (u : option Principal) :
  exists w',
    Server8.createVisitor f u e w = (Ok (createVisitor_answer e w f), w')
    /\ vs_visitors w' =
         (if check_in_stored e w f
          then (vs_visitors w ++ [created_row e w f u])%list
          else vs_visitors w)
    /\ (http_status (createVisitor_answer e w f) =? 200) = check_in_stored e w f.
Proof.
  unfold check_in_stored, valid_checkin, createVisitor_answer, created_row, qr_text.
  unfold Server8.createVisitor, try_catch.
  destruct (JS.truthy (f_visitor_name f)); cbn [negb orb andb];
    [|eexists; split; [reflexivity | split; reflexivity]].
  destruct (JS.truthy (f_host_email f)); cbn [negb orb andb];
    [|eexists; split; [reflexivity | split; reflexivity]].
  destruct (JS.truthy (f_purpose f)); cbn [negb orb andb];
    [|eexists; split; [reflexivity | split; reflexivity]].
  destruct (JS.test JS.emailRegex _); cbn [negb andb];
    [|eexists; split; [reflexivity | split; reflexivity]].
  unfold bind at 1. unfold Date_now at 1.
  unfold bind at 1. unfold Math_random36.
  unfold bind at 1. unfold Date_now.
  unfold bind at 1. unfold QRCode_toDataURL.
  cbn [tick_app tick_rnd n_app n_rnd n_db].
  destruct (qr_toDataURL e _) as [url|]; cbn [andb];
    [|eexists; split; [reflexivity | split; reflexivity]].
  unfold bind at 1.
  destruct (db_fault e (n_db w)) eqn:Hdb; cbn [negb].
  { rewrite query_fault by exact Hdb.
    eexists; split; [reflexivity | split; reflexivity]. }
  rewrite query_ok by exact Hdb.
  unfold bind at 1.
  match goal with
  | |- context [Server8.notify ?m ?t ?e0 ?w0] =>
      destruct (server8_notify_ok m t e0 w0) as (w' & Hrun & Hsame)
  end.
  rewrite Hrun. unfold ret.
  exists w'. split; [reflexivity|].
  destruct Hsame as (Hv & _). rewrite Hv. split; reflexivity.
Qed.

(** X10.  [Server8.createVisitor] always answers, and a row is stored
    exactly when the answer is 200: then one row is appended, checked in and
    with no check-out time; with any other answer the rows are as before. *)
Theorem X10_check_in_stored_iff_answered_200 (e : Env) (w : World) (f : VisitorForm)
    (u : option Principal) :
  exists r w',
    Server8.createVisitor f u e w = (Ok r, w')
    /\ (http_status r = 200 ->
        exists row, vs_visitors w' = (vs_visitors w ++ [row])%list
                    /\ status row = "checked_in" /\ checkout_time row = None)
    /\ (http_status r <> 200 -> vs_visitors w' = vs_visitors w).
Proof.
  destruct (server8_createVisitor_run e w f u) as (w' & Hrun & Hrows & Hst).
  exists (createVisitor_answer e w f), w'. split; [exact Hrun|].
  rewrite Hrows. destruct (check_in_stored e w f).
  - apply Z.eqb_eq in Hst. split; [|intros H; now elim H].
    intros _. eexists. split; [reflexivity|]. split; reflexivity.
  - apply Z.eqb_neq in Hst. split; [intros H; now elim Hst | reflexivity].
Qed.

(** X11.  In [Server8] neither the answer to a check-in nor the rows it
    leaves depend on the mail: with any other outcome of the template and of
    the mail server the answer is the same and so are the rows. *)
Theorem X11_check_in_is_independent_of_mail (e : Env) (w : World) (f : VisitorForm)
    (u : option Principal) (h s : nat -> bool) :
  exists r w1 w2,
    Server8.createVisitor f u e w = (Ok r, w1)
    /\ Server8.createVisitor f u (with_mail h s e) w = (Ok r, w2)
    /\ vs_visitors w2 = vs_visitors w1.
Proof.
  destruct (server8_createVisitor_run e w f u) as (w1 & Hrun1 & Hrows1 & _).
  destruct (server8_createVisitor_run (with_mail h s e) w f u) as (w2 & Hrun2 & Hrows2 & _).
  exists (createVisitor_answer e w f), w1, w2.
  split; [exact Hrun1|]. split; [exact Hrun2|].
  rewrite Hrows1, Hrows2. reflexivity.
Qed.

(** ** The transactions of [Part000]: all or nothing *)

Lemma rollback_quietly_run (e : Env) (w : World) :
  exists w', Part000.rollback_quietly e w = (Ok tt, w')
             /\ tx w' = None /\ vs_visitors w' = rolled_back w.
Proof.
  unfold Part000.rollback_quietly, try_catch, tx_rollback, rolled_back.
  destruct (tx w) as [snap|] eqn:Htx.
  - destruct (db_fault e (n_db w)); eexists; split; try reflexivity; split; reflexivity.
  - eexists; split; [reflexivity|]. split; [exact Htx | reflexivity].
Qed.

Lemma part000_catch_run (tag : string) (r : Response) (e : Env) (w : World) :
  exists w',
    bind Part000.rollback_quietly
         (fun _ => bind (console_error tag) (fun _ => ret r)) e w = (Ok r, w')
    /\ tx w' = None /\ vs_visitors w' = rolled_back w.
Proof.
  unfold bind at 1.
  destruct (rollback_quietly_run e w) as (w1 & H & Htx & Hrows). rewrite H.
  eexists. split; [reflexivity|]. split; [exact Htx | exact Hrows].
Qed.

Ltac caught_goal :=
  match goal with
  | |- settled _ (bind Part000.rollback_quietly
                  (fun _ => bind (console_error ?tag) (fun _ => ret ?r)) ?e ?w) =>
      let wc := fresh "wc" in
      let Hc := fresh "Hc" in
      let Htxc := fresh "Htxc" in
      let Hrowsc := fresh "Hrowsc" in
      destruct (part000_catch_run tag r e w) as (wc & Hc & Htxc & Hrowsc);
      rewrite Hc; exists r, wc;
      split; [reflexivity | split; [exact Htxc | intros _; rewrite Hrowsc]]
  end.

Ltac query_goal :=
  match goal with
  | |- context [query ?s ?e ?w] =>
      let Hf := fresh "Hdb" in
      destruct (db_fault e (n_db w)) eqn:Hf;
      [ rewrite (query_fault s e w Hf) | rewrite (query_ok s e w Hf) ]
  end.

Lemma settled_ret (w w' : World) (r : Response) :
  tx w' = None -> (http_status r <> 200 -> vs_visitors w' = vs_visitors w) ->
  settled w (Ok r, w').
Proof. intros. exists r, w'. auto. Qed.

Lemma explicit_rollback (w W : World) (e : Env) (r r5 : Response) (tag : string) :
  tx W = Some (vs_visitors w) ->
  settled w
    (match bind tx_rollback (fun _ => ret r) e W with
     | (Ok a, w') => (Ok a, w')
     | (Throw msg, w') =>
         bind Part000.rollback_quietly
              (fun _ => bind (console_error tag) (fun _ => ret r5)) e w'
     end).
Proof.
  intros Htx. unfold bind at 1, tx_rollback. rewrite Htx.
  destruct (db_fault e (n_db W)).
  - caught_goal. reflexivity.
  - apply settled_ret; reflexivity.
Qed.

Lemma part000_checkOut_settled (e : Env) (w : World) (id_param : string) (user : Principal) :
  tx w = None ->
  settled w (Part000.checkOut id_param user e w).
Proof.
  intros Htx. unfold Part000.checkOut, try_catch.
  destruct (Part000.visitor_id_of id_param) as [i|];
    [|apply settled_ret; [exact Htx | reflexivity]].
  unfold bind at 1, tx_begin.
  query_goal.
  { caught_goal. unfold rolled_back. wsimpl. now rewrite Htx. }
  wsimpl.
  unfold bind at 1, query_if.
  destruct (int32 i).
  2:{ unfold rejected. caught_goal. reflexivity. }
  query_goal.
  { caught_goal. reflexivity. }
  wsimpl.
  unfold Sql.select_visitor at 1. wsimpl. fold (Sql.select_visitor i w).
  destruct (Sql.select_visitor i w) as [|v rest].
  { apply explicit_rollback. reflexivity. }
  destruct (String.eqb (status v) "checked_out").
  { apply explicit_rollback. reflexivity. }
  unfold bind at 1.
  query_goal.
  { caught_goal. reflexivity. }
  unfold Sql.update_checkout_if_checked_in. wsimpl.
  destruct (_ =? 0)%nat.
  { apply explicit_rollback. reflexivity. }
  unfold bind at 1, Date_now at 1.
  unfold bind at 1.
  match goal with
  | |- context [Part000.logAudit ?a ?b ?c ?d ?e0 ?w0] =>
      destruct (logAudit_ok a b c d e0 w0)
        as (w1 & Hlog & Hv1 & Htx1 & Happ1 & Hndb1)
  end.
  rewrite Hlog. wsimpl_in Htx1.
  unfold bind at 1, tx_commit.
  query_goal.
  { caught_goal. unfold rolled_back. wsimpl. rewrite Htx1. reflexivity. }
  wsimpl.
  unfold bind at 1, checkout_mail_enabled.
  unfold bind at 1.
  destruct (JS.truthy (Some (host_email v)) && send_checkout_emails e).
  - match goal with
    | |- context [Part000.notify_checkout ?m ?e0 ?w0] =>
        destruct (part000_notify_checkout_ok m e0 w0)
          as (w2 & Hn & (_ & _ & _ & _ & Htx2 & _) & _)
    end.
    rewrite Hn. unfold bind, Date_now, ret.
    apply settled_ret; [wsimpl; rewrite Htx2; reflexivity|].
    intros H; now elim H.
  - unfold bind, Date_now, ret.
    apply settled_ret; [reflexivity|]. intros H; now elim H.
Qed.

Lemma part000_notify_checkin_ok (m : Mail) (ph : option string) (e : Env) (w : World) :
  exists w', Part000.notify_checkin m ph e w = (Ok tt, w') /\ same_tables w w'.
Proof.
  unfold Part000.notify_checkin, try_catch, bind, build_mail, Date_now,
    sendMail_detached, console_error, ret.
  destruct (html_fault e (n_mail w)).
  - eexists; split; [reflexivity | repeat split].
  - destruct (JS.truthy ph); cbn; destruct (smtp_accepts e (n_mail w));
      eexists; (split; [reflexivity | repeat split]).
Qed.

Lemma part000_createVisitor_settled (e : Env) (w : World) (f : VisitorForm)
    (u : option Principal) :
  tx w = None ->
  settled w (Part000.createVisitor f u e w).
Proof.
  intros Htx. unfold Part000.createVisitor, try_catch.
  destruct (negb (JS.truthy (f_visitor_name f)) || negb (JS.truthy (f_host_email f))
            || negb (JS.truthy (f_purpose f)));
    [apply settled_ret; [exact Htx | reflexivity]|].
  destruct (negb (JS.test JS.emailRegex _));
    [apply settled_ret; [exact Htx | reflexivity]|].
  destruct (JS.truthy (f_mobile f) && negb (JS.test JS.mobileRegex _));
    [apply settled_ret; [exact Htx | reflexivity]|].
  unfold bind at 1, tx_begin.
  query_goal.
  { caught_goal. unfold rolled_back. wsimpl. now rewrite Htx. }
  wsimpl.
  unfold bind at 1. unfold Date_now at 1.
  unfold bind at 1. unfold Math_random36.
  unfold bind at 1. unfold Date_now.
  unfold bind at 1. unfold QRCode_toDataURL.
  destruct (qr_toDataURL e _) as [url|].
  2:{ caught_goal. reflexivity. }
  unfold bind at 1.
  query_goal.
  { caught_goal. reflexivity. }
  unfold Sql.insert_visitor. wsimpl.
  unfold bind at 1.
  match goal with
  | |- context [match u with Some p => @?a p | None => ret tt end ?e0 ?w0] =>
      assert (Hlog : exists w1, (match u with Some p => a p | None => ret tt end) e0 w0
                                = (Ok tt, w1) /\ tx w1 = tx w0)
  end.
  { destruct u as [p|].
    - match goal with
      | |- context [Part000.logAudit ?a ?b ?c ?d ?e0 ?w0] =>
          destruct (logAudit_ok a b c d e0 w0) as (w1 & Hlog & _ & Htx1 & _)
      end.
      exists w1. split; [exact Hlog | exact Htx1].
    - eexists. split; reflexivity. }
  destruct Hlog as (w1 & Hlog & Htx1). rewrite Hlog. wsimpl_in Htx1.
  unfold bind at 1, tx_commit.
  query_goal.
  { caught_goal. unfold rolled_back. wsimpl. rewrite Htx1. reflexivity. }
  wsimpl.
  unfold bind at 1.
  match goal with
  | |- context [Part000.notify_checkin ?m ?ph ?e0 ?w0] =>
      destruct (part000_notify_checkin_ok m ph e0 w0)
        as (w2 & Hn & (_ & _ & _ & _ & Htx2 & _))
  end.
  rewrite Hn. unfold ret.
  apply settled_ret; [wsimpl; rewrite Htx2; reflexivity|].
  intros H; now elim H.
Qed.

Lemma part000_updateVisitor_settled (e : Env) (w : World) (id_param : string)
    (f : VisitorForm) (user : Principal) :
  tx w = None ->
  settled w (Part000.updateVisitor id_param f user e w).
Proof.
  intros Htx. unfold Part000.updateVisitor, Part000.requireRole.
  destruct (existsb _ _); [|apply settled_ret; [exact Htx | reflexivity]].
  unfold try_catch.
  destruct (Part000.visitor_id_of id_param) as [i|];
    [|apply settled_ret; [exact Htx | reflexivity]].
  unfold bind at 1, tx_begin.
  query_goal.
  { caught_goal. unfold rolled_back. wsimpl. now rewrite Htx. }
  wsimpl.
  unfold bind at 1, query_if.
  destruct (int32 i).
  2:{ unfold rejected. caught_goal. reflexivity. }
  query_goal.
  { caught_goal. reflexivity. }
  wsimpl.
  unfold Sql.select_visitor at 1. wsimpl. fold (Sql.select_visitor i w).
  destruct (Sql.select_visitor i w) as [|v rest].
  { apply explicit_rollback. reflexivity. }
  unfold bind at 1.
  query_goal.
  { caught_goal. reflexivity. }
  unfold Sql.update_visitor. wsimpl.
  destruct (_ =? 0)%nat.
  { apply explicit_rollback. reflexivity. }
  unfold bind at 1.
  match goal with
  | |- context [Part000.logAudit ?a ?b ?c ?d ?e0 ?w0] =>
      destruct (logAudit_ok a b c d e0 w0)
        as (w1 & Hlog & Hv1 & Htx1 & Happ1 & Hndb1)
  end.
  rewrite Hlog. wsimpl_in Htx1.
  unfold bind at 1, tx_commit.
  query_goal.
  { caught_goal. unfold rolled_back. wsimpl. rewrite Htx1. reflexivity. }
  wsimpl. unfold ret.
  apply settled_ret; [reflexivity|]. intros H; now elim H.
Qed.

(** ** Invariants kept by every handler *)

Section Invariant.

Variable I : World -> Prop.
Hypothesis I_frame :
  forall w w', vs_visitors w' = vs_visitors w -> tx w' = tx w ->
               visitors_identity w' = visitors_identity w -> I w -> I w'.

Lemma holds_ret {A} (a : A) : holds I (ret a).
Proof. intros e w H. exact H. Qed.

Lemma holds_throw {A} (msg : string) : holds I (@throw A msg).
Proof. intros e w H. exact H. Qed.

Lemma holds_bind {A B} (m : M A) (k : A -> M B) :
  holds I m -> (forall a, holds I (k a)) -> holds I (bind m k).
Proof.
  intros Hm Hk e w H. unfold bind. specialize (Hm e w H).
  destruct (m e w) as [[a|msg] w1]; cbn [snd] in *; [apply Hk; exact Hm | exact Hm].
Qed.

Lemma holds_try_catch {A} (m : M A) (h : string -> M A) :
  holds I m -> (forall msg, holds I (h msg)) -> holds I (try_catch m h).
Proof.
  intros Hm Hh e w H. unfold try_catch. specialize (Hm e w H).
  destruct (m e w) as [[a|msg] w1]; cbn [snd] in *; [exact Hm | apply Hh; exact Hm].
Qed.

Lemma holds_frame {A} (m : M A) :
  (forall e w, vs_visitors (snd (m e w)) = vs_visitors w
               /\ tx (snd (m e w)) = tx w
               /\ visitors_identity (snd (m e w)) = visitors_identity w) ->
  holds I m.
Proof.
  intros Hm e w H. destruct (Hm e w) as (H1 & H2 & H3).
  exact (I_frame _ _ H1 H2 H3 H).
Qed.

Lemma holds_query {A} (stmt : Z -> World -> A * World) :
  (forall now w, I w -> I (snd (stmt now w))) -> holds I (query stmt).
Proof.
  intros Hs e w H. unfold query.
  destruct (db_fault e (n_db w)); cbn [snd].
  - now apply (I_frame w).
  - specialize (Hs (db_clock e (n_db w)) w H).
    destruct (stmt (db_clock e (n_db w)) w) as [a w1]. cbn [snd] in *.
    now apply (I_frame w1).
Qed.

Lemma holds_query_if {A} (ok : bool) (stmt : Z -> World -> A * World) :
  (forall now w, I w -> I (snd (stmt now w))) -> holds I (query_if ok stmt).
Proof.
  intros Hs. unfold query_if. destruct ok; [now apply holds_query|].
  apply holds_frame. intros e w. repeat split.
Qed.

Lemma holds_rejected {A} : holds I (@rejected A).
Proof. apply holds_frame. intros e w. repeat split. Qed.

Lemma holds_read {A} (f : World -> A) : holds I (query (fun _ w => (f w, w))).
Proof. apply holds_query. intros now w H. exact H. Qed.

Lemma holds_Date_now : holds I Date_now.
Proof. apply holds_frame. intros e w. repeat split. Qed.

Lemma holds_Math_random36 : holds I Math_random36.
Proof. apply holds_frame. intros e w. repeat split. Qed.

Lemma holds_console_error (tag : string) : holds I (console_error tag).
Proof. apply holds_frame. intros e w. repeat split. Qed.

Lemma holds_bcrypt (pw h : string) : holds I (bcrypt_compare_ pw h).
Proof. apply holds_frame. intros e w. repeat split. Qed.

Lemma holds_QRCode (t : string) : holds I (QRCode_toDataURL t).
Proof.
  apply holds_frame. intros e w. unfold QRCode_toDataURL.
  destruct (qr_toDataURL e t); repeat split.
Qed.

Lemma holds_build_mail (m : Mail) : holds I (build_mail m).
Proof.
  apply holds_frame. intros e w. unfold build_mail.
  destruct (html_fault e (n_mail w)); repeat split.
Qed.

Lemma holds_sendMail_detached (m : Mail) : holds I (sendMail_detached m).
Proof.
  apply holds_frame. intros e w. unfold sendMail_detached.
  destruct (smtp_accepts e (n_mail w)); repeat split.
Qed.

Lemma holds_checkout_mail_enabled : holds I checkout_mail_enabled.
Proof. apply holds_frame. intros e w. repeat split. Qed.

Lemma holds_touch (uid : Z) : holds I (query (Sql.touch_last_login uid)).
Proof. apply holds_query. intros now w. now apply I_frame. Qed.

Lemma holds_audit (uid : Z) (a tb : string) (rid : Z) :
  holds I (query (Sql.insert_audit uid a tb rid)).
Proof. apply holds_query. intros now w. now apply I_frame. Qed.

Ltac hstep :=
  first
    [ apply holds_ret
    | apply holds_throw
    | apply holds_rejected
    | apply holds_Date_now
    | apply holds_Math_random36
    | apply holds_console_error
    | apply holds_bcrypt
    | apply holds_QRCode
    | apply holds_build_mail
    | apply holds_sendMail_detached
    | apply holds_checkout_mail_enabled
    | apply holds_touch
    | apply holds_audit
    | apply holds_read
    | apply holds_bind; [|intros ?]
    | apply holds_try_catch; [|intros ?]
    | match goal with
      | |- holds _ (if ?c then _ else _) => destruct c
      | |- holds _ (match ?x with _ => _ end) => destruct x
      end ].

Lemma holds_logAudit (uid : Z) (a tb : string) (rid : Z) :
  holds I (Part000.logAudit uid a tb rid).
Proof. unfold Part000.logAudit. repeat hstep. Qed.

Lemma holds_notify8 (m : Mail) (tag : string) : holds I (Server8.notify m tag).
Proof. unfold Server8.notify. repeat hstep. Qed.

Lemma holds_notify_checkin (m : Mail) (ph : option string) :
  holds I (Part000.notify_checkin m ph).
Proof. unfold Part000.notify_checkin. repeat hstep. Qed.

Lemma holds_notify_checkout (m : Mail) : holds I (Part000.notify_checkout m).
Proof. unfold Part000.notify_checkout. repeat hstep. Qed.

Ltac hstep2 :=
  first
    [ apply holds_logAudit
    | apply holds_notify8
    | apply holds_notify_checkin
    | apply holds_notify_checkout
    | hstep ].

(** The handlers that only read the visitors. *)

Lemma holds_login (u p : option string) : holds I (Part000.login u p).
Proof. unfold Part000.login. cbv zeta. repeat hstep2. Qed.

Lemma holds_login8 (u p : option string) : holds I (Server8.login u p).
Proof. unfold Server8.login. cbv zeta. repeat hstep2. Qed.

Lemma holds_listVisitors (q : ListQuery) (u : Principal) :
  holds I (Part000.listVisitors q u).
Proof.
  unfold Part000.listVisitors. cbv zeta. repeat hstep2.
  all: unfold query_if; repeat hstep2.
Qed.

Lemma holds_listVisitors8 (q : ListQuery) (u : Principal) :
  holds I (Server8.listVisitors q u).
Proof.
  unfold Server8.listVisitors. cbv zeta. repeat hstep2.
  all: unfold query_if; repeat hstep2.
Qed.

Lemma holds_getVisitor (i : string) (u : Principal) :
  holds I (Part000.getVisitor i u).
Proof.
  unfold Part000.getVisitor. repeat hstep2.
  all: unfold query_if; repeat hstep2.
Qed.

Lemma holds_getVisitor8 (i : string) (u : Principal) :
  holds I (Server8Util.getVisitor i u).
Proof.
  unfold Server8Util.getVisitor. repeat hstep2.
  all: unfold query_if; repeat hstep2.
Qed.

Lemma holds_selects (n : nat) : holds I (Part000.selects n).
Proof. induction n; simpl; repeat hstep2. exact IHn. Qed.

Lemma holds_report (n : nat) : holds I (Part000.report n).
Proof. unfold Part000.report. repeat hstep2. apply holds_selects. Qed.

(** The handlers that write. *)

Hypothesis I_insert :
  forall b n mo h ma pu ph q by_ now w,
    I w -> I (snd (Sql.insert_visitor b n mo h ma pu ph q by_ now w)).
Hypothesis I_check_out :
  forall b i now w, I w -> I (snd (Sql.update_checkout_if_checked_in b i now w)).

Lemma holds_createVisitor8 (f : VisitorForm) (u : option Principal) :
  holds I (Server8.createVisitor f u).
Proof.
  unfold Server8.createVisitor. cbv zeta.
  repeat first [apply holds_query; intros; apply I_insert; assumption | hstep2].
Qed.

Lemma holds_checkOut8 (i : string) (u : Principal) :
  holds I (Server8.checkOut i u).
Proof.
  unfold Server8.checkOut.
  repeat first [apply holds_query_if; intros; apply I_check_out; assumption
               | apply holds_query_if; intros; assumption | hstep2].
Qed.

Lemma holds_handle8 (r : Request8) : holds I (handle8 r).
Proof.
  destruct r; cbn [handle8].
  - apply holds_login8.
  - apply holds_createVisitor8.
  - apply holds_checkOut8.
  - apply holds_listVisitors8.
  - apply holds_getVisitor8.
Qed.

Hypothesis I_begin : forall w, I w -> I (set_tx (Some (vs_visitors w)) w).
Hypothesis I_commit : forall w, I w -> I (set_tx None w).
Hypothesis I_rollback :
  forall w snap, tx w = Some snap -> I w -> I (set_tx None (set_visitors snap w)).
Hypothesis I_update :
  forall i name mob host mail purp now w,
    I w -> I (snd (Sql.update_visitor i name mob host mail purp now w)).

Lemma holds_tx_begin : holds I tx_begin.
Proof. apply holds_query. intros now w H. now apply I_begin. Qed.

Lemma holds_tx_commit : holds I tx_commit.
Proof. apply holds_query. intros now w H. now apply I_commit. Qed.

Lemma holds_tx_rollback : holds I tx_rollback.
Proof.
  intros e w H. unfold tx_rollback.
  destruct (tx w) as [snap|] eqn:Htx; [|exact H].
  pose proof (I_rollback w snap Htx H) as H'.
  destruct (db_fault e (n_db w)); cbn [snd];
    (apply (I_frame (set_tx None (set_visitors snap w))); [reflexivity .. | exact H']).
Qed.

Ltac hstep3 :=
  first
    [ apply holds_tx_begin
    | apply holds_tx_commit
    | apply holds_tx_rollback
    | apply holds_query; intros; apply I_insert; assumption
    | apply holds_query_if; intros; apply I_check_out; assumption
    | apply holds_query_if; intros; apply I_update; assumption
    | apply holds_query_if; intros; assumption
    | hstep2 ].

Lemma holds_rollback_quietly : holds I Part000.rollback_quietly.
Proof. unfold Part000.rollback_quietly. repeat hstep3. Qed.

Lemma holds_createVisitor (f : VisitorForm) (u : option Principal) :
  holds I (Part000.createVisitor f u).
Proof.
  unfold Part000.createVisitor. cbv zeta.
  repeat first [apply holds_rollback_quietly | hstep3].
Qed.

Lemma holds_checkOut (i : string) (u : Principal) :
  holds I (Part000.checkOut i u).
Proof.
  unfold Part000.checkOut.
  repeat first [apply holds_rollback_quietly | hstep3].
Qed.

Lemma holds_updateVisitor (i : string) (f : VisitorForm) (u : Principal) :
  holds I (Part000.updateVisitor i f u).
Proof.
  unfold Part000.updateVisitor, Part000.requireRole.
  destruct (existsb _ _); [|apply holds_ret].
  cbv zeta.
  repeat first [apply holds_rollback_quietly | hstep3].
Qed.

Lemma holds_handle (r : Part000.Request) : holds I (Part000.handle r).
Proof.
  destruct r; cbn [Part000.handle].
  - apply holds_login.
  - apply holds_createVisitor.
  - apply holds_checkOut.
  - apply holds_listVisitors.
  - apply holds_getVisitor.
  - apply holds_updateVisitor.
  - apply holds_report.
Qed.

End Invariant.

Lemma wf_rows_mono (n n' : Z) (T : list Visitor) :
  n <= n' -> wf_rows n T -> wf_rows n' T.
Proof.
  intros Hle [Hnd Hall]. split; [exact Hnd|].
  eapply Forall_impl; [|exact Hall]. cbn. intros r [Hid Hst]. split; [lia | exact Hst].
Qed.

Lemma wf_rows_map (n : Z) (g : Visitor -> Visitor) (T : list Visitor) :
  (forall r, id (g r) = id r) ->
  (forall r, state_ok r -> state_ok (g r)) ->
  wf_rows n T -> wf_rows n (map g T).
Proof.
  intros Hid Hst [Hnd Hall]. split.
  - rewrite map_map. erewrite map_ext; [exact Hnd|]. intros r. apply Hid.
  - apply Forall_map. eapply Forall_impl; [|exact Hall]. cbn.
    intros r [H1 H2]. rewrite Hid. split; [exact H1 | now apply Hst].
Qed.

Lemma WF_frame (w w' : World) :
  vs_visitors w' = vs_visitors w -> tx w' = tx w ->
  visitors_identity w' = visitors_identity w -> WF w -> WF w'.
Proof. unfold WF. intros -> -> ->. auto. Qed.

Lemma WF_insert b n mo h ma pu ph q by_ now w :
  WF w -> WF (snd (Sql.insert_visitor b n mo h ma pu ph q by_ now w)).
Proof.
  intros (H0 & [Hnd Hall] & Hsnap). unfold Sql.insert_visitor. cbn [snd].
  unfold WF. wsimpl. split; [lia|]. split.
  - split.
    + rewrite map_app. cbn [map id].
      apply NoDup_app; [exact Hnd | apply NoDup_cons; [intros [] | apply NoDup_nil] |].
      intros x Hin Hx. destruct Hx as [Hx|[]]. subst x.
      apply in_map_iff in Hin as (r & Hr & Hin).
      rewrite Forall_forall in Hall. apply Hall in Hin. lia.
    + apply Forall_app. split.
      * eapply Forall_impl; [|exact Hall]. cbn. intros r [H1 H2].
        split; [lia | exact H2].
      * apply Forall_cons; [|apply Forall_nil]. cbn [id]. split; [lia|].
        left. split; reflexivity.
  - intros snap Hs. apply (wf_rows_mono (visitors_identity w)); [lia|].
    now apply Hsnap.
Qed.

Lemma state_ok_check_out (now : Z) (b : bool) (r : Visitor) :
  state_ok (Sql.check_out_row now b r).
Proof. right. split; [reflexivity | discriminate]. Qed.

Lemma WF_check_out b i now w :
  WF w -> WF (snd (Sql.update_checkout_if_checked_in b i now w)).
Proof.
  intros (H0 & Hrows & Hsnap). unfold Sql.update_checkout_if_checked_in. cbn [snd].
  unfold WF. wsimpl. split; [exact H0|]. split; [|exact Hsnap].
  apply wf_rows_map; [| |exact Hrows].
  - intros r. now destruct (_ && _).
  - intros r Hr. destruct (_ && _); [apply state_ok_check_out | exact Hr].
Qed.

Lemma WF_update i name mob host mail purp now w :
  WF w -> WF (snd (Sql.update_visitor i name mob host mail purp now w)).
Proof.
  intros (H0 & Hrows & Hsnap). unfold Sql.update_visitor. cbn [snd].
  unfold WF. wsimpl. split; [exact H0|]. split; [|exact Hsnap].
  apply wf_rows_map; [| |exact Hrows].
  - intros r. now destruct (_ =? _).
  - intros r Hr. destruct (_ =? _); [|exact Hr]. exact Hr.
Qed.

Lemma WF_begin w : WF w -> WF (set_tx (Some (vs_visitors w)) w).
Proof.
  intros (H0 & Hrows & Hsnap). unfold WF. wsimpl.
  split; [exact H0|]. split; [exact Hrows|].
  intros snap Hs. inversion Hs; subst. exact Hrows.
Qed.

Lemma WF_commit w : WF w -> WF (set_tx None w).
Proof.
  intros (H0 & Hrows & Hsnap). unfold WF. wsimpl.
  split; [exact H0|]. split; [exact Hrows | discriminate].
Qed.

Lemma WF_rollback w snap :
  tx w = Some snap -> WF w -> WF (set_tx None (set_visitors snap w)).
Proof.
  intros Htx (H0 & Hrows & Hsnap). unfold WF. wsimpl.
  split; [exact H0|]. split; [now apply Hsnap | discriminate].
Qed.

Lemma WF_handle (r : Part000.Request) (e : Env) (w : World) :
  WF w -> WF (snd (Part000.handle r e w)).
Proof.
  apply (holds_handle WF WF_frame WF_insert WF_check_out WF_begin WF_commit
           WF_rollback WF_update r e w).
Qed.

Lemma WF_handle8 (r : Request8) (e : Env) (w : World) :
  WF w -> WF (snd (handle8 r e w)).
Proof. apply (holds_handle8 WF WF_frame WF_insert WF_check_out r e w). Qed.

Lemma untouched_frame (w0 w w' : World) :
  vs_visitors w' = vs_visitors w -> tx w' = tx w ->
  visitors_identity w' = visitors_identity w -> untouched w0 w -> untouched w0 w'.
Proof. unfold untouched. intros -> -> _. auto. Qed.

Lemma try_catch_answers {A} (m : M A) (h : string -> M A) :
  (forall msg, answers (h msg)) -> answers (try_catch m h).
Proof.
  intros Hh e w. unfold try_catch.
  destruct (m e w) as [[a|msg] w1]; [eexists _, _; reflexivity | apply Hh].
Qed.

Lemma log_and_answer (tag : string) (r : Response) :
  answers (_ <- console_error tag ;; ret r).
Proof. intros e w. eexists _, _. reflexivity. Qed.

Lemma settled_read_only (m : M Response) (e : Env) (w : World) :
  answers m -> holds (untouched w) m -> tx w = None -> settled w (m e w).
Proof.
  intros Ha Hh Htx. destruct (Ha e w) as (r & w' & Hrun).
  specialize (Hh e w (conj eq_refl eq_refl)). rewrite Hrun in Hh.
  destruct Hh as [Hrows Htx']. cbn [snd] in *.
  rewrite Hrun. apply settled_ret; [now rewrite Htx' | intros _; exact Hrows].
Qed.

(** X12.  Every request of [Part000] that starts with no transaction open
    is answered (no exception escapes the handler), leaves no transaction
    open, and, unless it is answered 200, leaves the visitors exactly as
    they were: what a failed check-in, check-out or update wrote is rolled
    back. *)
Theorem X12_part000_requests_are_all_or_nothing (req : Part000.Request) (e : Env)
    (w : World) :
  tx w = None -> settled w (Part000.handle req e w).
Proof.
  intros Htx. destruct req; cbn [Part000.handle].
  - apply settled_read_only; [|apply holds_login, untouched_frame|exact Htx].
    apply try_catch_answers. intros msg. apply log_and_answer.
  - now apply part000_createVisitor_settled.
  - now apply part000_checkOut_settled.
  - apply settled_read_only; [|apply holds_listVisitors, untouched_frame|exact Htx].
    apply try_catch_answers. intros msg. apply log_and_answer.
  - apply settled_read_only; [|apply holds_getVisitor, untouched_frame|exact Htx].
    apply try_catch_answers. intros msg. apply log_and_answer.
  - now apply part000_updateVisitor_settled.
  - apply settled_read_only; [|apply holds_report, untouched_frame|exact Htx].
    apply try_catch_answers. intros msg e0 w0. eexists _, _. reflexivity.
Qed.

Lemma X12_witness :
  settled world1
    (Part000.handle (Part000.CheckOut "1" reception) env_second_statement_fails world1).
Proof.
  apply (X12_part000_requests_are_all_or_nothing
           (Part000.CheckOut "1" reception) env_second_statement_fails world1).
  reflexivity.
Defined.

(** X13.  In [Part000], whatever requests are served one after the other,
    well-formed tables stay well formed: the identifiers of the visitors
    stay distinct, positive and at most the last identity value, and every
    row is either checked in without a check-out time or checked out with
    one; the same holds of what an open transaction would restore. *)
Theorem X13_part000_keeps_tables_well_formed (reqs : list Part000.Request) (e : Env)
    (w : World) :
  WF w -> WF (serve reqs e w).
Proof.
  revert w. induction reqs as [|r reqs IH]; intros w H; simpl; [exact H|].
  apply IH. now apply WF_handle.
Qed.

Lemma X13_witness :
  WF (serve [Part000.CreateVisitor jane None; Part000.CheckOut "1" reception;
             Part000.UpdateVisitor "1" rename_to_eve reception] env0 world0).
Proof.
  apply (X13_part000_keeps_tables_well_formed
           [Part000.CreateVisitor jane None; Part000.CheckOut "1" reception;
            Part000.UpdateVisitor "1" rename_to_eve reception] env0 world0).
  split; [simpl; lia|]. split.
  - split; [apply NoDup_nil | apply Forall_nil].
  - simpl. discriminate.
Defined.

(** X14.  The same for [Server8]: log-ins, check-ins, check-outs, listings
    and look-ups, served in any order, keep the identifiers distinct and
    every row either checked in without a check-out time or checked out
    with one. *)
Theorem X14_server8_keeps_tables_well_formed (reqs : list Request8) (e : Env)
    (w : World) :
  WF w -> WF (serve8 reqs e w).
Proof.
  revert w. induction reqs as [|r reqs IH]; intros w H; simpl; [exact H|].
  apply IH. now apply WF_handle8.
Qed.

Lemma X14_witness :
  WF (serve8 [CreateVisitor8 jane None; CheckOut8 "1" reception;
              CreateVisitor8 jane_with_photo None] env0 world0).
Proof.
  apply (X14_server8_keeps_tables_well_formed
           [CreateVisitor8 jane None; CheckOut8 "1" reception;
            CreateVisitor8 jane_with_photo None] env0 world0).
  split; [simpl; lia|]. split.
  - split; [apply NoDup_nil | apply Forall_nil].
  - simpl. discriminate.
Defined.

(** ** The listings *)

Lemma count_pattern_missing :
  JS.replace Server8.count_pattern Sql.count_select Server8.select_head
  = Server8.select_head
  /\ JS.includes Sql.count_select Server8.select_head = false.
Proof. vm_compute. split; reflexivity. Qed.

Lemma ceil_div_zero (l : Z) : JS.ceil_div 0 l = 0.
Proof. unfold JS.ceil_div. destruct l; reflexivity. Qed.

(** X15.  [Server8.listVisitors] never reports a count: every listing it
    answers with 200 has total 0 and 0 pages, and then at least one row
    matches the filter; when no row matches, the answer is 500. *)
Theorem X15_server8_listing_total_is_zero (e : Env) (w : World) (q : ListQuery)
    (user : Principal) :
  let hits := filter (Sql.where_ (Server8.conds_of q)) (vs_visitors w) in
  (forall rows p l total pages w',
      Server8.listVisitors q user e w = (Ok (json (ListBody rows p l total pages)), w') ->
      total = 0 /\ pages = 0 /\ hits <> [])
  /\ (hits = [] ->
      exists w', Server8.listVisitors q user e w =
                 (Ok (fail 500 "Failed to fetch visitors" "FETCH_VISITORS_ERROR"), w')).
Proof.
  intros hits. subst hits.
  destruct count_pattern_missing as [Hrep Hinc].
  split.
  - intros rows p l total pages w' H.
    unfold Server8.listVisitors, try_catch in H. cbv zeta in H. rewrite Hrep in H.
    unfold bind at 1 in H.
    step_query H; [inversion H|]. cbn [fst snd] in H.
    unfold Sql.run_select at 1 in H. rewrite Hinc in H.
    destruct (filter _ (vs_visitors w)) as [|hit hits] eqn:Hhits.
    { cbn [map] in H. unfold bind at 1, throw in H. inversion H. }
    cbn [map] in H.
    unfold bind at 1, ret at 1 in H.
    destruct (match q_page q with Some s => JS.parseInt s | None => Some 1 end) as [p0|];
      [|inversion H].
    destruct (match q_limit q with Some s => JS.parseInt s | None => Some 50 end) as [l0|];
      [|inversion H].
    unfold bind at 1 in H.
    destruct (query_if _ _ e _) as [[res|msg] w1]; [|inversion H].
    unfold ret in H. inversion H; subst.
    split; [reflexivity|]. split; [apply ceil_div_zero | discriminate].
  - intros Hnone.
    unfold Server8.listVisitors, try_catch. cbv zeta. rewrite Hrep.
    unfold bind at 1.
    destruct (db_fault e (n_db w)) eqn:Hdb.
    { rewrite query_fault by exact Hdb. eexists. reflexivity. }
    rewrite query_ok by exact Hdb. cbn [fst snd].
    unfold Sql.run_select at 1. rewrite Hinc, Hnone. cbn [map].
    unfold bind at 1, throw. eexists. reflexivity.
Qed.

Lemma In_insert_row (le : Visitor -> Visitor -> bool) (x y : Visitor) (l : list Visitor) :
  In y (Sql.insert_row le x l) <-> y = x \/ In y l.
Proof.
  induction l as [|z l IH]; cbn [Sql.insert_row].
  - cbn. intuition.
  - destruct (le x z); cbn [In]; [intuition|]. rewrite IH. cbn. intuition.
Qed.

Lemma In_order_by (le : Visitor -> Visitor -> bool) (y : Visitor) (l : list Visitor) :
  In y (Sql.order_by le l) <-> In y l.
Proof.
  induction l as [|z l IH]; cbn [Sql.order_by]; [reflexivity|].
  rewrite In_insert_row, IH. cbn. intuition.
Qed.

Lemma In_firstn {A} (n : nat) (y : A) (l : list A) : In y (firstn n l) -> In y l.
Proof.
  revert l. induction n as [|n IH]; intros [|x l]; cbn; try tauto.
  intros [H|H]; [now left | right; now apply IH].
Qed.

Lemma In_skipn {A} (n : nat) (y : A) (l : list A) : In y (skipn n l) -> In y l.
Proof.
  revert l. induction n as [|n IH]; intros [|x l]; cbn; try tauto.
  intros H. right. now apply IH.
Qed.

Lemma In_window (offset limit : Z) (y : Visitor) (l : list Visitor) :
  In y (Sql.window offset limit l) -> In y l.
Proof.
  unfold Sql.window. intros H.
  apply (In_skipn (Z.to_nat offset)). apply (In_firstn (Z.to_nat limit)). exact H.
Qed.

Lemma length_window (offset limit : Z) (l : list Visitor) :
  0 <= limit -> Z.of_nat (List.length (Sql.window offset limit l)) <= limit.
Proof.
  intros H. unfold Sql.window. rewrite length_firstn. lia.
Qed.

(** X16.  A listing [Part000.listVisitors] answers with 200 has a page
    number of at least 1 and a limit between 1 and 100, whatever the query
    asked for; it holds at most limit rows, each a stored row that matches
    the filter; a page that is not empty reports the number of all matching
    rows as total, an empty page reports 0; and pages is total divided by
    limit, rounded up. *)
Theorem X16_part000_listing_page (e : Env) (w w' : World) (q : ListQuery)
    (user : Principal)
    (rows : list Row) (p l total pages : Z) :
  Part000.listVisitors q user e w = (Ok (json (ListBody rows p l total pages)), w') ->
  let hits := filter (Sql.where_ (Part000.conds_of q)) (vs_visitors w) in
  1 <= p /\ 1 <= l <= 100
  /\ Z.of_nat (List.length rows) <= l
  /\ (forall row, In row rows ->
        exists r, row = VisitorRow r /\ In r (vs_visitors w)
                  /\ Sql.where_ (Part000.conds_of q) r = true)
  /\ (rows <> [] -> total = Z.of_nat (List.length hits))
  /\ (rows = [] -> total = 0)
  /\ pages = JS.ceil_div total l.
Proof.
  intros H hits. subst hits.
  unfold Part000.listVisitors, try_catch in H. cbv zeta in H.
  destruct (match q_page q with
            | Some s => option_map (Z.max 1) (JS.parseInt s)
            | None => Some 1
            end) as [p0|] eqn:Hp; [|inversion H].
  destruct (match q_limit q with
            | Some s => option_map (fun l => Z.min 100 (Z.max 1 l)) (JS.parseInt s)
            | None => Some 50
            end) as [l0|] eqn:Hl; [|inversion H].
  assert (Hp1 : 1 <= p0).
  { destruct (q_page q) as [s|]; [|inversion Hp; lia].
    destruct (JS.parseInt s); inversion Hp. lia. }
  assert (Hl1 : 1 <= l0 <= 100).
  { destruct (q_limit q) as [s|]; [|inversion Hl; lia].
    destruct (JS.parseInt s); inversion Hl. lia. }
  unfold bind at 1, query_if in H.
  destruct (int32 _ && int32 _ && Sql.page_ok _ _); [|inversion H].
  step_query H; [inversion H|]. cbn [fst snd] in H.
  unfold ret in H. inversion H; subst p l w'. clear H.
  unfold Sql.select_page_counted.
  set (hits := filter (Sql.where_ (Part000.conds_of q)) (vs_visitors w)) in *.
  set (pg := Sql.window ((p0 - 1) * l0) l0 _) in *.
  rewrite map_map. cbn [fst].
  split; [exact Hp1|]. split; [exact Hl1|].
  split; [rewrite length_map; apply length_window; lia|].
  split.
  { intros row Hin. apply in_map_iff in Hin as (r & <- & Hin).
    exists r. split; [reflexivity|].
    apply In_window in Hin. apply In_order_by in Hin.
    apply filter_In in Hin. exact Hin. }
  destruct pg as [|r pg']; cbn [map]; repeat split; try reflexivity;
    try (intros Hne; now elim Hne); discriminate.
Qed.

Lemma X16_witness :
  1 <= 1 /\ 1 <= 50 <= 100
  /\ Z.of_nat (List.length [VisitorRow jane_row]) <= 50
  /\ (forall row, In row [VisitorRow jane_row] ->
        exists r, row = VisitorRow r /\ In r (vs_visitors world1)
                  /\ Sql.where_ (Part000.conds_of no_filter) r = true)
  /\ ([VisitorRow jane_row] <> [] ->
      1 = Z.of_nat (List.length
                      (filter (Sql.where_ (Part000.conds_of no_filter))
                              (vs_visitors world1))))
  /\ ([VisitorRow jane_row] = [] -> 1 = 0)
  /\ 1 = JS.ceil_div 1 50.
Proof.
  apply (X16_part000_listing_page env0 world1
           (snd (Part000.listVisitors no_filter reception env0 world1))
           no_filter reception [VisitorRow jane_row] 1 50 1 1).
  vm_compute. reflexivity.
Defined.

(** X17.  The listing of the first iteration holds at most 100 rows, all
    of them stored rows, and for a user of role reception only rows that
    this user created. *)
Theorem X17_server1_listing_is_scoped (e : Env) (w w' : World) (date : option Z)
    (status_ : option string) (user : Principal) (rows : list Visitor) :
  Server1Util.listVisitors date status_ user e w = (Ok (inl rows), w') ->
  (List.length rows <= 100)%nat
  /\ (forall r, In r rows -> In r (vs_visitors w))
  /\ (p_role user = "reception" ->
      forall r, In r rows -> created_by r = Some (p_username user)).
Proof.
  intros H. unfold Server1Util.listVisitors, try_catch in H. cbv zeta in H.
  unfold bind at 1 in H.
  step_query H; [inversion H|]. cbn [fst snd] in H.
  unfold ret in H. inversion H; subst rows w'. clear H.
  split; [unfold Sql.window; rewrite length_firstn; cbn; lia|].
  split.
  - intros r Hin. apply In_window, In_order_by, filter_In in Hin. apply Hin.
  - intros Hrole r Hin. apply In_window, In_order_by, filter_In in Hin.
    destruct Hin as [_ Hin]. apply andb_prop in Hin as [_ Hmine].
    rewrite Hrole in Hmine. cbn in Hmine.
    destruct (created_by r) as [c|]; [|discriminate].
    apply String.eqb_eq in Hmine. now subst c.
Qed.

Lemma X17_witness :
  (List.length [jane_row] <= 100)%nat
  /\ (forall r, In r [jane_row] -> In r (vs_visitors world1))
  /\ (p_role front_desk = "reception" ->
      forall r, In r [jane_row] -> created_by r = Some (p_username front_desk)).
Proof.
  apply (X17_server1_listing_is_scoped env0 world1
           (snd (Server1Util.listVisitors None None front_desk env0 world1))
           None None front_desk [jane_row]).
  vm_compute. reflexivity.
Defined.

(** ** Login: who is let in, and the bookkeeping *)

Lemma truthy_or_else_some (v : option string) :
  JS.truthy v = true -> v = Some (JS.or_else v EmptyString).
Proof. destruct v as [[|c s]|]; simpl; try discriminate. reflexivity. Qed.

Lemma select_active_user_in (u : string) (w : World) (user : User) (rest : list User) :
  Sql.select_active_user u w = user :: rest ->
  In user (vs_users w) /\ (username user = u \/ email user = u).
Proof.
  intros Hsel.
  assert (Hin : In user (Sql.select_active_user u w)) by (rewrite Hsel; now left).
  apply filter_In in Hin as [Hin Hm]. split; [exact Hin|].
  apply andb_prop in Hm as [Hm _].
  apply orb_prop in Hm as [Hm|Hm]; apply String.eqb_eq in Hm; auto.
Qed.

Lemma server8_login_sound (e : Env) (w w' : World) (uo po : option string)
    (tok usr : Principal) :
  Server8.login uo po e w = (Ok (json (LoginBody tok usr)), w') ->
  authenticated e w uo po tok usr.
Proof.
  unfold Server8.login, try_catch. intros Hrun.
  destruct (JS.truthy uo) eqn:Hu; cbn [negb orb] in Hrun; [|inversion Hrun].
  destruct (JS.truthy po) eqn:Hp; cbn [negb orb] in Hrun; [|inversion Hrun].
  apply truthy_or_else_some in Hu, Hp.
  unfold bind at 1 in Hrun.
  step_query Hrun; [inversion Hrun|]. cbn [fst snd] in Hrun.
  destruct (Sql.select_user _ w) as [|user rest] eqn:Hsel; [inversion Hrun|].
  apply select_user_head in Hsel as [Hin Hm].
  destruct (negb _); [inversion Hrun|].
  unfold bind at 1, bcrypt_compare_ in Hrun.
  destruct (bcrypt_compare e _ (password user)) eqn:Hb; cbn [negb] in Hrun;
    [|inversion Hrun].
  unfold bind at 1, try_catch in Hrun.
  destruct (query _ e _) as [[[]|msg] w1]; cbn in Hrun; inversion Hrun; subst;
    exists user, (JS.or_else uo EmptyString), (JS.or_else po EmptyString);
    repeat split; auto.
Qed.

Lemma part000_login_sound (e : Env) (w w' : World) (uo po : option string)
    (tok usr : Principal) :
  Part000.login uo po e w = (Ok (json (LoginBody tok usr)), w') ->
  authenticated e w uo po tok usr.
Proof.
  unfold Part000.login, try_catch. intros Hrun.
  destruct (JS.truthy uo) eqn:Hu; cbn [negb orb] in Hrun; [|inversion Hrun].
  destruct (JS.truthy po) eqn:Hp; cbn [negb orb] in Hrun; [|inversion Hrun].
  apply truthy_or_else_some in Hu, Hp.
  unfold bind at 1 in Hrun.
  step_query Hrun; [inversion Hrun|]. cbn [fst snd] in Hrun.
  destruct (Sql.select_active_user _ w) as [|user rest] eqn:Hsel; [inversion Hrun|].
  apply select_active_user_in in Hsel as [Hin Hm].
  unfold bind at 1, bcrypt_compare_ in Hrun.
  destruct (bcrypt_compare e _ (password user)) eqn:Hb; cbn [negb] in Hrun;
    [|inversion Hrun].
  unfold bind at 1 in Hrun.
  destruct (query _ e _) as [[[]|msg] w1]; [|inversion Hrun].
  unfold bind at 1, Part000.logAudit, try_catch in Hrun.
  destruct (query _ e w1) as [[[]|msg] w2]; cbn in Hrun;
    inversion Hrun; subst;
    exists user, (JS.or_else uo EmptyString), (JS.or_else po EmptyString);
    repeat split; auto.
Qed.

Lemma server1_login_sound (e : Env) (w w' : World) (uo po : option string)
    (tok usr : Principal) :
  Server1.login uo po e w = (Ok (json (LoginBody tok usr)), w') ->
  authenticated e w uo po tok usr.
Proof.
  unfold Server1.login, try_catch. intros Hrun.
  unfold bind at 1 in Hrun.
  step_query Hrun; [inversion Hrun|]. cbn [fst snd] in Hrun.
  destruct uo as [u|]; [|inversion Hrun].
  destruct (Sql.select_user u w) as [|user rest] eqn:Hsel; [inversion Hrun|].
  apply select_user_head in Hsel as [Hin Hm].
  unfold bind at 1 in Hrun.
  destruct po as [pw|]; [|inversion Hrun].
  unfold bcrypt_compare_ in Hrun.
  destruct (bcrypt_compare e pw (password user)) eqn:Hb; [|inversion Hrun].
  inversion Hrun; subst. exists user, u, pw. repeat split; auto.
Qed.

(** X18.  In all three iterations, whoever a login lets in gave a user
    name or an email address of a stored account together with a password
    that the stored hash of this account matches, and the token and the
    user of the answer are that account's. *)
Theorem X18_login_lets_in_matching_accounts_only (e : Env) (w w' : World)
    (uo po : option string)
    (tok usr : Principal) :
  Server8.login uo po e w = (Ok (json (LoginBody tok usr)), w')
  \/ Part000.login uo po e w = (Ok (json (LoginBody tok usr)), w')
  \/ Server1.login uo po e w = (Ok (json (LoginBody tok usr)), w') ->
  authenticated e w uo po tok usr.
Proof.
  intros [H|[H|H]];
    [ eapply server8_login_sound | eapply part000_login_sound
    | eapply server1_login_sound ]; exact H.
Qed.

Lemma X18_witness :
  authenticated env0 world0 (Some "alice") (Some "correct horse")
    (principal_of alice) (principal_of alice).
Proof.
  apply (X18_login_lets_in_matching_accounts_only env0 world0
           (snd (Server8.login (Some "alice") (Some "correct horse") env0 world0))
           (Some "alice") (Some "correct horse")
           (principal_of alice) (principal_of alice)).
  left. vm_compute. reflexivity.
Defined.

Lemma filter_head_and {A} (p q : A -> bool) (l : list A) (x : A) (rest : list A) :
  filter p l = x :: rest -> q x = true ->
  exists rest', filter (fun a => p a && q a) l = x :: rest'.
Proof.
  induction l as [|y l IH]; cbn [filter]; [discriminate|].
  destruct (p y) eqn:Hp; cbn [andb].
  - intros H Hq. inversion H; subst. rewrite Hq. eexists. reflexivity.
  - intros H Hq. now apply IH.
Qed.

(** X19.  When the account is found, active and the password matches, but
    the engine refuses the statement that records the time of the login,
    [Server8.login] lets the user in all the same, while [Part000.login]
    answers 500. *)
Theorem X19_login_when_last_login_update_fails (e : Env) (w : World) (u pw : string)
    (user : User) (rest : list User) :
  u <> EmptyString -> pw <> EmptyString ->
  Sql.select_user u w = user :: rest ->
  is_active user = Some true ->
  bcrypt_compare e pw (password user) = true ->
  db_fault e (n_db w) = false ->
  db_fault e (S (n_db w)) = true ->
  fst (Server8.login (Some u) (Some pw) e w)
    = Ok (json (LoginBody (principal_of user) (principal_of user)))
  /\ fst (Part000.login (Some u) (Some pw) e w)
     = Ok (fail 500 "Internal server error" "INTERNAL_ERROR").
Proof.
  intros Hu Hp Hsel Hact Hb Hdb Hdb2. split.
  - login_start Hu Hp Hdb. rewrite Hsel, Hact. cbn [negb].
    unfold bind at 1, bcrypt_compare_. rewrite Hb. cbn [negb].
    unfold bind at 1, try_catch.
    rewrite query_fault by exact Hdb2. reflexivity.
  - destruct (filter_head_and _ (fun r => match is_active r with
                                          | Some true => true | _ => false end)
                _ _ _ Hsel) as (rest' & Hsel').
    { now rewrite Hact. }
    login_start Hu Hp Hdb. unfold Sql.select_active_user. rewrite Hsel'.
    unfold bind at 1, bcrypt_compare_. rewrite Hb. cbn [negb].
    unfold bind at 1.
    rewrite query_fault by exact Hdb2. reflexivity.
Qed.

Lemma X19_witness :
  fst (Server8.login (Some "alice") (Some "correct horse")
         env_second_statement_fails world0)
    = Ok (json (LoginBody (principal_of alice) (principal_of alice)))
  /\ fst (Part000.login (Some "alice") (Some "correct horse")
            env_second_statement_fails world0)
     = Ok (fail 500 "Internal server error" "INTERNAL_ERROR").
Proof.
  apply (X19_login_when_last_login_update_fails env_second_statement_fails world0
           "alice" "correct horse" alice []);
    try discriminate; reflexivity.
Defined.

(** ** [authenticateToken] *)

Section Authentication.

Import Server8Util.

Lemma split_no_space (s : string) : no_space s = true -> split " " s = [s].
Proof.
  induction s as [|c s IH]; [reflexivity|]. cbn [no_space split].
  intros H. apply andb_prop in H as [Hc Hs].
  apply negb_true_iff in Hc. rewrite Hc, IH by exact Hs. reflexivity.
Qed.

Lemma split_word (a rest : string) :
  no_space a = true -> split " " (a ++ String " " rest) = a :: split " " rest.
Proof.
  induction a as [|c a IH]; [reflexivity|]. cbn [no_space split append].
  intros H. apply andb_prop in H as [Hc Hs].
  apply negb_true_iff in Hc. rewrite Hc, IH by exact Hs. reflexivity.
Qed.

(** X20.  [authenticateToken] takes the second blank-separated word of the
    authorization header for the token, whatever the first word (the scheme)
    is and whatever follows the token, and answers as the verifier finds the
    token; a header of one word, or no header, is answered 401 without the
    verifier being asked. *)
Theorem X20_authenticateToken_reads_second_word (verify : string -> Verified)
    (scheme tok more : string) :
  no_space scheme = true -> no_space tok = true -> tok <> EmptyString ->
  authenticateToken verify (Some (scheme ++ " " ++ tok)) = verdict (verify tok)
  /\ authenticateToken verify (Some (scheme ++ " " ++ tok ++ " " ++ more))
     = verdict (verify tok)
  /\ authenticateToken verify (Some scheme)
     = Answered (fail 401 "Access denied - No token provided" "NO_TOKEN")
  /\ authenticateToken verify None
     = Answered (fail 401 "Access denied - No token provided" "NO_TOKEN").
Proof.
  intros Hs Ht Hne.
  assert (Htr : forall rest, JS.truthy (Some (scheme ++ " " ++ rest)) = true).
  { intros rest. destruct scheme; reflexivity. }
  assert (Hor : forall rest, JS.or_else (Some (scheme ++ " " ++ rest)) EmptyString
                             = scheme ++ " " ++ rest).
  { intros rest. destruct scheme; reflexivity. }
  assert (Htok : JS.truthy (Some tok) = true) by (destruct tok; [now elim Hne | reflexivity]).
  assert (Htok' : JS.or_else (Some tok) EmptyString = tok)
    by (destruct tok; [now elim Hne | reflexivity]).
  repeat split.
  - unfold authenticateToken. rewrite Htr, Hor.
    cbn [append]. rewrite split_word by exact Hs.
    rewrite split_no_space by exact Ht. cbn [nth_error].
    rewrite Htok, Htok'. reflexivity.
  - unfold authenticateToken. rewrite Htr, Hor.
    cbn [append]. rewrite split_word by exact Hs.
    rewrite split_word by exact Ht. cbn [nth_error].
    rewrite Htok, Htok'. reflexivity.
  - unfold authenticateToken.
    destruct (JS.truthy (Some scheme)) eqn:Htrs; [|reflexivity].
    assert (JS.or_else (Some scheme) EmptyString = scheme) as ->
      by (destruct scheme; [discriminate | reflexivity]).
    rewrite split_no_space by exact Hs. reflexivity.
Qed.

Lemma X20_witness :
  authenticateToken verify_abc (Some ("Basic" ++ " " ++ "abc"))
    = verdict (verify_abc "abc")
  /\ authenticateToken verify_abc (Some ("Basic" ++ " " ++ "abc" ++ " " ++ "x y"))
     = verdict (verify_abc "abc")
  /\ authenticateToken verify_abc (Some "Basic")
     = Answered (fail 401 "Access denied - No token provided" "NO_TOKEN")
  /\ authenticateToken verify_abc None
     = Answered (fail 401 "Access denied - No token provided" "NO_TOKEN").
Proof.
  apply (X20_authenticateToken_reads_second_word verify_abc "Basic" "abc" "x y");
    [reflexivity | reflexivity | discriminate].
Defined.

End Authentication.

(** ** The validation of a check-in *)

Section Regex.

Import JS.

Lemma test_Void (s : string) : test Void s = false.
Proof. induction s; [reflexivity | exact IHs]. Qed.

Lemma test_Alt (a b : regex) (s : string) : test (Alt a b) s = test a s || test b s.
Proof. revert a b. induction s as [|c s IH]; intros a b; [reflexivity | apply IH]. Qed.

Lemma test_Cat_Void (r : regex) (s : string) : test (Cat Void r) s = false.
Proof. induction s as [|c s IH]; [reflexivity | exact IH]. Qed.

Lemma test_Cat_Eps (r : regex) (s : string) : test (Cat Eps r) s = test r s.
Proof.
  destruct s as [|c s]; [reflexivity|]. cbn [test deriv nullable].
  now rewrite test_Alt, test_Cat_Void.
Qed.

Lemma test_Cat (r1 r2 : regex) (s : string) :
  test (Cat r1 r2) s = true <->
  exists s1 s2, s = s1 ++ s2 /\ test r1 s1 = true /\ test r2 s2 = true.
Proof.
  revert r1. induction s as [|c s IH]; intros r1.
  - cbn [test nullable]. rewrite andb_true_iff. split.
    + intros [H1 H2]. exists EmptyString, EmptyString. auto.
    + intros (s1 & s2 & Hs & H1 & H2).
      destruct s1; [|discriminate]. destruct s2; [|discriminate]. auto.
  - cbn [test deriv].
    assert (Hstep : test (Cat (deriv c r1) r2) s = true <->
                    exists s1 s2, String c s = String c s1 ++ s2
                                  /\ test r1 (String c s1) = true /\ test r2 s2 = true).
    { rewrite IH. split; intros (s1 & s2 & Hs & H1 & H2); exists s1, s2.
      - cbn [append]. subst s. auto.
      - cbn [append] in Hs. inversion Hs. auto. }
    destruct (nullable r1) eqn:Hn.
    + rewrite test_Alt, orb_true_iff, Hstep. split.
      * intros [(s1 & s2 & Hs & H1 & H2)|H].
        -- exists (String c s1), s2. auto.
        -- exists EmptyString, (String c s). auto.
      * intros (s1 & s2 & Hs & H1 & H2). destruct s1 as [|d s1].
        -- right. cbn [append] in Hs. subst s2. exact H2.
        -- left. cbn [append] in Hs. inversion Hs; subst.
           exists s1, s2. auto.
    + rewrite Hstep. split.
      * intros (s1 & s2 & Hs & H1 & H2). exists (String c s1), s2. auto.
      * intros (s1 & s2 & Hs & H1 & H2). destruct s1 as [|d s1].
        -- cbn [test] in H1. congruence.
        -- cbn [append] in Hs. inversion Hs; subst. exists s1, s2. auto.
Qed.

Lemma test_Class (p : ascii -> bool) (s : string) :
  test (Class p) s = true <-> exists c, s = String c EmptyString /\ p c = true.
Proof.
  destruct s as [|c s]; cbn [test deriv nullable].
  - split; [discriminate | intros (c & H & _); discriminate].
  - destruct (p c) eqn:Hp.
    + destruct s as [|d s]; cbn [test deriv nullable].
      * split; [eauto | reflexivity].
      * rewrite test_Void. split; [discriminate|].
        intros (c' & H & _). discriminate.
    + rewrite test_Void. split; [discriminate|].
      intros (c' & H & Hc). inversion H; subst. congruence.
Qed.

Lemma test_Star_Class (p : ascii -> bool) (s : string) :
  test (Star (Class p)) s = all_chars p s.
Proof.
  induction s as [|c s IH]; [reflexivity|]. cbn [test deriv all_chars].
  destruct (p c); cbn [andb]; [now rewrite test_Cat_Eps | apply test_Cat_Void].
Qed.

Lemma test_Plus_Class (p : ascii -> bool) (s : string) :
  test (Plus (Class p)) s = true <-> s <> EmptyString /\ all_chars p s = true.
Proof.
  unfold Plus. destruct s as [|c s]; cbn [test deriv nullable andb all_chars].
  - split; [discriminate | intros [H _]; now elim H].
  - destruct (p c); cbn [andb].
    + rewrite test_Cat_Eps, test_Star_Class. split; [split; [discriminate|auto] | tauto].
    + rewrite test_Cat_Void. split; [discriminate | tauto].
Qed.

Lemma test_Times_Class (p : ascii -> bool) (n : nat) (s : string) :
  test (Times n (Class p)) s = (String.length s =? n)%nat && all_chars p s.
Proof.
  revert s. induction n as [|n IH]; intros [|c s];
    cbn [Times test deriv nullable String.length Nat.eqb all_chars andb];
    try reflexivity.
  - now rewrite test_Void.
  - destruct (p c); cbn [andb].
    + now rewrite test_Cat_Eps, IH.
    + rewrite test_Cat_Void. now rewrite andb_false_r.
Qed.

Lemma test_char (a : ascii) (s : string) :
  test (Class (is_char a)) s = true <-> s = String a EmptyString.
Proof.
  rewrite test_Class. unfold is_char. split.
  - intros (c & -> & H). apply Ascii.eqb_eq in H. now subst.
  - intros ->. exists a. split; [reflexivity | apply Ascii.eqb_refl].
Qed.

Lemma test_mobileRegex (s : string) : test mobileRegex s = ten_digits s.
Proof. apply test_Times_Class. Qed.

Lemma test_emailRegex (s : string) : test emailRegex s = true <-> email_shape s.
Proof.
  unfold emailRegex, email_shape, word. rewrite test_Cat. split.
  - intros (a & s1 & -> & Ha & H).
    apply test_Cat in H as (at_ & s2 & -> & Hat & H).
    apply test_Cat in H as (b & s3 & -> & Hb & H).
    apply test_Cat in H as (dot & c & -> & Hdot & Hc).
    apply test_char in Hat, Hdot. subst at_ dot.
    apply test_Plus_Class in Ha, Hb, Hc.
    exists a, b, c. cbn [append]. auto.
  - intros (a & b & c & -> & Ha & Hb & Hc).
    apply test_Plus_Class in Ha, Hb, Hc.
    exists a, ("@" ++ b ++ "." ++ c). split; [reflexivity|]. split; [exact Ha|].
    apply test_Cat. exists "@", (b ++ "." ++ c). split; [reflexivity|].
    split; [now apply test_char|].
    apply test_Cat. exists b, ("." ++ c). split; [reflexivity|]. split; [exact Hb|].
    apply test_Cat. exists ".", c. split; [reflexivity|].
    split; [now apply test_char | exact Hc].
Qed.

End Regex.

Ltac caught_any :=
  match goal with
  | |- context [bind Part000.rollback_quietly
                  (fun _ => bind (console_error ?tag) (fun _ => ret ?r)) ?e ?w] =>
      let wc := fresh "wc" in
      let Hc := fresh "Hc" in
      destruct (part000_catch tag r e w) as (wc & Hc);
      rewrite Hc; exists r, wc; split; [reflexivity | left; reflexivity]
  end.

(** Past its validation, [Part000.createVisitor] answers 500 or 200. *)
Lemma part000_createVisitor_past_validation (e : Env) (w : World) (f : VisitorForm)
    (u : option Principal) :
  JS.truthy (f_visitor_name f) = true ->
  JS.truthy (f_host_email f) = true ->
  JS.truthy (f_purpose f) = true ->
  JS.test JS.emailRegex (JS.or_else (f_host_email f) EmptyString) = true ->
  JS.truthy (f_mobile f)
  && negb (JS.test JS.mobileRegex (JS.or_else (f_mobile f) EmptyString)) = false ->
  exists r w', Part000.createVisitor f u e w = (Ok r, w')
               /\ (http_status r = 500 \/ http_status r = 200).
Proof.
  intros Hn Hm Hp He Hmob. unfold Part000.createVisitor, try_catch.
  rewrite Hn, Hm, Hp, He, Hmob. cbn [negb orb].
  unfold bind at 1, tx_begin.
  query_goal; [caught_any|]. wsimpl.
  unfold bind at 1. unfold Date_now at 1.
  unfold bind at 1. unfold Math_random36.
  unfold bind at 1. unfold Date_now.
  unfold bind at 1. unfold QRCode_toDataURL.
  destruct (qr_toDataURL e _) as [url|]; [|caught_any].
  unfold bind at 1.
  query_goal; [caught_any|].
  unfold Sql.insert_visitor. wsimpl.
  unfold bind at 1.
  match goal with
  | |- context [match u with Some p => @?a p | None => ret tt end ?e0 ?w0] =>
      assert (Hlog : exists w1, (match u with Some p => a p | None => ret tt end) e0 w0
                                = (Ok tt, w1))
  end.
  { destruct u as [p|].
    - match goal with
      | |- context [Part000.logAudit ?a ?b ?c ?d ?e0 ?w0] =>
          destruct (logAudit_ok a b c d e0 w0) as (w1 & Hlog & _)
      end.
      exists w1. exact Hlog.
    - eexists. reflexivity. }
  destruct Hlog as (w1 & Hlog). rewrite Hlog.
  unfold bind at 1, tx_commit.
  query_goal; [caught_any|]. wsimpl.
  unfold bind at 1.
  match goal with
  | |- context [Part000.notify_checkin ?m ?ph ?e0 ?w0] =>
      destruct (part000_notify_checkin_ok m ph e0 w0) as (w2 & Hn2 & _)
  end.
  rewrite Hn2. unfold ret.
  eexists _, _. split; [reflexivity | right; reflexivity].
Qed.

Lemma truthy_nonempty (v : option string) :
  JS.truthy v = true <-> JS.or_else v EmptyString <> EmptyString.
Proof.
  destruct v as [[|c s]|]; cbn; split; try discriminate; try congruence;
    intros H; now elim H.
Qed.

Lemma not_true_iff_false' (b : bool) : b <> true <-> b = false.
Proof. destruct b; split; congruence. Qed.

(** X21.  For a check-in with name, host email and purpose present: both
    [Server8.createVisitor] and [Part000.createVisitor] answer 400
    INVALID_EMAIL, touching nothing, exactly when the host email is not of
    the shape local, at sign, domain, dot, rest (each part non-empty and free
    of white space and at signs); and [Part000.createVisitor] answers 400
    INVALID_MOBILE, touching nothing, exactly when the email has that shape
    and a mobile number is given that is not made of exactly ten digits. *)
Theorem X21_check_in_validation (e : Env) (w : World) (f : VisitorForm)
    (u : option Principal) :
  JS.truthy (f_visitor_name f) = true ->
  JS.truthy (f_host_email f) = true ->
  JS.truthy (f_purpose f) = true ->
  let mail := JS.or_else (f_host_email f) EmptyString in
  let mob := JS.or_else (f_mobile f) EmptyString in
  (Server8.createVisitor f u e w
     = (Ok (fail 400 "Invalid host email format" "INVALID_EMAIL"), w)
   <-> ~ email_shape mail)
  /\ (Part000.createVisitor f u e w
        = (Ok (fail 400 "Invalid host email format" "INVALID_EMAIL"), w)
      <-> ~ email_shape mail)
  /\ (Part000.createVisitor f u e w
        = (Ok (fail 400 "Mobile number must be 10 digits" "INVALID_MOBILE"), w)
      <-> email_shape mail /\ mob <> EmptyString /\ ten_digits mob = false).
Proof.
  intros Hn Hm Hp mail mob. subst mail mob.
  rewrite <- test_emailRegex, <- test_mobileRegex, <- truthy_nonempty.
  rewrite not_true_iff_false'.
  destruct (JS.test JS.emailRegex _) eqn:He.
  - (* the email is accepted *)
    split; [|split].
    + split; [|discriminate]. intros H.
      destruct (server8_createVisitor_run e w f u) as (w' & Hrun & _ & _).
      rewrite Hrun in H. unfold createVisitor_answer in H.
      rewrite Hn, Hm, Hp, He in H. cbn [negb orb] in H.
      destruct (qr_toDataURL e _); [destruct (db_fault e (n_db w))|]; inversion H.
    + split; [|discriminate]. intros H.
      destruct (JS.truthy (f_mobile f)
                && negb (JS.test JS.mobileRegex (JS.or_else (f_mobile f) EmptyString)))
        eqn:Hmob.
      * unfold Part000.createVisitor, try_catch in H.
        rewrite Hn, Hm, Hp, He, Hmob in H. inversion H.
      * destruct (part000_createVisitor_past_validation e w f u Hn Hm Hp He Hmob)
          as (r & w' & Hrun & Hst).
        rewrite Hrun in H. inversion H; subst. cbn in Hst. lia.
    + destruct (JS.truthy (f_mobile f)) eqn:Ht; cbn [andb].
      * destruct (JS.test JS.mobileRegex _) eqn:Hmr.
        -- split; [|intros (_ & _ & H); discriminate]. intros H.
           assert (Hmob : JS.truthy (f_mobile f)
                          && negb (JS.test JS.mobileRegex
                                     (JS.or_else (f_mobile f) EmptyString)) = false)
             by (rewrite Ht, Hmr; reflexivity).
           destruct (part000_createVisitor_past_validation e w f u Hn Hm Hp He Hmob)
             as (r & w' & Hrun & Hst).
           rewrite Hrun in H. inversion H; subst. cbn in Hst. lia.
        -- split; [auto|]. intros _.
           unfold Part000.createVisitor, try_catch.
           rewrite Hn, Hm, Hp, He, Ht, Hmr. reflexivity.
      * split; [|intros (_ & H & _); discriminate]. intros H.
        assert (Hmob : JS.truthy (f_mobile f)
                       && negb (JS.test JS.mobileRegex
                                  (JS.or_else (f_mobile f) EmptyString)) = false)
          by (rewrite Ht; reflexivity).
        destruct (part000_createVisitor_past_validation e w f u Hn Hm Hp He Hmob)
          as (r & w' & Hrun & Hst).
        rewrite Hrun in H. inversion H; subst. cbn in Hst. lia.
  - (* the email is refused *)
    split; [|split].
    + split; [reflexivity|]. intros _.
      unfold Server8.createVisitor, try_catch. rewrite Hn, Hm, Hp, He. reflexivity.
    + split; [reflexivity|]. intros _.
      unfold Part000.createVisitor, try_catch. rewrite Hn, Hm, Hp, He. reflexivity.
    + split; [|intros (H & _); discriminate]. intros H.
      unfold Part000.createVisitor, try_catch in H.
      rewrite Hn, Hm, Hp, He in H. inversion H.
Qed.

Lemma X21_witness :
  (Server8.createVisitor jane_bad_email None env0 world0
     = (Ok (fail 400 "Invalid host email format" "INVALID_EMAIL"), world0)
   <-> ~ email_shape (JS.or_else (f_host_email jane_bad_email) EmptyString))
  /\ (Part000.createVisitor jane_bad_email None env0 world0
        = (Ok (fail 400 "Invalid host email format" "INVALID_EMAIL"), world0)
      <-> ~ email_shape (JS.or_else (f_host_email jane_bad_email) EmptyString))
  /\ (Part000.createVisitor jane_bad_email None env0 world0
        = (Ok (fail 400 "Mobile number must be 10 digits" "INVALID_MOBILE"), world0)
      <-> email_shape (JS.or_else (f_host_email jane_bad_email) EmptyString)
          /\ JS.or_else (f_mobile jane_bad_email) EmptyString <> EmptyString
          /\ ten_digits (JS.or_else (f_mobile jane_bad_email) EmptyString) = false).
Proof.
  apply (X21_check_in_validation env0 world0 jane_bad_email None); reflexivity.
Defined.

(** ** A check-in followed by its check-out ([Server8]) *)

Lemma select_fresh (n : Z) (T : list Visitor) :
  wf_rows n T -> filter (fun r => id r =? n + 1) T = [].
Proof.
  intros [_ Hall]. induction Hall as [|r T [Hr _] _ IH]; [reflexivity|].
  cbn [filter]. destruct (id r =? n + 1) eqn:H; [|exact IH].
  apply Z.eqb_eq in H. lia.
Qed.

Lemma no_hit_fresh (n : Z) (T : list Visitor) :
  wf_rows n T -> existsb (checked_in_hit (n + 1)) T = false.
Proof.
  intros [_ Hall]. induction Hall as [|r T [Hr _] _ IH]; [reflexivity|].
  cbn [existsb]. rewrite IH, orb_false_r. unfold checked_in_hit.
  destruct (id r =? n + 1) eqn:H; [|reflexivity].
  apply Z.eqb_eq in H. lia.
Qed.

(** X22.  In [Server8], on well-formed tables, the number a check-in
    answers checks out the row this check-in stored and no other: when the
    two statements of the check-out are accepted, it is answered 200 with
    the process clock, and the rows are those from before the check-in
    followed by one row that carries that number, the name and host email
    of the form and the check-in time of the insert, with status
    [checked_out] and the engine's clock at the update as its check-out
    time. *)
Theorem X22_check_in_then_check_out (e e2 : Env) (w w1 : World) (f : VisitorForm)
    (u : option Principal) (user : Principal) (p : string) (i : Z) (url : string)
    (t : option Z) (qid : option string) :
  WF w ->
  Server8.createVisitor f u e w = (Ok (json (CreatedBody i url t qid)), w1) ->
  JS.parseInt p = Some i ->
  int32 i = true ->
  db_fault e2 (n_db w1) = false ->
  db_fault e2 (S (n_db w1)) = false ->
  exists w2 row,
    Server8.checkOut p user e2 w1
      = (Ok (json (CheckedOutBody (Some (JS.toISOString (app_clock e2 (n_app w1)))))),
         w2)
    /\ vs_visitors w2 = (vs_visitors w ++ [row])%list
    /\ id row = i
    /\ visitor_name row = JS.or_else (f_visitor_name f) EmptyString
    /\ host_email row = JS.or_else (f_host_email f) EmptyString
    /\ checkin_time row = db_clock e (n_db w)
    /\ status row = "checked_out"
    /\ checkout_time row = Some (db_clock e2 (S (n_db w1))).
Proof.
  intros (_ & Hwf & _) Hrun Hp Hint Hdb1 Hdb2.
  pose proof (server8_createVisitor_created _ _ _ _ _ _ _ _ _ Hrun)
    as (Hvalid & Hqr & Hdb).
  destruct (server8_createVisitor_runs e w f u url Hvalid Hqr Hdb)
    as (w1' & Hrun' & Hrows).
  rewrite Hrun in Hrun'. inversion Hrun'; subst i t qid w1'. clear Hrun'.
  fold (created_row e w f u) in Hrows.
  destruct (server8_checkOut_run e2 w1 p user) as (w2 & Hout & Hrows2).
  exists w2, (Sql.check_out_row (db_clock e2 (S (n_db w1))) false
                (created_row e w f u)).
  rewrite Hout, Hrows2. unfold checkOut_answer, checkOut_rows.
  rewrite Hp, Hint, Hdb1, Hdb2. cbn [negb orb].
  unfold Sql.select_visitor. rewrite Hrows.
  rewrite filter_app, (select_fresh _ _ Hwf). cbn [filter app created_row id].
  rewrite Z.eqb_refl. cbn [status String.eqb Ascii.eqb Bool.eqb orb].
  rewrite existsb_app, (no_hit_fresh _ _ Hwf). cbn [existsb orb].
  unfold checked_in_hit at 1. cbn [id status]. rewrite Z.eqb_refl.
  cbn [String.eqb Ascii.eqb Bool.eqb andb orb].
  split; [reflexivity|]. split.
  - rewrite map_app. rewrite (map_no_hit _ _ _ (no_hit_fresh _ _ Hwf)).
    cbn [map]. unfold checked_in_hit. cbn [id status]. rewrite Z.eqb_refl.
    reflexivity.
  - repeat split.
Qed.

Lemma X22_witness :
  exists w2 row,
    Server8.checkOut "2" reception env0
      (snd (Server8.createVisitor jane_with_photo None env0 world1))
      = (Ok (json (CheckedOutBody
                     (Some (JS.toISOString
                              (app_clock env0
                                 (n_app (snd (Server8.createVisitor jane_with_photo
                                                None env0 world1)))))))),
         w2)
    /\ vs_visitors w2 = (vs_visitors world1 ++ [row])%list
    /\ id row = 2
    /\ visitor_name row = JS.or_else (f_visitor_name jane_with_photo) EmptyString
    /\ host_email row = JS.or_else (f_host_email jane_with_photo) EmptyString
    /\ checkin_time row = db_clock env0 (n_db world1)
    /\ status row = "checked_out"
    /\ checkout_time row
       = Some (db_clock env0
                 (S (n_db (snd (Server8.createVisitor jane_with_photo None
                                  env0 world1))))).
Proof.
  apply (X22_check_in_then_check_out env0 env0 world1
           (snd (Server8.createVisitor jane_with_photo None env0 world1))
           jane_with_photo None reception
           "2" 2
           ("data:image/png;base64," ++ qr_text jane_with_photo 1000 "k3x9q2m1z" 1001)
           (Some 5000) (Some "VIS-1000-k3x9q2m1z")).
  - split; [simpl; lia|]. split.
    + split.
      * apply NoDup_cons; [intros [] | apply NoDup_nil].
      * apply Forall_cons; [|apply Forall_nil].
        split; [simpl; lia|]. left. split; reflexivity.
    + simpl. discriminate.
  - vm_compute. reflexivity.
  - reflexivity.
  - reflexivity.
  - reflexivity.
  - reflexivity.
Defined.

(** ** Two check-outs at once ([Server8]) *)

(** The stages are the handler: advancing a request twice is
    [Server8.checkOut]. *)
Lemma advance_twice_is_checkOut (id_param : string) (user : Principal)
    (e : Env) (w : World) :
  exists r w',
    Server8.checkOut id_param user e w = (Ok r, w')
    /\ (s <- advance (Fresh id_param) ;; advance s) e w = (Ok (Done r), w').
Proof.
  unfold Server8.checkOut, advance at 1, checkOut_catch, checkOut_select.
  destruct (JS.parseInt id_param) as [i|]; [|eexists _, _; split; reflexivity].
  unfold try_catch, bind, query_if, query, rejected.
  destruct (int32 i) eqn:Hint; [|eexists _, _; split; reflexivity].
  destruct (db_fault e (n_db w)) eqn:Hdb; [eexists _, _; split; reflexivity|].
  wsimpl.
  destruct (Sql.select_visitor i w) as [|v rest]; [eexists _, _; split; reflexivity|].
  destruct (String.eqb (status v) "checked_out"); [eexists _, _; split; reflexivity|].
  unfold ret. cbn [advance].
  unfold checkOut_catch, checkOut_update, try_catch, bind, query_if, query.
  rewrite Hint. wsimpl.
  destruct (db_fault e (S (n_db w))) eqn:Hdb2; [eexists _, _; split; reflexivity|].
  unfold Sql.update_checkout_if_checked_in. wsimpl.
  destruct (_ =? 0)%nat; [eexists _, _; split; reflexivity|].
  unfold Date_now, checkout_mail_enabled. wsimpl.
  destruct (JS.truthy (Some (host_email v)) && send_checkout_emails e).
  - match goal with
    | |- context [Server8.notify ?m ?t ?e0 ?w0] =>
        destruct (server8_notify_ok m t e0 w0) as (w' & Hrun & _)
    end.
    rewrite Hrun. eexists _, _; split; reflexivity.
  - eexists _, _; split; reflexivity.
Qed.

Lemma not_200 (r : Response) : http_status r <> 200 -> ~ checked_out_200 (Done r).
Proof. intros H (r' & Hr & Hs). inversion Hr; subst. contradiction. Qed.

Lemma advance_ok (i : Z) (s : Stage) (e : Env) (w : World) :
  about i s ->
  exists s' w',
    advance s e w = (Ok s', w')
    /\ about i s'
    /\ (spent i w -> spent i w')
    /\ (checked_out_200 s' -> checked_out_200 s \/ (~ spent i w /\ spent i w')).
Proof.
  unfold spent. intros Hab. destruct s as [p|j v|r]; cbn [advance about] in *.
  - (* the select *)
    unfold checkOut_catch, checkOut_select. rewrite Hab.
    unfold try_catch, bind, query_if, query, rejected, ret, console_error.
    destruct (int32 i).
    2:{ eexists _, _. split; [reflexivity|]. split; [exact I|]. split; [auto|].
        intros H. now apply not_200 in H. }
    destruct (db_fault e (n_db w)).
    { eexists _, _. split; [reflexivity|]. split; [exact I|]. split; [auto|].
      intros H. now apply not_200 in H. }
    wsimpl.
    destruct (Sql.select_visitor i w) as [|v rest].
    { eexists _, _. split; [reflexivity|]. split; [exact I|]. split; [auto|].
      intros H. now apply not_200 in H. }
    destruct (String.eqb (status v) "checked_out").
    { eexists _, _. split; [reflexivity|]. split; [exact I|]. split; [auto|].
      intros H. now apply not_200 in H. }
    eexists _, _. split; [reflexivity|]. split; [reflexivity|]. split; [auto|].
    intros (r & Hr & _). discriminate.
  - (* the update *)
    subst j. unfold checkOut_catch, checkOut_update.
    unfold try_catch, bind, query_if, query, rejected, console_error.
    destruct (int32 i).
    2:{ eexists _, _. split; [reflexivity|]. split; [exact I|]. split; [auto|].
        intros H. now apply not_200 in H. }
    destruct (db_fault e (n_db w)).
    { eexists _, _. split; [reflexivity|]. split; [exact I|]. split; [auto|].
      intros H. now apply not_200 in H. }
    unfold Sql.update_checkout_if_checked_in. wsimpl.
    fold (checked_in_hit i). rewrite length_filter_zero.
    destruct (existsb (checked_in_hit i) (vs_visitors w)) eqn:Hhit; cbn [negb].
    + unfold Date_now, checkout_mail_enabled. wsimpl.
      destruct (JS.truthy (Some (host_email v)) && send_checkout_emails e).
      * match goal with
        | |- context [Server8.notify ?m ?t ?e0 ?w0] =>
            destruct (server8_notify_ok m t e0 w0) as (w1 & Hrun & (Hv & _))
        end.
        rewrite Hrun. unfold ret.
        eexists _, _. split; [reflexivity|]. split; [exact I|].
        rewrite Hv. wsimpl. split; [discriminate|].
        intros _. right. split; [discriminate | apply checked_in_hit_after].
      * unfold ret.
        eexists _, _. split; [reflexivity|]. split; [exact I|].
        wsimpl. split; [discriminate|].
        intros _. right. split; [discriminate | apply checked_in_hit_after].
    + unfold ret. eexists _, _. split; [reflexivity|]. split; [exact I|]. wsimpl.
      pose proof (map_no_hit i (Sql.check_out_row (db_clock e (n_db w)) false)
                    _ Hhit) as Hmap.
      unfold checked_in_hit in Hmap at 1. rewrite Hmap. split; [auto|].
      intros H. now apply not_200 in H.
  - eexists _, _. split; [reflexivity|]. split; [exact I|]. split; [auto|]. auto.
Qed.

(** X25.  Two check-outs of the same visitor in [Server8] that run at the
    same time, their statements interleaved in any order: advancing a
    request statement by statement is the handler, and however the two
    requests are interleaved, at most one of them is answered 200; once one
    is, no row of that visitor is checked in any more. *)
Theorem X25_concurrent_check_outs (schedule : list bool) (e : Env) (w : World)
    (p1 p2 : string) (i : Z) :
  JS.parseInt p1 = Some i ->
  JS.parseInt p2 = Some i ->
  (forall user e0 w0,
      exists r w1,
        Server8.checkOut p1 user e0 w0 = (Ok r, w1)
        /\ (s <- advance (Fresh p1) ;; advance s) e0 w0 = (Ok (Done r), w1))
  /\ let '(a, b, w') := interleave schedule (Fresh p1) (Fresh p2) e w in
     ~ (checked_out_200 a /\ checked_out_200 b)
     /\ (checked_out_200 a \/ checked_out_200 b -> spent i w').
Proof.
  intros H1 H2.
  split; [intros user e0 w0; apply advance_twice_is_checkOut|].
  assert (Hgen : forall a b w0,
             about i a -> about i b ->
             ~ (checked_out_200 a /\ checked_out_200 b) ->
             (checked_out_200 a \/ checked_out_200 b -> spent i w0) ->
             let '(a', b', w') := interleave schedule a b e w0 in
             ~ (checked_out_200 a' /\ checked_out_200 b')
             /\ (checked_out_200 a' \/ checked_out_200 b' -> spent i w')).
  { induction schedule as [|turn rest IH]; intros a b w0 Ha Hb Hnot Hsp.
    - cbn [interleave]. auto.
    - cbn [interleave]. destruct turn.
      + destruct (advance_ok i a e w0 Ha) as (a' & w' & Hrun & Ha' & Hkeep & Hnew).
        rewrite Hrun. apply IH; [exact Ha' | exact Hb | |].
        * intros [Hx Hy]. destruct (Hnew Hx) as [Hold|[Hno _]]; [tauto|].
          apply Hno, Hsp. now right.
        * intros [Hx|Hy].
          -- destruct (Hnew Hx) as [Hold|[_ Hyes]]; [|exact Hyes].
             apply Hkeep, Hsp. now left.
          -- apply Hkeep, Hsp. now right.
      + destruct (advance_ok i b e w0 Hb) as (b' & w' & Hrun & Hb' & Hkeep & Hnew).
        rewrite Hrun. apply IH; [exact Ha | exact Hb' | |].
        * intros [Hx Hy]. destruct (Hnew Hy) as [Hold|[Hno _]]; [tauto|].
          apply Hno, Hsp. now left.
        * intros [Hx|Hy].
          -- apply Hkeep, Hsp. now left.
          -- destruct (Hnew Hy) as [Hold|[_ Hyes]]; [|exact Hyes].
             apply Hkeep, Hsp. now right. }
  apply Hgen; cbn [about]; auto.
  - intros [(r & Hr & _) _]. discriminate.
  - intros [(r & Hr & _)|(r & Hr & _)]; discriminate.
Qed.

Lemma X25_witness :
  (forall user e0 w0,
      exists r w1,
        Server8.checkOut "1" user e0 w0 = (Ok r, w1)
        /\ (s <- advance (Fresh "1") ;; advance s) e0 w0 = (Ok (Done r), w1))
  /\ let '(a, b, w') :=
       interleave [true; false; false; true] (Fresh "1") (Fresh "1") env0 world1 in
     ~ (checked_out_200 a /\ checked_out_200 b)
     /\ (checked_out_200 a \/ checked_out_200 b -> spent 1 w').
Proof.
  apply (X25_concurrent_check_outs [true; false; false; true] env0 world1 "1" "1" 1);
    reflexivity.
Defined.

(** ** What an update writes ([Part000]) *)

Lemma unique_hit (i : Z) (T : list Visitor) (v : Visitor) (rest : list Visitor) :
  NoDup (map id T) ->
  filter (fun r => id r =? i) T = v :: rest ->
  forall r, In r T -> id r = i -> r = v.
Proof.
  intros Hnd Hsel.
  assert (Hv : In v T /\ id v = i).
  { assert (Hin : In v (filter (fun r => id r =? i) T)) by (rewrite Hsel; now left).
    apply filter_In in Hin as [Hin Hid]. apply Z.eqb_eq in Hid. auto. }
  destruct Hv as [Hv Hvi]. clear Hsel.
  induction T as [|x T IH]; [contradiction|].
  cbn [map] in Hnd. inversion Hnd as [|? ? Hnotin Hnd']; subst.
  intros r Hr Hri.
  assert (Hmem : forall y, In y T -> id y = id x -> False).
  { intros y Hy Hyx. apply Hnotin. rewrite <- Hyx. now apply in_map. }
  destruct Hv as [->|Hv], Hr as [->|Hr]; try reflexivity.
  - exfalso. apply (Hmem r Hr). congruence.
  - exfalso. apply (Hmem v Hv). congruence.
  - now apply IH.
Qed.

(** X23.  An update [Part000.updateVisitor] answers with 200 was asked
    for by an admin or a reception user and rewrote, on well-formed tables,
    exactly the row with the number named: each of name, mobile, host, host
    email and purpose takes the value of the form when that is present and
    not empty and keeps its stored value otherwise, the time of the update
    is the engine's clock at the third statement, and every other column
    and every other row stays as it was.  The form is not validated. *)
Theorem X23_update_writes_given_fields_only (e : Env) (w w' : World) (id_param : string)
    (f : VisitorForm) (user : Principal) (i : Z) :
  WF w ->
  Part000.updateVisitor id_param f user e w = (Ok (json (UpdatedBody i)), w') ->
  Part000.visitor_id_of id_param = Some i
  /\ (p_role user = "admin" \/ p_role user = "reception")
  /\ vs_visitors w' =
       map (fun r => if id r =? i
                     then edited f (db_clock e (S (S (n_db w)))) r
                     else r) (vs_visitors w).
Proof.
  intros (_ & [Hnd _] & _) Hrun.
  unfold Part000.updateVisitor, Part000.requireRole in Hrun.
  assert (Hrole : existsb (String.eqb (p_role user)) ["admin"; "reception"] = true).
  { destruct (existsb _ _); [reflexivity | inversion Hrun]. }
  rewrite Hrole in Hrun.
  unfold try_catch in Hrun.
  destruct (Part000.visitor_id_of id_param) as [i0|]; [|inversion Hrun].
  unfold bind at 1, tx_begin in Hrun.
  step_query Hrun; [caught Hrun|]. wsimpl_in Hrun.
  unfold bind at 1, query_if in Hrun.
  destruct (int32 i0); [|unfold rejected in Hrun; caught Hrun].
  step_query Hrun; [caught Hrun|]. wsimpl_in Hrun.
  unfold Sql.select_visitor at 1 in Hrun. wsimpl_in Hrun.
  destruct (filter (fun r => id r =? i0) (vs_visitors w)) as [|v rest] eqn:Hsel.
  { unfold bind at 1 in Hrun.
    destruct (tx_rollback e _) as [[[]|msg] w1]; [inversion Hrun | caught Hrun]. }
  unfold bind at 1 in Hrun.
  step_query Hrun; [caught Hrun|].
  unfold Sql.update_visitor in Hrun. wsimpl_in Hrun.
  destruct (_ =? 0)%nat.
  { unfold bind at 1 in Hrun.
    destruct (tx_rollback e _) as [[[]|msg] w1]; [inversion Hrun | caught Hrun]. }
  unfold bind at 1 in Hrun.
  match type of Hrun with
  | context [Part000.logAudit ?a ?b ?c ?d ?e0 ?w0] =>
      destruct (logAudit_ok a b c d e0 w0)
        as (w1 & Hlog & Hv1 & Htx1 & Happ1 & Hndb1)
  end.
  rewrite Hlog in Hrun. wsimpl_in Hv1.
  unfold bind at 1, tx_commit in Hrun.
  step_query Hrun; [caught Hrun|]. wsimpl_in Hrun.
  unfold ret in Hrun. inversion Hrun; subst i w'. clear Hrun.
  split; [reflexivity|]. split.
  { cbn [existsb] in Hrole. rewrite orb_false_r in Hrole.
    apply orb_prop in Hrole as [H|H]; apply String.eqb_eq in H; auto. }
  wsimpl. rewrite Hv1. apply map_ext_in. intros r Hr.
  destruct (id r =? i0) eqn:Hid; [|reflexivity].
  apply Z.eqb_eq in Hid.
  rewrite (unique_hit i0 _ v rest Hnd Hsel r Hr Hid). reflexivity.
Qed.

Lemma X23_witness :
  Part000.visitor_id_of "1" = Some 1
  /\ (p_role reception = "admin" \/ p_role reception = "reception")
  /\ vs_visitors (snd (Part000.updateVisitor "1" rename_to_eve reception env0 world1))
     = map (fun r => if id r =? 1
                     then edited rename_to_eve (db_clock env0 (S (S (n_db world1)))) r
                     else r) (vs_visitors world1).
Proof.
  apply (X23_update_writes_given_fields_only env0 world1
           (snd (Part000.updateVisitor "1" rename_to_eve reception env0 world1))
           "1" rename_to_eve reception 1).
  - split; [simpl; lia|]. split.
    + split.
      * apply NoDup_cons; [intros [] | apply NoDup_nil].
      * apply Forall_cons; [|apply Forall_nil].
        split; [simpl; lia|]. left. split; reflexivity.
    + simpl. discriminate.
  - vm_compute. reflexivity.
Defined.

(** ** A check-in without a photo in the first iteration *)

(** X24.  In the first iteration a check-in that carries no photo is
    never answered 200: the answer is 500 and no mail is handed to the mail
    server; yet when name and host email are given, the QR pass renders and
    the insert is accepted, the visitor is stored all the same, checked
    in. *)
Theorem X24_server1_check_in_without_photo (e : Env) (w : World) (f : VisitorForm)
    (user : Principal) :
  f_photo_base64 f = None ->
  exists r w',
    Server1.createVisitor f user e w = (Ok r, w')
    /\ http_status r = 500
    /\ n_mail w' = n_mail w
    /\ (forall name mail,
          f_visitor_name f = Some name -> f_host_email f = Some mail ->
          qr_toDataURL e
            (JS.stringify (Server1.qrData1 ("VIS-" ++ JS.string_of_Z (app_clock e (n_app w)))
                             f (JS.toISOString (app_clock e (S (n_app w)))))) <> None ->
          db_fault e (n_db w) = false ->
          exists row,
            vs_visitors w' = (vs_visitors w ++ [row])%list
            /\ visitor_name row = name /\ status row = "checked_in").
Proof.
  intros Hph. unfold Server1.createVisitor, try_catch.
  unfold bind at 1. unfold Date_now at 1.
  unfold bind at 1. unfold Date_now at 1.
  unfold bind at 1. unfold QRCode_toDataURL. wsimpl.
  destruct (qr_toDataURL e _) as [url|] eqn:Hqr.
  2:{ eexists _, _. split; [reflexivity|]. split; [reflexivity|].
      split; [reflexivity|]. intros name mail _ _ H. now elim H. }
  unfold bind at 1.
  destruct (f_visitor_name f) as [name|].
  2:{ eexists _, _. split; [reflexivity|]. split; [reflexivity|].
      split; [reflexivity|]. intros name mail H. discriminate. }
  destruct (f_host_email f) as [mail|].
  2:{ eexists _, _. split; [reflexivity|]. split; [reflexivity|].
      split; [reflexivity|]. intros name0 mail _ H. discriminate. }
  destruct (db_fault e (n_db w)) eqn:Hdb.
  { rewrite query_fault by exact Hdb.
    eexists _, _. split; [reflexivity|]. split; [reflexivity|].
    split; [reflexivity|]. intros name0 mail0 _ _ _ H. discriminate. }
  rewrite query_ok by exact Hdb.
  unfold Sql.insert_visitor. wsimpl.
  unfold bind at 1, build_mail. wsimpl.
  destruct (html_fault e (n_mail w)).
  { eexists _, _. split; [reflexivity|]. split; [reflexivity|].
    split; [reflexivity|]. intros name0 mail0 H1 H2 _ _. inversion H1; subst.
    eexists. wsimpl. split; [reflexivity|]. split; reflexivity. }
  unfold bind at 1, Date_now.
  unfold bind at 1. rewrite Hph. unfold throw.
  eexists _, _. split; [reflexivity|]. split; [reflexivity|].
  split; [reflexivity|]. intros name0 mail0 H1 H2 _ _. inversion H1; subst.
  eexists. wsimpl. split; [reflexivity|]. split; reflexivity.
Qed.

Lemma X24_witness :
  exists r w',
    Server1.createVisitor jane reception env0 world0 = (Ok r, w')
    /\ http_status r = 500
    /\ n_mail w' = n_mail world0
    /\ (forall name mail,
          f_visitor_name jane = Some name -> f_host_email jane = Some mail ->
          qr_toDataURL env0
            (JS.stringify
               (Server1.qrData1
                  ("VIS-" ++ JS.string_of_Z (app_clock env0 (n_app world0)))
                  jane (JS.toISOString (app_clock env0 (S (n_app world0)))))) <> None ->
          db_fault env0 (n_db world0) = false ->
          exists row,
            vs_visitors w' = (vs_visitors world0 ++ [row])%list
            /\ visitor_name row = name /\ status row = "checked_in").
Proof.
  apply (X24_server1_check_in_without_photo env0 world0 jane reception).
  reflexivity.
Defined.
